(** * python_spirograph: transform pipeline over an angle sequence

    A shallow embedding of the numeric core of the repository
    (main.py, patterns.py, standard_transforms.py, spirograph_transforms.py,
    spiral_transforms.py) and the properties its specification states.

    Numbers.  The program computes on numpy float64 arrays.  The embedding
    idealises a float64 as a real number ([R]): rounding, infinities and NaN
    are outside the model, with one exception, the remainder [a % b] of a
    negative [a], which rounds to [b] itself when [a] is tiny (see [np_mod]).
    Where numpy divides an array (or a numpy scalar) by zero it warns and
    goes on with inf or nan; the model goes on with Rocq's [x / 0].  Where
    Python divides two plain Python numbers by zero it raises
    ZeroDivisionError, and so does the model.

    Arrays.  A one-dimensional ndarray is a [list R].  Binary operations on
    two arrays follow numpy's broadcasting rule for one dimension: equal
    lengths combine element-wise, a length-one operand is stretched, anything
    else raises ValueError.

    Errors.  A Python exception is a value of [exn]; code that may raise
    returns a [result]. *)

From Stdlib Require Import String.
From Stdlib Require Import Reals Lra Lia ZArith Arith Bool List.
Import ListNotations.

Open Scope R_scope.

(** ** Python exceptions as results *)

Inductive exn : Type :=
| ValueError
| IndexError
| ZeroDivisionError.

Inductive result (A : Type) : Type :=
| Ok (a : A)
| Raise (e : exn).

Arguments Ok {A} a.
Arguments Raise {A} e.

Definition bind {A B : Type} (m : result A) (k : A -> result B) : result B :=
  match m with
  | Ok a => k a
  | Raise e => Raise e
  end.

Notation "x <- m ;; k" := (bind m (fun x => k))
  (at level 61, m at next level, right associativity).
Notation "' p <- m ;; k" := (bind m (fun p => k))
  (at level 61, p pattern, m at next level, right associativity).

Definition is_ok {A : Type} (m : result A) : bool :=
  match m with Ok _ => true | Raise _ => false end.

(** ** One-dimensional arrays *)

Definition ndarray : Type := list R.

Notation "a .[ i ]" := (nth i a 0) (at level 1, left associativity, format "a .[ i ]").

Fixpoint zip_with (f : R -> R -> R) (a b : ndarray) : ndarray :=
  match a, b with
  | u :: a', v :: b' => f u v :: zip_with f a' b'
  | _, _ => []
  end.

(** [a op b] on two arrays, with numpy's broadcasting. *)
Definition broadcast (f : R -> R -> R) (a b : ndarray) : result ndarray :=
  if Nat.eqb (length a) (length b) then Ok (zip_with f a b)
  else match a, b with
       | [u], _ => Ok (map (f u) b)
       | _, [v] => Ok (map (fun u => f u v) a)
       | _, _ => Raise ValueError
       end.

Definition np_add : ndarray -> ndarray -> result ndarray := broadcast Rplus.
Definition np_sub : ndarray -> ndarray -> result ndarray := broadcast Rminus.
Definition np_mul : ndarray -> ndarray -> result ndarray := broadcast Rmult.

(** Array and scalar. *)
Definition smul (s : R) (a : ndarray) : ndarray := map (fun v => s * v) a.
Definition muls (a : ndarray) (s : R) : ndarray := map (fun v => v * s) a.
Definition adds (a : ndarray) (s : R) : ndarray := map (fun v => v + s) a.
Definition divs (a : ndarray) (s : R) : ndarray := map (fun v => v / s) a.
Definition np_cos (a : ndarray) : ndarray := map cos a.
Definition np_sin (a : ndarray) : ndarray := map sin a.
Definition np_square (a : ndarray) : ndarray := map (fun v => v ^ 2) a.
Definition zeros_like (a : ndarray) : ndarray := map (fun _ => 0) a.

Definition deg2rad (d : R) : R := d * (PI / 180).

(** [a[-1]] *)
Definition last_item (a : ndarray) : result R :=
  match a with
  | [] => Raise IndexError
  | _ => Ok (last a 0)
  end.

(** [a[-1] = v] *)
Definition set_last (a : ndarray) (v : R) : ndarray := removelast a ++ [v].

(** Division of two plain Python numbers. *)
Definition py_div (a b : R) : result R :=
  if Req_dec_T b 0 then Raise ZeroDivisionError else Ok (a / b).

(** ** numpy.linspace

    [linspace start stop num] with the endpoint included, after numpy's
    implementation: the integers [0 .. num-1] are scaled by
    [step = (stop - start) / (num - 1)], shifted by [start], and the last
    sample is then overwritten with [stop]. *)

Definition linspace (start stop : R) (num : nat) : ndarray :=
  let div := (num - 1)%nat in
  let delta := stop - start in
  let y := map INR (seq 0 num) in
  let y := if (0 <? div)%nat then muls y (delta / INR div) else muls y delta in
  let y := adds y start in
  if (1 <? num)%nat then set_last y stop else y.

(** ** main.py: the angle sequence of a pattern *)

Definition resolution : nat := 50000.

(** [theta = np.linspace(0, 2 * np.pi * rotations, 50000)] *)
Definition theta_sequence (rotations : R) : ndarray :=
  linspace 0 (2 * PI * rotations) resolution.

Definition sadd (s : R) (a : ndarray) : ndarray := map (fun v => s + v) a.

(** [np.clip(v, lo, hi)] *)
Definition np_clip (v lo hi : R) : R := Rmin (Rmax v lo) hi.

(** [a[-1] = v], which raises on an empty array. *)
Definition set_last_item (a : ndarray) (v : R) : result ndarray :=
  match a with
  | [] => Raise IndexError
  | _ => Ok (set_last a v)
  end.

(** ** standard_transforms.py *)

Definition circular_motion (x y theta : ndarray) (radius speed : R)
  : result (ndarray * ndarray) :=
  x_transformed <- np_add x (smul radius (np_cos (smul speed theta)));;
  y_transformed <- np_add y (smul radius (np_sin (smul speed theta)));;
  Ok (x_transformed, y_transformed).

Definition translate_scale_rotate_transform (x y theta : ndarray)
    (x_offset y_offset scale_x scale_y rotation_angle : R)
  : result (ndarray * ndarray) :=
  let x_transformed := muls x scale_x in
  let y_transformed := muls y scale_y in
  let rotation_radians := deg2rad rotation_angle in
  x_rotated <- np_sub (muls x_transformed (cos rotation_radians))
                      (muls y_transformed (sin rotation_radians));;
  y_rotated <- np_add (muls x_transformed (sin rotation_radians))
                      (muls y_transformed (cos rotation_radians));;
  let x_final := adds x_rotated x_offset in
  let y_final := adds y_rotated y_offset in
  Ok (x_final, y_final).

(** The rotation of every sample [(x, y)] by its own angle [phi]:
    [x * cos(phi) - y * sin(phi)], [x * sin(phi) + y * cos(phi)]. *)
Definition rotate_by (x y phi : ndarray) : result (ndarray * ndarray) :=
  xc <- np_mul x (np_cos phi);;
  ys <- np_mul y (np_sin phi);;
  x_transformed <- np_sub xc ys;;
  xs <- np_mul x (np_sin phi);;
  yc <- np_mul y (np_cos phi);;
  y_transformed <- np_add xs yc;;
  Ok (x_transformed, y_transformed).

Definition paper_rotation (x y theta : ndarray) (degrees : R)
  : result (ndarray * ndarray) :=
  let total_rotation_radians := deg2rad degrees in
  theta_max <- last_item theta;;
  let phi := muls (divs theta theta_max) total_rotation_radians in
  rotate_by x y phi.

Definition mystery_lines (x y theta : ndarray) (spiral_rate frequency : R)
  : result (ndarray * ndarray) :=
  let amplitude := spiral_rate in
  let r := sadd spiral_rate (smul amplitude (np_sin (smul frequency theta))) in
  rs <- np_mul r (np_sin theta);;
  x_transformed <- np_add x rs;;
  rs' <- np_mul r (np_sin theta);;
  y_transformed <- np_add y rs';;
  Ok (x_transformed, y_transformed).

Definition linear_translation_transform (x y theta : ndarray)
    (total_distance movement_angle_degrees : R) : result (ndarray * ndarray) :=
  let movement_angle := deg2rad movement_angle_degrees in
  theta_max <- last_item theta;;
  let p := divs theta theta_max in
  let delta_x := muls (muls p total_distance) (cos movement_angle) in
  let delta_y := muls (muls p total_distance) (sin movement_angle) in
  x_transformed <- np_add x delta_x;;
  y_transformed <- np_add y delta_y;;
  Ok (x_transformed, y_transformed).

(** The [rotation_rate_function] argument: a name, or a Python callable from
    the normalised theta array to an array. *)
Inductive rate_function : Type :=
| RateName (name : string)
| RateCallable (f : ndarray -> ndarray).

Definition paper_rotation_transform_non_linear (x y theta : ndarray)
    (degrees : R) (rotation_rate_function : rate_function)
  : result (ndarray * ndarray) :=
  let total_rotation_radians := deg2rad degrees in
  theta_max <- last_item theta;;
  let normalized_theta := divs theta theta_max in
  phi <-
    match rotation_rate_function with
    | RateName name =>
        if String.eqb name "linear" then
          Ok (muls normalized_theta total_rotation_radians)
        else if String.eqb name "quadratic" then
          Ok (muls (np_square normalized_theta) total_rotation_radians)
        else if String.eqb name "sinusoidal" then
          Ok (muls (np_sin (divs (muls normalized_theta PI) 2)) total_rotation_radians)
        else Raise ValueError
    | RateCallable f =>
        let phi_normalized := f normalized_theta in
        let phi_normalized := map (fun v => np_clip v 0 1) phi_normalized in
        Ok (muls phi_normalized total_rotation_radians)
    end;;
  rotate_by x y phi.

(** The path provider (an svgpathtools Path): total arclength [length()],
    arclength up to a native parameter [length(0, t)], and the point at a
    native parameter [point(t)], a complex number given by its real and
    imaginary parts. *)
Record svg_path : Type := {
  path_length : R;
  path_length_to : R -> R;
  path_point : R -> R * R
}.

(** [np.maximum.accumulate]: the running maximum. *)
Fixpoint maximum_accumulate_from (m : R) (a : ndarray) : ndarray :=
  match a with
  | [] => []
  | v :: a' => let m' := Rmax m v in m' :: maximum_accumulate_from m' a'
  end.

Definition maximum_accumulate (a : ndarray) : ndarray :=
  match a with
  | [] => []
  | v :: a' => v :: maximum_accumulate_from v a'
  end.

(** [np.interp] at one abscissa [v] over non-decreasing sample points [xp]
    with values [fp], after numpy's implementation: left of the first point
    the result
    is [fp[0]]; otherwise the search finds the index [j] with
    [xp[j] <= v < xp[j+1]], the last one whose sample point is not above [v]
    (the last index of all when [v] is not below [xp[-1]]); the result is
    [fp[j]] when [j] is the last index or [xp[j] == v], and
    [slope * (v - xp[j]) + fp[j]] otherwise. *)
Fixpoint interp_scan (v : R) (xp fp : ndarray) : R :=
  match xp, fp with
  | x0 :: ((x1 :: _) as xp'), f0 :: ((f1 :: _) as fp') =>
      if Rlt_dec v x1 then
        if Req_dec_T x0 v then f0
        else (f1 - f0) / (x1 - x0) * (v - x0) + f0
      else interp_scan v xp' fp'
  | _ :: _, f0 :: _ => f0
  | _, _ => 0
  end.

Definition interp_at (v : R) (xp fp : ndarray) : R :=
  match xp, fp with
  | x0 :: _, f0 :: _ => if Rlt_dec v x0 then f0 else interp_scan v xp fp
  | _, _ => 0
  end.

Definition np_interp (x xp fp : ndarray) : result ndarray :=
  match xp with
  | [] => Raise ValueError
  | _ => if Nat.eqb (length xp) (length fp)
         then Ok (map (fun v => interp_at v xp fp) x)
         else Raise ValueError
  end.

Definition num_samples : nat := 10000.

Definition svg_path_transform (x y theta : ndarray) (path : svg_path)
    (scale offset_x offset_y : R) : result (ndarray * ndarray) :=
  theta_max <- last_item theta;;
  let theta_normalized := divs theta theta_max in
  let total_length := path_length path in
  let distances := muls theta_normalized total_length in
  let t_vals := linspace 0 1 num_samples in
  let cumulative_lengths := map (path_length_to path) t_vals in
  let cumulative_lengths := maximum_accumulate cumulative_lengths in
  cumulative_lengths <- set_last_item cumulative_lengths total_length;;
  t_values <- np_interp distances cumulative_lengths t_vals;;
  let points := map (path_point path) t_values in
  let path_x := map fst points in
  let path_y := map snd points in
  let path_x := adds (muls path_x scale) offset_x in
  let path_y := adds (muls path_y scale) offset_y in
  Ok (path_x, path_y).

(** ** spirograph_transforms.py

    [R], [r], [d], [a], [b], [n] are the plain Python numbers bound in
    patterns.py, so [(R - r) / r] and the like are Python divisions. *)

Definition spirograph_transform (x y theta : ndarray) (R r d : R) (mode : string)
  : result (ndarray * ndarray) :=
  if String.eqb mode "hypotrochoid" then
    x0 <- np_add x (smul (R - r) (np_cos theta));;
    k <- py_div (R - r) r;;
    x_transformed <- np_add x0 (smul d (np_cos (smul k theta)));;
    y0 <- np_add y (smul (R - r) (np_sin theta));;
    k' <- py_div (R - r) r;;
    y_transformed <- np_sub y0 (smul d (np_sin (smul k' theta)));;
    Ok (x_transformed, y_transformed)
  else if String.eqb mode "epitrochoid" then
    x0 <- np_add x (smul (R + r) (np_cos theta));;
    k <- py_div (R + r) r;;
    x_transformed <- np_sub x0 (smul d (np_cos (smul k theta)));;
    y0 <- np_add y (smul (R + r) (np_sin theta));;
    k' <- py_div (R + r) r;;
    y_transformed <- np_sub y0 (smul d (np_sin (smul k' theta)));;
    Ok (x_transformed, y_transformed)
  else Raise ValueError.

Definition elliptical_spirograph_transform (x y theta : ndarray)
    (R r d a b : R) (mode : string) : result (ndarray * ndarray) :=
  if String.eqb mode "hypotrochoid" then
    x0 <- np_add x (smul (R - r) (np_cos theta));;
    ar <- py_div a r;;
    k <- py_div (R - r) r;;
    x_transformed <- np_add x0 (smul (d * ar) (np_cos (smul k theta)));;
    y0 <- np_add y (smul (R - r) (np_sin theta));;
    br <- py_div b r;;
    k' <- py_div (R - r) r;;
    y_transformed <- np_sub y0 (smul (d * br) (np_sin (smul k' theta)));;
    Ok (x_transformed, y_transformed)
  else if String.eqb mode "epitrochoid" then
    x0 <- np_add x (smul (R + r) (np_cos theta));;
    ar <- py_div a r;;
    k <- py_div (R + r) r;;
    x_transformed <- np_sub x0 (smul (d * ar) (np_cos (smul k theta)));;
    y0 <- np_add y (smul (R + r) (np_sin theta));;
    br <- py_div b r;;
    k' <- py_div (R + r) r;;
    y_transformed <- np_sub y0 (smul (d * br) (np_sin (smul k' theta)));;
    Ok (x_transformed, y_transformed)
  else Raise ValueError.

(** The circumradius [r] is computed before the mode is looked at; its
    [np.pi / n] is a Python division, the divisions by [1 + sin] and
    [1 - sin] are numpy's. *)
Definition polygon_spirograph_transform (x y theta : ndarray) (R n d : R)
    (mode : string) : result (ndarray * ndarray) :=
  r <- (if String.eqb mode "hypocyclogon" then
          a1 <- py_div PI n;;
          a2 <- py_div PI n;;
          Ok (R * (sin a1 / (1 + sin a2)))
        else
          a1 <- py_div PI n;;
          a2 <- py_div PI n;;
          Ok (R * (sin a1 / (1 - sin a2))));;
  if String.eqb mode "hypocyclogon" then
    let rotations := (R - r) / r in
    let psi := smul rotations theta in
    w <- py_div (2 * PI) n;;
    phi <- np_sub (divs (muls theta (R - r)) r) (muls psi w);;
    let xc := smul (R - r) (np_cos theta) in
    let yc := smul (R - r) (np_sin theta) in
    x0 <- np_add x xc;;
    x_transformed <- np_add x0 (smul d (np_cos phi));;
    y0 <- np_add y yc;;
    y_transformed <- np_add y0 (smul d (np_sin phi));;
    Ok (x_transformed, y_transformed)
  else if String.eqb mode "epicyclogon" then
    let rotations := (R + r) / r in
    let psi := smul rotations theta in
    w <- py_div (2 * PI) n;;
    phi <- np_sub (divs (muls theta (R + r)) r) (muls psi w);;
    let xc := smul (R + r) (np_cos theta) in
    let yc := smul (R + r) (np_sin theta) in
    x0 <- np_add x xc;;
    x_transformed <- np_add x0 (smul d (np_cos phi));;
    y0 <- np_add y yc;;
    y_transformed <- np_add y0 (smul d (np_sin phi));;
    Ok (x_transformed, y_transformed)
  else Raise ValueError.

(** *** Loops over [enumerate(theta)] with item assignment *)

Definition getitem (a : ndarray) (i : nat) : result R :=
  if (i <? length a)%nat then Ok a.[i] else Raise IndexError.

Fixpoint update (a : ndarray) (i : nat) (v : R) : ndarray :=
  match a, i with
  | [], _ => []
  | _ :: a', O => v :: a'
  | u :: a', S i' => u :: update a' i' v
  end.

Definition setitem (a : ndarray) (i : nat) (v : R) : result ndarray :=
  if (i <? length a)%nat then Ok (update a i v) else Raise IndexError.

Fixpoint enumerate_from {A : Type} (i : nat) (l : list A) : list (nat * A) :=
  match l with
  | [] => []
  | a :: l' => (i, a) :: enumerate_from (S i) l'
  end.

Definition enumerate {A : Type} (l : list A) : list (nat * A) := enumerate_from 0 l.

(** [for item in items: s = body(item, s)], stopping at the first exception. *)
Fixpoint for_each {A S : Type} (items : list A) (body : A -> S -> result S) (s : S)
  : result S :=
  match items with
  | [] => Ok s
  | item :: rest => s' <- body item s;; for_each rest body s'
  end.

(** [a // b] on numpy floats: the floor of [a / b]. *)
Definition floor_div (a b : R) : Z := Int_part (a / b).

(** Half the distance from a float64 [b > 0] to the float64 below it:
    [2^(e - 53)] for [2^e < b < 2^(e + 1)], and [2^(e - 54)] for
    [b = 2^e]. *)
Definition half_ulp (b : R) : R :=
  let e := Int_part (ln b / ln 2) in
  if Req_dec_T b (powerRZ 2 e) then powerRZ 2 (e - 54) else powerRZ 2 (e - 53).

(** [a % b] on numpy floats.  The remainder has the sign of the divisor.
    For [a >= 0] and [b > 0] it is [fmod(a, b)], which float64 computes
    exactly, and is below [b].  For [a < 0] and [b > 0] numpy returns
    [fmod(a, b) + b]; when [fmod(a, b)] is within half a unit in the last
    place of [b] that sum rounds to [b] itself (a tie is taken to round to
    [b]), so the remainder of a tiny negative [a] is the divisor [b].  This
    one effect of rounding is kept in
    the model because it decides which branch, and which index, the loops
    below take. *)
Definition np_mod (a b : R) : R :=
  let r := a - b * IZR (floor_div a b) in
  if Rlt_dec a 0 then
    if Rlt_dec 0 b then
      if Rle_dec (b - r) (half_ulp b) then b else r
    else r
  else r.

Definition spirograph_rectangle_body
    (rect_width rect_height gear_radius tracing_point_dist perimeter : R)
    (item : nat * R) (st : ndarray * ndarray) : result (ndarray * ndarray) :=
  let '(i, angle) := item in
  let '(x_transformed, y_transformed) := st in
  let distance_along_perimeter := np_mod (gear_radius * angle) perimeter in
  let '(gear_center_x, gear_center_y) :=
    if Rlt_dec distance_along_perimeter rect_width then
      (- rect_width / 2 + distance_along_perimeter, rect_height / 2)
    else if Rlt_dec distance_along_perimeter (rect_width + rect_height) then
      (rect_width / 2, rect_height / 2 - (distance_along_perimeter - rect_width))
    else if Rlt_dec distance_along_perimeter (2 * rect_width + rect_height) then
      (rect_width / 2 - (distance_along_perimeter - (rect_width + rect_height)),
       - rect_height / 2)
    else
      (- rect_width / 2,
       - rect_height / 2
       + (distance_along_perimeter - (2 * rect_width + rect_height))) in
  let gear_rotation := angle * (rect_width + rect_height) / gear_radius in
  xi <- getitem x_transformed i;;
  x_transformed <- setitem x_transformed i
                     (xi + (gear_center_x + tracing_point_dist * cos gear_rotation));;
  yi <- getitem y_transformed i;;
  y_transformed <- setitem y_transformed i
                     (yi + (gear_center_y + tracing_point_dist * sin gear_rotation));;
  Ok (x_transformed, y_transformed).

Definition spirograph_rectangle_transform (x y theta : ndarray)
    (rect_width rect_height gear_radius tracing_point_dist : R)
  : result (ndarray * ndarray) :=
  let x_transformed := x in
  let y_transformed := y in
  let perimeter := 2 * (rect_width + rect_height) in
  for_each (enumerate theta)
    (spirograph_rectangle_body rect_width rect_height gear_radius
       tracing_point_dist perimeter)
    (x_transformed, y_transformed).

(** ** spiral_transforms.py *)

Definition spiral_transform (x y theta : ndarray) (spiral_rate a b : R)
  : result (ndarray * ndarray) :=
  let r := sadd 1 (smul spiral_rate theta) in
  xr <- np_mul (smul a r) (np_cos theta);;
  x_transformed <- np_add x xr;;
  yr <- np_mul (smul b r) (np_sin theta);;
  y_transformed <- np_add y yr;;
  Ok (x_transformed, y_transformed).

Definition spiral_oscillator (x y theta : ndarray)
    (spiral_rate frequency const a b : R) : result (ndarray * ndarray) :=
  let amplitude := spiral_rate in
  let r := sadd spiral_rate (smul amplitude (np_sin (smul frequency theta))) in
  xr <- np_mul (smul a (adds r const)) (np_cos theta);;
  x_transformed <- np_add x xr;;
  yr <- np_mul (smul b (adds r const)) (np_sin theta);;
  y_transformed <- np_add y yr;;
  Ok (x_transformed, y_transformed).

(** [r = start_rate * theta + (delta_rate / (2 * theta_max)) * theta ** 2];
    [theta_max] is a numpy scalar, so the division is numpy's. *)
Definition radial_distance (theta : ndarray) (start_rate delta_rate theta_max : R)
  : result ndarray :=
  np_add (smul start_rate theta)
         (smul (delta_rate / (2 * theta_max)) (np_square theta)).

Definition variable_spiral_transform (x y theta : ndarray)
    (start_rate end_rate a b : R) : result (ndarray * ndarray) :=
  theta_max <- last_item theta;;
  let delta_rate := end_rate - start_rate in
  r <- radial_distance theta start_rate delta_rate theta_max;;
  xr <- np_mul (smul a r) (np_cos theta);;
  x_transformed <- np_add x xr;;
  yr <- np_mul (smul b r) (np_sin theta);;
  y_transformed <- np_add y yr;;
  Ok (x_transformed, y_transformed).

Definition variable_spiral_triangle_body (vertex1 vertex2 vertex3 : R * R)
    (r : ndarray) (item : nat * R) (st : ndarray * ndarray)
  : result (ndarray * ndarray) :=
  let '(i, angle) := item in
  let '(x_transformed, y_transformed) := st in
  let norm_angle := np_mod angle (2 * PI) in
  '(x_transformed, y_transformed) <-
    (if Rlt_dec norm_angle (2 * PI / 3) then
       let t := norm_angle / (2 * PI / 3) in
       x_transformed <- setitem x_transformed i
                          ((1 - t) * fst vertex1 + t * fst vertex2);;
       y_transformed <- setitem y_transformed i
                          ((1 - t) * snd vertex1 + t * snd vertex2);;
       Ok (x_transformed, y_transformed)
     else if Rlt_dec norm_angle (4 * PI / 3) then
       let t := (norm_angle - 2 * PI / 3) / (2 * PI / 3) in
       x_transformed <- setitem x_transformed i
                          ((1 - t) * fst vertex2 + t * fst vertex3);;
       y_transformed <- setitem y_transformed i
                          ((1 - t) * snd vertex2 + t * snd vertex3);;
       Ok (x_transformed, y_transformed)
     else
       let t := (norm_angle - 4 * PI / 3) / (2 * PI / 3) in
       x_transformed <- setitem x_transformed i
                          ((1 - t) * fst vertex3 + t * fst vertex1);;
       y_transformed <- setitem y_transformed i
                          ((1 - t) * snd vertex3 + t * snd vertex1);;
       Ok (x_transformed, y_transformed));;
  ri <- getitem r i;;
  xi <- getitem x_transformed i;;
  x_transformed <- setitem x_transformed i (ri * xi);;
  ri' <- getitem r i;;
  yi <- getitem y_transformed i;;
  y_transformed <- setitem y_transformed i (ri' * yi);;
  Ok (x_transformed, y_transformed).

Definition variable_spiral_triangle_transform (x y theta : ndarray)
    (start_rate end_rate side1 side2 side3 : R) : result (ndarray * ndarray) :=
  let vertex1 := (0, 1) in
  let vertex2 := (- side1 * sqrt 3 / 2, - 0.5 * side1) in
  let vertex3 := (side3 * sqrt 3 / 2, - 0.5 * side3) in
  theta_max <- last_item theta;;
  let delta_rate := end_rate - start_rate in
  r <- radial_distance theta start_rate delta_rate theta_max;;
  let x_transformed := zeros_like x in
  let y_transformed := zeros_like y in
  for_each (enumerate theta)
    (variable_spiral_triangle_body vertex1 vertex2 vertex3 r)
    (x_transformed, y_transformed).

(** Indexing of a Python list or a numpy array by a Python int: a negative
    index counts from the end. *)
Definition getitem_int {A : Type} (l : list A) (i : Z) : result A :=
  let n := Z.of_nat (length l) in
  let j := if (i <? 0)%Z then (i + n)%Z else i in
  if ((0 <=? j)%Z && (j <? n)%Z)%bool
  then match nth_error l (Z.to_nat j) with
       | Some a => Ok a
       | None => Raise IndexError
       end
  else Raise IndexError.

(** The state of the vertex loop: [current_vertex], [current_angle] and the
    [vertices] appended so far. *)
Definition ngon_vertex_body (side_lengths : list R) (n : nat) (i : nat)
    (st : (R * R) * R * list (R * R)) : result ((R * R) * R * list (R * R)) :=
  let '(current_vertex, current_angle, vertices) := st in
  side_a <- getitem_int side_lengths (Z.of_nat i - 1);;
  side_b <- getitem_int side_lengths (Z.of_nat i);;
  side_c <- getitem_int side_lengths ((Z.of_nat i + 1) mod Z.of_nat n);;
  cos_angle <- py_div (side_a ^ 2 + side_b ^ 2 - side_c ^ 2) (2 * side_a * side_b);;
  let internal_angle := acos (np_clip cos_angle (-1) 1) in
  let current_angle := current_angle - internal_angle in
  let next_vertex := (fst current_vertex + side_b * cos current_angle,
                      snd current_vertex + side_b * sin current_angle) in
  Ok (next_vertex, current_angle, vertices ++ [next_vertex]).

Definition ngon_vertices (side_lengths : list R) : result (list (R * R)) :=
  let n := length side_lengths in
  let current_vertex := (0, 1) in
  let vertices := [current_vertex] in
  let current_angle := PI / 2 in
  '(_, _, vertices) <-
    for_each (seq 1 (n - 1)) (ngon_vertex_body side_lengths n)
      (current_vertex, current_angle, vertices);;
  Ok vertices.

Definition ngon_sample_body (n : nat) (vertices : list (R * R)) (r : ndarray)
    (item : nat * R) (st : ndarray * ndarray) : result (ndarray * ndarray) :=
  let '(i, angle) := item in
  let '(x_transformed, y_transformed) := st in
  let norm_angle := np_mod angle (2 * PI) in
  segment_angle <- py_div (2 * PI) (INR n);;
  let side_index := floor_div norm_angle segment_angle in
  let t := np_mod norm_angle segment_angle / segment_angle in
  vertex_start <- getitem_int vertices side_index;;
  vertex_end <- getitem_int vertices ((side_index + 1) mod Z.of_nat n);;
  x_transformed <- setitem x_transformed i
                     ((1 - t) * fst vertex_start + t * fst vertex_end);;
  y_transformed <- setitem y_transformed i
                     ((1 - t) * snd vertex_start + t * snd vertex_end);;
  xi <- getitem x_transformed i;;
  ri <- getitem r i;;
  x_transformed <- setitem x_transformed i (xi * ri);;
  yi <- getitem y_transformed i;;
  ri' <- getitem r i;;
  y_transformed <- setitem y_transformed i (yi * ri');;
  Ok (x_transformed, y_transformed).

Definition variable_spiral_regular_ngon_transform (x y theta : ndarray)
    (start_rate end_rate : R) (side_lengths : list R)
  : result (ndarray * ndarray) :=
  let n := length side_lengths in
  theta_max <- last_item theta;;
  let delta_rate := end_rate - start_rate in
  r <- radial_distance theta start_rate delta_rate theta_max;;
  vertices <- ngon_vertices side_lengths;;
  let x_transformed := zeros_like x in
  let y_transformed := zeros_like y in
  for_each (enumerate theta) (ngon_sample_body n vertices r)
    (x_transformed, y_transformed).

(** The same body as [variable_spiral_regular_ngon_transform], after a
    printed warning that the vertex construction is not reliable; the print
    has no effect on the result. *)
Definition variable_spiral_ngon_transform (x y theta : ndarray)
    (start_rate end_rate : R) (side_lengths : list R)
  : result (ndarray * ndarray) :=
  let n := length side_lengths in
  theta_max <- last_item theta;;
  let delta_rate := end_rate - start_rate in
  r <- radial_distance theta start_rate delta_rate theta_max;;
  vertices <- ngon_vertices side_lengths;;
  let x_transformed := zeros_like x in
  let y_transformed := zeros_like y in
  for_each (enumerate theta) (ngon_sample_body n vertices r)
    (x_transformed, y_transformed).

(** ** patterns.py: bound transforms

    [transform(transform_func, *args, **kwargs)] binds the parameters of a
    transform function and leaves [(x, y, theta)] open.  The closure is
    represented by its function and its bound parameters. *)

Inductive transform : Type :=
| CircularMotion (radius speed : R)
| TranslateScaleRotate (x_offset y_offset scale_x scale_y rotation_angle : R)
| PaperRotation (degrees : R)
| MysteryLines (spiral_rate frequency : R)
| LinearTranslation (total_distance movement_angle_degrees : R)
| PaperRotationNonLinear (degrees : R) (rotation_rate_function : rate_function)
| SvgPath (path : svg_path) (scale offset_x offset_y : R)
| Spirograph (R r d : R) (mode : string)
| EllipticalSpirograph (R r d a b : R) (mode : string)
| PolygonSpirograph (R n d : R) (mode : string)
| SpirographRectangle (rect_width rect_height gear_radius tracing_point_dist : R)
| Spiral (spiral_rate a b : R)
| SpiralOscillator (spiral_rate frequency const a b : R)
| VariableSpiral (start_rate end_rate a b : R)
| VariableSpiralTriangle (start_rate end_rate side1 side2 side3 : R)
| VariableSpiralRegularNgon (start_rate end_rate : R) (side_lengths : list R)
| VariableSpiralNgon (start_rate end_rate : R) (side_lengths : list R).

(** Calling the closure: [transform_func(x, y, theta)]. *)
Definition apply_transform (t : transform) (x y theta : ndarray)
  : result (ndarray * ndarray) :=
  match t with
  | CircularMotion radius speed => circular_motion x y theta radius speed
  | TranslateScaleRotate xo yo sx sy ra =>
      translate_scale_rotate_transform x y theta xo yo sx sy ra
  | PaperRotation degrees => paper_rotation x y theta degrees
  | MysteryLines spiral_rate frequency => mystery_lines x y theta spiral_rate frequency
  | LinearTranslation dist ang => linear_translation_transform x y theta dist ang
  | PaperRotationNonLinear degrees f =>
      paper_rotation_transform_non_linear x y theta degrees f
  | SvgPath path scale ox oy => svg_path_transform x y theta path scale ox oy
  | Spirograph R r d mode => spirograph_transform x y theta R r d mode
  | EllipticalSpirograph R r d a b mode =>
      elliptical_spirograph_transform x y theta R r d a b mode
  | PolygonSpirograph R n d mode => polygon_spirograph_transform x y theta R n d mode
  | SpirographRectangle w h g tp => spirograph_rectangle_transform x y theta w h g tp
  | Spiral rate a b => spiral_transform x y theta rate a b
  | SpiralOscillator rate freq const a b => spiral_oscillator x y theta rate freq const a b
  | VariableSpiral s e a b => variable_spiral_transform x y theta s e a b
  | VariableSpiralTriangle s e s1 s2 s3 =>
      variable_spiral_triangle_transform x y theta s e s1 s2 s3
  | VariableSpiralRegularNgon s e sides =>
      variable_spiral_regular_ngon_transform x y theta s e sides
  | VariableSpiralNgon s e sides => variable_spiral_ngon_transform x y theta s e sides
  end.

(** ** main.py: draw_pattern *)

(** The optional ['translations'] dictionary; an absent key is [None]. *)
Record translations : Type := {
  x_offset : option R;
  y_offset : option R;
  scale_x : option R;
  scale_y : option R;
  rotation_angle : option R
}.

Definition no_translations : translations :=
  {| x_offset := None; y_offset := None; scale_x := None; scale_y := None;
     rotation_angle := None |}.

(** [d.get(key, default)] *)
Definition get (v : option R) (default : R) : R :=
  match v with Some a => a | None => default end.

Record pattern : Type := {
  transforms : list transform;
  rotations : R
}.

Record meta : Type := {
  meta_pattern : pattern;
  meta_translations : option translations
}.

(** The body of the loop of [draw_pattern] for one entry of
    [patterns_meta], up to the polyline handed to [plt.plot]. *)
Definition pattern_polyline (m : meta) : result (ndarray * ndarray) :=
  let pattern := meta_pattern m in
  let translations :=
    match meta_translations m with Some t => t | None => no_translations end in
  let x_offset := get (x_offset translations) 0 in
  let y_offset := get (y_offset translations) 0 in
  let scale_x := get (scale_x translations) 1 in
  let scale_y := get (scale_y translations) 1 in
  let rotation_angle := get (rotation_angle translations) 0 in
  let theta := theta_sequence (rotations pattern) in
  let x := zeros_like theta in
  let y := zeros_like theta in
  '(x, y) <- for_each (transforms pattern)
               (fun transform_func '(x, y) => apply_transform transform_func x y theta)
               (x, y);;
  translate_scale_rotate_transform x y theta
    x_offset y_offset scale_x scale_y rotation_angle.

(** The polylines plotted by [draw_pattern], in order; an exception in one
    pattern ends the whole call. *)
Definition draw_pattern (patterns_meta : list meta)
  : result (list (ndarray * ndarray)) :=
  for_each patterns_meta
    (fun m plotted => xy <- pattern_polyline m;; Ok (plotted ++ [xy]))
    [].

(** ** The transforms at one sample

    The formula of each transform for the output at one index, as a function
    of the inputs at that index, [theta[-1]] and the bound parameters
    (the table of the specification, section 4.3). *)

Definition rotate_sample (phi xi yi : R) : R * R :=
  (xi * cos phi - yi * sin phi, xi * sin phi + yi * cos phi).

Definition rate_sample (f : rate_function) (p : R) : R :=
  match f with
  | RateName name =>
      if String.eqb name "linear" then p
      else if String.eqb name "quadratic" then p ^ 2
      else sin (p * PI / 2)
  | RateCallable g => np_clip (hd 0 (g [p])) 0 1
  end.

Definition radial_sample (start_rate end_rate theta_max ti : R) : R :=
  start_rate * ti + (end_rate - start_rate) / (2 * theta_max) * ti ^ 2.

(** The arclength table of [svg_path_transform]. *)
Definition svg_table (path : svg_path) : ndarray :=
  set_last (maximum_accumulate (map (path_length_to path) (linspace 0 1 num_samples)))
           (path_length path).

Definition svg_sample (path : svg_path) (scale offset_x offset_y theta_max ti : R)
  : R * R :=
  let distance := ti / theta_max * path_length path in
  let t := interp_at distance (svg_table path) (linspace 0 1 num_samples) in
  (fst (path_point path t) * scale + offset_x,
   snd (path_point path t) * scale + offset_y).

Definition rectangle_sample (rect_width rect_height gear_radius tracing_point_dist : R)
    (xi yi angle : R) : R * R :=
  let perimeter := 2 * (rect_width + rect_height) in
  let distance_along_perimeter := np_mod (gear_radius * angle) perimeter in
  let gear_center :=
    if Rlt_dec distance_along_perimeter rect_width then
      (- rect_width / 2 + distance_along_perimeter, rect_height / 2)
    else if Rlt_dec distance_along_perimeter (rect_width + rect_height) then
      (rect_width / 2, rect_height / 2 - (distance_along_perimeter - rect_width))
    else if Rlt_dec distance_along_perimeter (2 * rect_width + rect_height) then
      (rect_width / 2 - (distance_along_perimeter - (rect_width + rect_height)),
       - rect_height / 2)
    else
      (- rect_width / 2,
       - rect_height / 2
       + (distance_along_perimeter - (2 * rect_width + rect_height))) in
  let gear_rotation := angle * (rect_width + rect_height) / gear_radius in
  (xi + (fst gear_center + tracing_point_dist * cos gear_rotation),
   yi + (snd gear_center + tracing_point_dist * sin gear_rotation)).

(** The point of the edge from [p] to [q] at fraction [t]. *)
Definition edge_point (p q : R * R) (t : R) : R * R :=
  ((1 - t) * fst p + t * fst q, (1 - t) * snd p + t * snd q).

Definition triangle_sample (side1 side3 ri angle : R) : R * R :=
  let vertex1 := (0, 1) in
  let vertex2 := (- side1 * sqrt 3 / 2, - 0.5 * side1) in
  let vertex3 := (side3 * sqrt 3 / 2, - 0.5 * side3) in
  let norm_angle := np_mod angle (2 * PI) in
  let p :=
    if Rlt_dec norm_angle (2 * PI / 3) then
      edge_point vertex1 vertex2 (norm_angle / (2 * PI / 3))
    else if Rlt_dec norm_angle (4 * PI / 3) then
      edge_point vertex2 vertex3 ((norm_angle - 2 * PI / 3) / (2 * PI / 3))
    else
      edge_point vertex3 vertex1 ((norm_angle - 4 * PI / 3) / (2 * PI / 3)) in
  (ri * fst p, ri * snd p).

Definition ngon_sample (side_lengths : list R) (ri angle : R) : R * R :=
  let n := length side_lengths in
  let vertices :=
    match ngon_vertices side_lengths with Ok vs => vs | Raise _ => [] end in
  let norm_angle := np_mod angle (2 * PI) in
  let segment_angle := 2 * PI / INR n in
  let side_index := floor_div norm_angle segment_angle in
  let t := np_mod norm_angle segment_angle / segment_angle in
  let vertex_start := nth (Z.to_nat side_index) vertices (0, 0) in
  let vertex_end :=
    nth (Z.to_nat ((side_index + 1) mod Z.of_nat n)) vertices (0, 0) in
  let p := edge_point vertex_start vertex_end t in
  (fst p * ri, snd p * ri).

Definition sample_point (t : transform) (theta_max xi yi ti : R) : R * R :=
  match t with
  | CircularMotion radius speed =>
      (xi + radius * cos (speed * ti), yi + radius * sin (speed * ti))
  | TranslateScaleRotate xo yo sx sy ra =>
      let '(xr, yr) := rotate_sample (deg2rad ra) (xi * sx) (yi * sy) in
      (xr + xo, yr + yo)
  | PaperRotation degrees =>
      rotate_sample (ti / theta_max * deg2rad degrees) xi yi
  | MysteryLines spiral_rate frequency =>
      let r := spiral_rate + spiral_rate * sin (frequency * ti) in
      (xi + r * sin ti, yi + r * sin ti)
  | LinearTranslation dist ang =>
      let p := ti / theta_max in
      (xi + p * dist * cos (deg2rad ang), yi + p * dist * sin (deg2rad ang))
  | PaperRotationNonLinear degrees f =>
      rotate_sample (rate_sample f (ti / theta_max) * deg2rad degrees) xi yi
  | SvgPath path scale ox oy => svg_sample path scale ox oy theta_max ti
  | Spirograph R r d mode =>
      if String.eqb mode "hypotrochoid" then
        (xi + (R - r) * cos ti + d * cos ((R - r) / r * ti),
         yi + (R - r) * sin ti - d * sin ((R - r) / r * ti))
      else
        (xi + (R + r) * cos ti - d * cos ((R + r) / r * ti),
         yi + (R + r) * sin ti - d * sin ((R + r) / r * ti))
  | EllipticalSpirograph R r d a b mode =>
      if String.eqb mode "hypotrochoid" then
        (xi + (R - r) * cos ti + d * (a / r) * cos ((R - r) / r * ti),
         yi + (R - r) * sin ti - d * (b / r) * sin ((R - r) / r * ti))
      else
        (xi + (R + r) * cos ti - d * (a / r) * cos ((R + r) / r * ti),
         yi + (R + r) * sin ti - d * (b / r) * sin ((R + r) / r * ti))
  | PolygonSpirograph R n d mode =>
      let s := sin (PI / n) in
      if String.eqb mode "hypocyclogon" then
        let r := R * (s / (1 + s)) in
        let phi := ti * (R - r) / r - (R - r) / r * ti * (2 * PI / n) in
        (xi + (R - r) * cos ti + d * cos phi, yi + (R - r) * sin ti + d * sin phi)
      else
        let r := R * (s / (1 - s)) in
        let phi := ti * (R + r) / r - (R + r) / r * ti * (2 * PI / n) in
        (xi + (R + r) * cos ti + d * cos phi, yi + (R + r) * sin ti + d * sin phi)
  | SpirographRectangle w h g tp => rectangle_sample w h g tp xi yi ti
  | Spiral rate a b =>
      let r := 1 + rate * ti in
      (xi + a * r * cos ti, yi + b * r * sin ti)
  | SpiralOscillator rate freq const a b =>
      let r := rate + rate * sin (freq * ti) in
      (xi + a * (r + const) * cos ti, yi + b * (r + const) * sin ti)
  | VariableSpiral s e a b =>
      let r := radial_sample s e theta_max ti in
      (xi + a * r * cos ti, yi + b * r * sin ti)
  | VariableSpiralTriangle s e side1 _ side3 =>
      triangle_sample side1 side3 (radial_sample s e theta_max ti) ti
  | VariableSpiralRegularNgon s e sides =>
      ngon_sample sides (radial_sample s e theta_max ti) ti
  | VariableSpiralNgon s e sides =>
      ngon_sample sides (radial_sample s e theta_max ti) ti
  end.

(** The bound parameters with which a transform goes through: a recognised
    mode or rate-function name, an element-wise callable, and no Python
    division by zero. *)
Definition valid_params (t : transform) : Prop :=
  match t with
  | PaperRotationNonLinear _ (RateName name) =>
      name = "linear"%string \/ name = "quadratic"%string \/ name = "sinusoidal"%string
  | PaperRotationNonLinear _ (RateCallable g) =>
      forall a : ndarray, g a = map (fun v => hd 0 (g [v])) a
  | Spirograph _ r _ mode | EllipticalSpirograph _ r _ _ _ mode =>
      (mode = "hypotrochoid"%string \/ mode = "epitrochoid"%string) /\ r <> 0
  | PolygonSpirograph _ n _ mode =>
      (mode = "hypocyclogon"%string \/ mode = "epicyclogon"%string) /\ n <> 0
  | VariableSpiralRegularNgon _ _ sides | VariableSpiralNgon _ _ sides =>
      sides <> [] /\ Forall (fun s => s <> 0) sides
  | _ => True
  end.

(** Output [out] has the length of the inputs and its element at every
    index is [g] of the inputs at that index. *)
Definition aligned (N : nat) (x y theta out : ndarray) (g : R -> R -> R -> R) : Prop :=
  length out = N /\
  forall i : nat, (i < N)%nat -> out.[i] = g x.[i] y.[i] theta.[i].

Definition strictly_increasing (a : ndarray) : Prop :=
  forall i j : nat, (i < j)%nat -> (j < length a)%nat -> a.[i] < a.[j].

Definition evenly_spaced (a : ndarray) (step : R) : Prop :=
  forall i : nat, (S i < length a)%nat -> a.[S i] - a.[i] = step.

(** The angles on which a transform's loop stays inside its tables: the
    n-gon spirals index [vertices] by [(angle % 2 pi) // segment_angle], which
    is below [n] for a non-negative angle; the remainder of a negative angle
    can be [2 pi] itself, and the index [n]. *)
Definition valid_theta (t : transform) (theta : ndarray) : Prop :=
  match t with
  | VariableSpiralRegularNgon _ _ _ | VariableSpiralNgon _ _ _ =>
      Forall (fun a => 0 <= a) theta
  | _ => True
  end.

(** A transform goes through on inputs of one length [N >= 1], and its outputs
    are aligned with the inputs by its sample formula. *)
Definition transform_ok (t : transform) : Prop :=
  forall (x y theta : ndarray) (N : nat),
    valid_params t -> valid_theta t theta ->
    length x = N -> length y = N -> length theta = N -> (1 <= N)%nat ->
    exists x' y' : ndarray,
      apply_transform t x y theta = Ok (x', y') /\
      aligned N x y theta x' (fun xi yi ti => fst (sample_point t (last theta 0) xi yi ti)) /\
      aligned N x y theta y' (fun xi yi ti => snd (sample_point t (last theta 0) xi yi ti)).

(** Index [j] is one of the [n] indices written by a loop that starts at [k]. *)
Definition touched (k n j : nat) : bool := ((k <=? j)%nat && (j <? k + n)%nat)%bool.

(** The transforms that normalise theta by its last element [theta[-1]]. *)
Definition divides_by_theta_max (t : transform) : bool :=
  match t with
  | PaperRotation _ | LinearTranslation _ _ | PaperRotationNonLinear _ _
  | SvgPath _ _ _ _ | VariableSpiral _ _ _ _ | VariableSpiralTriangle _ _ _ _ _
  | VariableSpiralRegularNgon _ _ _ | VariableSpiralNgon _ _ _ => true
  | _ => false
  end.

(** ** Further notions used by the properties below *)

(** The transforms that add a displacement to the incoming coordinates. *)
Definition additive (t : transform) : bool :=
  match t with
  | CircularMotion _ _ | MysteryLines _ _ | LinearTranslation _ _
  | Spirograph _ _ _ _ | EllipticalSpirograph _ _ _ _ _ _
  | PolygonSpirograph _ _ _ _ | SpirographRectangle _ _ _ _
  | Spiral _ _ _ | SpiralOscillator _ _ _ _ _ | VariableSpiral _ _ _ _ => true
  | _ => false
  end.

(** The chain loop of [draw_pattern]:
    [for transform_func in transforms: x, y = transform_func(x, y, theta)]. *)
Definition run_chain (chain : list transform) (theta x y : ndarray)
  : result (ndarray * ndarray) :=
  for_each chain
    (fun transform_func '(x, y) => apply_transform transform_func x y theta)
    (x, y).

(** The point [(cx, cy)] lies on the boundary of the rectangle of the given
    width and height centred at the origin. *)
Definition on_rectangle (width height cx cy : R) : Prop :=
  (Rabs cx = width / 2 /\ Rabs cy <= height / 2) \/
  (Rabs cy = height / 2 /\ Rabs cx <= width / 2).

(** The vertices of [variable_spiral_triangle_transform]. *)
Definition triangle_vertex1 : R * R := (0, 1).
Definition triangle_vertex2 (side1 : R) : R * R :=
  (- side1 * sqrt 3 / 2, - 0.5 * side1).
Definition triangle_vertex3 (side3 : R) : R * R :=
  (side3 * sqrt 3 / 2, - 0.5 * side3).

(** The squared distance of two points. *)
Definition dist2 (p q : R * R) : R :=
  (fst q - fst p) ^ 2 + (snd q - snd p) ^ 2.

(** A sample path provider: the segment from (0, 0) to (1, 0), traversed at
    unit speed. *)
Definition unit_segment : svg_path :=
  {| path_length := 1;
     path_length_to := fun t => t;
     path_point := fun t => (t, 0) |}.

(** The transforms whose only use of theta is the progress
    [theta / theta[-1]]. *)
Definition progress_only (t : transform) : bool :=
  match t with
  | PaperRotation _ | LinearTranslation _ _ | PaperRotationNonLinear _ _
  | SvgPath _ _ _ _ => true
  | _ => false
  end.

(** ** patterns.py: the preset registry

    [svg2paths] stands for svgpathtools' parser: the paths it finds in the
    file of the given name. *)

Definition load_svg_path (svg2paths : string -> list svg_path) (svg_filename : string)
  : result svg_path :=
  let paths := svg2paths svg_filename in
  match paths with
  | [] => Raise ValueError
  | svg_path :: _ => Ok svg_path
  end.

Definition create_croissant_pattern : pattern :=
  {| transforms := [ SpiralOscillator 390 0.00212 0 1 1;
                     CircularMotion 1050 0.0016;
                     PaperRotation 200 ];
     rotations := 235 |}.

Definition create_tube_pattern : pattern :=
  {| transforms := [ MysteryLines 390 0.00312;
                     CircularMotion 950 0.0046 ];
     rotations := 200 |}.

Definition create_simple_pent_transform_pattern : pattern :=
  {| transforms := [ Spirograph 500 200 500 "hypotrochoid";
                     Spiral 0.9 1 1;
                     CircularMotion 100 0.01;
                     PaperRotation 30 ];
     rotations := 60 |}.

Definition meta_spiral : pattern :=
  {| transforms := [ VariableSpiral 0.01 1.1 1 1;
                     CircularMotion 950 0.006 ];
     rotations := 200 |}.

Definition create_transform_set_2 (svg2paths : string -> list svg_path)
  : result pattern :=
  path <- load_svg_path svg2paths "single_vector.svg";;
  Ok {| transforms := [ SvgPath path 1 0 0;
                        Spirograph 500 200 500 "hypotrochoid";
                        CircularMotion 100 0.001;
                        LinearTranslation 400 45;
                        PaperRotationNonLinear 70 (RateName "quadratic") ];
        rotations := 130 |}.

Definition create_triangle_test_pattern : pattern :=
  {| transforms := [ VariableSpiralTriangle 0.9 0.01 1 3 3;
                     LinearTranslation 4000 45;
                     PaperRotation 70;
                     CircularMotion 100 0.015 ];
     rotations := 230 |}.

Definition create_classic_spirograph_pattern : pattern :=
  {| transforms := [ Spirograph 600 171 400 "hypotrochoid" ];
     rotations := 30 |}.

Definition create_rectangle_spirograph_pattern : pattern :=
  {| transforms := [ SpirographRectangle 30 30 15 10;
                     PaperRotation 70;
                     LinearTranslation 3000 45;
                     Spiral 0.1 1 1 ];
     rotations := 120 |}.

Definition create_n_gon_test_pattern : pattern :=
  {| transforms := [ VariableSpiralNgon 0.9 0.01 [1; 3; 3; 3; 3];
                     LinearTranslation 4000 45;
                     PaperRotation 70;
                     CircularMotion 100 0.015 ];
     rotations := 230 |}.

Definition create_scramble_pattern (svg2paths : string -> list svg_path)
  : result pattern :=
  path <- load_svg_path svg2paths "single_vector.svg";;
  Ok {| transforms := [ SvgPath path 1 0 0;
                        Spirograph 500 200 500 "hypotrochoid";
                        CircularMotion 100 0.001;
                        LinearTranslation 400 45;
                        PaperRotationNonLinear 70 (RateName "quadratic") ];
        rotations := 130 |}.

Definition create_x_ray_shell_pattern : pattern :=
  {| transforms := [ Spirograph 500 200 500 "hypotrochoid";
                     VariableSpiral 0.01 0.9 1 1;
                     CircularMotion 100 0.001;
                     SpiralOscillator 30 0.035 0 1 1;
                     LinearTranslation 700 45;
                     PaperRotationNonLinear 90 (RateName "quadratic") ];
     rotations := 250 |}.

Definition create_banana_pattern : pattern :=
  {| transforms := [ SpiralOscillator 390 0.00212 (-300) 1 1;
                     CircularMotion 3050 0.0016 ];
     rotations := 230 |}.

Definition create_simple_snail_pattern : pattern :=
  {| transforms := [ VariableSpiral 0.01 1.1 1 1;
                     CircularMotion 950 0.006 ];
     rotations := 200 |}.

Definition create_another_simple_snail_pattern : pattern :=
  {| transforms := [ SpiralOscillator 390 0.00312 0 1 1;
                     CircularMotion 950 0.0046 ];
     rotations := 200 |}.

Definition create_sparse_shell_pattern : pattern :=
  {| transforms := [ Spiral 0.9 1 1;
                     LinearTranslation 690 45;
                     Spirograph 500 200 500 "hypotrochoid";
                     CircularMotion 100 0.01;
                     PaperRotationNonLinear 60 (RateName "quadratic") ];
     rotations := 50 |}.

(** [Patterns.__init__]: the dictionary [self.patterns], its entries built
    in the order of the dictionary display. *)
Definition Patterns (svg2paths : string -> list svg_path)
  : result (list (string * pattern)) :=
  transform_set_2 <- create_transform_set_2 svg2paths;;
  scramble <- create_scramble_pattern svg2paths;;
  Ok [ ("croissant", create_croissant_pattern);
       ("tube", create_tube_pattern);
       ("simple_pent_transform", create_simple_pent_transform_pattern);
       ("meta_spiral", meta_spiral);
       ("transform_set_2", transform_set_2);
       ("triangle_test", create_triangle_test_pattern);
       ("classic_spirograph", create_classic_spirograph_pattern);
       ("rectangle_spirograph", create_rectangle_spirograph_pattern);
       ("n_gon_test", create_n_gon_test_pattern);
       ("scramble", scramble);
       ("x_ray_shell", create_x_ray_shell_pattern);
       ("banana", create_banana_pattern);
       ("another_simple_shell", create_another_simple_snail_pattern);
       ("create_simple_snail_pattern", create_simple_snail_pattern);
       ("create_sparse_shell_pattern", create_sparse_shell_pattern) ]%string.

(** [self.patterns.get(name)]: [None] for a name that is not registered. *)
Fixpoint get_pattern (patterns : list (string * pattern)) (name : string)
  : option pattern :=
  match patterns with
  | [] => None
  | (key, p) :: rest => if String.eqb name key then Some p else get_pattern rest name
  end.

(** ** main.py: generate_pattern

    What a run of [generate_pattern] ends in: the polylines plotted, an
    exception of the registry or of a transform, or the TypeError of
    subscripting the [None] that [get_pattern] gives for an unregistered
    name. *)
Inductive outcome : Type :=
| Plotted (polylines : list (ndarray * ndarray))
| Failed (e : exn)
| FailedTypeError.

(** [draw_pattern] on the entries that [generate_pattern] builds, where the
    'pattern' of an entry is what [get_pattern] returned: reaching an entry
    whose pattern is [None] raises TypeError at [pattern['transforms']]. *)
Fixpoint draw_entries (entries : list (option pattern * option translations))
    (plotted : list (ndarray * ndarray)) : outcome :=
  match entries with
  | [] => Plotted plotted
  | (None, _) :: _ => FailedTypeError
  | (Some p, tr) :: rest =>
      match pattern_polyline {| meta_pattern := p; meta_translations := tr |} with
      | Ok xy => draw_entries rest (plotted ++ [xy])
      | Raise e => Failed e
      end
  end.

Definition generate_pattern (svg2paths : string -> list svg_path) : outcome :=
  match Patterns svg2paths with
  | Raise e => Failed e
  | Ok patterns =>
      let patterns_meta :=
        [ (get_pattern patterns "banana",
           Some {| x_offset := Some 1000; y_offset := Some 0;
                   scale_x := Some 1.2; scale_y := Some 1.2;
                   rotation_angle := Some 15 |});
          (get_pattern patterns "triangle_test", None);
          (get_pattern patterns "meta_spiral",
           Some {| x_offset := Some 2900; y_offset := None;
                   scale_x := None; scale_y := None;
                   rotation_angle := None |});
          (get_pattern patterns "x_ray_shell",
           Some {| x_offset := Some (-4900); y_offset := None;
                   scale_x := Some 3; scale_y := Some 3;
                   rotation_angle := None |}) ] in
      draw_entries patterns_meta []
  end.

(** ** Facts on arrays *)

Lemma zip_with_length (f : R -> R -> R) (a b : ndarray) :
  length a = length b -> length (zip_with f a b) = length a.
Proof.
  revert b; induction a as [|u a IH]; intros [|v b] H; simpl in *; try congruence.
  f_equal; apply IH; congruence.
Qed.

Lemma zip_with_nth (f : R -> R -> R) (a b : ndarray) (i : nat) :
  length a = length b -> (i < length a)%nat ->
  (zip_with f a b).[i] = f a.[i] b.[i].
Proof.
  revert b i; induction a as [|u a IH]; intros [|v b] i H Hi; simpl in *;
    try congruence; try lia.
  destruct i as [|i]; [reflexivity|].
  apply IH; [congruence | lia].
Qed.

Lemma map_nth_lt (f : R -> R) (a : ndarray) (i : nat) :
  (i < length a)%nat -> (map f a).[i] = f a.[i].
Proof.
  revert i; induction a as [|u a IH]; intros i Hi; simpl in *; [lia|].
  destruct i as [|i]; [reflexivity|]. apply IH; lia.
Qed.

Lemma broadcast_same (f : R -> R -> R) (a b : ndarray) :
  length a = length b -> broadcast f a b = Ok (zip_with f a b).
Proof.
  intros H. unfold broadcast. rewrite H, Nat.eqb_refl. reflexivity.
Qed.

Lemma removelast_length (a : ndarray) :
  length (removelast a) = (length a - 1)%nat.
Proof.
  induction a as [|u a IH]; [reflexivity|].
  destruct a as [|v a]; [reflexivity|].
  change (removelast (u :: v :: a)) with (u :: removelast (v :: a)).
  simpl length in *. rewrite IH. lia.
Qed.

Lemma removelast_nth (a : ndarray) (i : nat) :
  (S i < length a)%nat -> (removelast a).[i] = a.[i].
Proof.
  revert i; induction a as [|u a IH]; intros i Hi; simpl in Hi; [lia|].
  destruct a as [|v a]; [simpl in Hi; lia|].
  change (removelast (u :: v :: a)) with (u :: removelast (v :: a)).
  destruct i as [|i]; [reflexivity|].
  simpl nth. apply IH. simpl in *; lia.
Qed.

Lemma set_last_length (a : ndarray) (v : R) :
  a <> [] -> length (set_last a v) = length a.
Proof.
  intros Ha. unfold set_last. rewrite length_app, removelast_length. simpl.
  destruct a; [congruence | simpl; lia].
Qed.

Lemma set_last_nth (a : ndarray) (v : R) (i : nat) :
  (i < length a)%nat ->
  (set_last a v).[i] = if Nat.eqb i (length a - 1) then v else a.[i].
Proof.
  intros Hi. unfold set_last.
  destruct (Nat.eqb_spec i (length a - 1)) as [E|E].
  - rewrite app_nth2; rewrite removelast_length; [|lia].
    rewrite E, Nat.sub_diag. reflexivity.
  - rewrite app_nth1 by (rewrite removelast_length; lia).
    apply removelast_nth. lia.
Qed.

Lemma last_nth (a : ndarray) : last a 0 = a.[length a - 1].
Proof.
  induction a as [|u a IH]; [reflexivity|].
  destruct a as [|v a]; [reflexivity|].
  change (last (u :: v :: a) 0) with (last (v :: a) 0). rewrite IH.
  simpl. rewrite Nat.sub_0_r. reflexivity.
Qed.

(** ** Facts on linspace *)

Lemma linspace_length (start stop : R) (num : nat) :
  length (linspace start stop num) = num.
Proof.
  unfold linspace.
  assert (L : forall s, length (adds (if (0 <? num - 1)%nat
                 then muls (map INR (seq 0 num)) ((stop - start) / INR (num - 1))
                 else muls (map INR (seq 0 num)) (stop - start)) s) = num).
  { intros s. unfold adds, muls.
    destruct (0 <? num - 1)%nat; rewrite !length_map, length_seq; reflexivity. }
  destruct (Nat.ltb_spec 1 num) as [H|H]; [|apply L].
  rewrite set_last_length; [apply L|].
  intros E. specialize (L start). rewrite E in L. simpl in L. lia.
Qed.

Lemma linspace_nth (start stop : R) (num i : nat) :
  (1 < num)%nat -> (i < num)%nat ->
  (linspace start stop num).[i] = start + INR i * ((stop - start) / INR (num - 1)).
Proof.
  intros Hnum Hi. unfold linspace.
  destruct (Nat.ltb_spec 1 num) as [_|]; [|lia].
  destruct (Nat.ltb_spec 0 (num - 1)) as [_|]; [|lia].
  assert (L : length (adds (muls (map INR (seq 0 num))
                 ((stop - start) / INR (num - 1))) start) = num).
  { unfold adds, muls. rewrite !length_map, length_seq. reflexivity. }
  assert (D : INR (num - 1) <> 0) by (apply not_0_INR; lia).
  rewrite set_last_nth by lia. rewrite L.
  destruct (Nat.eqb_spec i (num - 1)) as [E|E].
  - subst i. field. exact D.
  - unfold adds, muls.
    rewrite map_nth_lt by (rewrite !length_map, length_seq; lia).
    rewrite map_nth_lt by (rewrite length_map, length_seq; lia).
    assert (S : nth i (map INR (seq 0 num)) 0 = INR i).
    { change 0 with (INR 0). rewrite map_nth. rewrite seq_nth by lia. reflexivity. }
    rewrite S. ring.
Qed.
(** ** Running the array code on inputs of one length *)

Lemma zip_with_length_min (f : R -> R -> R) (a b : ndarray) :
  length (zip_with f a b) = Nat.min (length a) (length b).
Proof.
  revert b; induction a as [|u a IH]; intros [|v b]; simpl; auto.
Qed.

Lemma zip_with_nth_lt (f : R -> R -> R) (a b : ndarray) (i : nat) :
  (i < length a)%nat -> (i < length b)%nat ->
  (zip_with f a b).[i] = f a.[i] b.[i].
Proof.
  revert b i; induction a as [|u a IH]; intros [|v b] i Ha Hb; simpl in *; try lia.
  destruct i as [|i]; [reflexivity|]. apply IH; lia.
Qed.

Lemma last_item_ok (a : ndarray) :
  (1 <= length a)%nat -> last_item a = Ok (last a 0).
Proof. destruct a; simpl; [lia | reflexivity]. Qed.

Lemma py_div_ok (a b : R) : b <> 0 -> py_div a b = Ok (a / b).
Proof. intros H. unfold py_div. destruct (Req_dec_T b 0); [contradiction | reflexivity]. Qed.

Lemma py_div_zero (a : R) : py_div a 0 = Raise ZeroDivisionError.
Proof. unfold py_div. destruct (Req_dec_T 0 0); [reflexivity | congruence]. Qed.

Ltac unfold_np :=
  unfold np_add, np_sub, np_mul, smul, muls, adds, sadd, divs, np_cos, np_sin,
    np_square, zeros_like in *.

(** Lengths of arrays built from [map] and [zip_with]. *)
Ltac len := repeat rewrite ?zip_with_length_min, ?length_map; lia.

(** One step of the error monad on same-length operands. *)
Ltac run :=
  repeat (first [ rewrite broadcast_same by len
                | rewrite last_item_ok by len
                | rewrite py_div_ok by assumption ];
          cbn [bind]).

Ltac nth_simpl :=
  repeat first [ rewrite zip_with_nth_lt by len | rewrite map_nth_lt by len ].

(** The closing step for a vectorised transform: the result is there, both
    outputs have the common length, and each element is the sample formula. *)
Ltac vectorised :=
  unfold_np; run; do 2 eexists; split; [reflexivity|];
  split; (split; [len | intros i Hi; nth_simpl]).

Lemma circular_motion_ok (radius speed : R) : transform_ok (CircularMotion radius speed).
Proof.
  intros x y theta N _ _ Hx Hy Ht HN. cbn [apply_transform sample_point fst snd].
  unfold circular_motion. vectorised; reflexivity.
Qed.

Lemma translate_scale_rotate_ok (xo yo sx sy ra : R) :
  transform_ok (TranslateScaleRotate xo yo sx sy ra).
Proof.
  intros x y theta N _ _ Hx Hy Ht HN.
  cbn [apply_transform sample_point rotate_sample fst snd].
  unfold translate_scale_rotate_transform. vectorised; reflexivity.
Qed.

Lemma rotate_by_aligned (x y theta phi : ndarray) (N : nat) (g : R -> R) :
  length x = N -> length y = N -> length theta = N ->
  phi = map g theta ->
  exists x' y' : ndarray,
    rotate_by x y phi = Ok (x', y') /\
    aligned N x y theta x' (fun xi yi ti => fst (rotate_sample (g ti) xi yi)) /\
    aligned N x y theta y' (fun xi yi ti => snd (rotate_sample (g ti) xi yi)).
Proof.
  intros Hx Hy Ht ->. unfold rotate_by. vectorised; reflexivity.
Qed.

Lemma paper_rotation_ok (degrees : R) : transform_ok (PaperRotation degrees).
Proof.
  intros x y theta N _ _ Hx Hy Ht HN. cbn [apply_transform sample_point].
  unfold paper_rotation. run.
  apply (rotate_by_aligned x y theta _ N
           (fun ti => ti / last theta 0 * deg2rad degrees)); auto.
  unfold muls, divs. rewrite map_map. reflexivity.
Qed.

Lemma mystery_lines_ok (spiral_rate frequency : R) :
  transform_ok (MysteryLines spiral_rate frequency).
Proof.
  intros x y theta N _ _ Hx Hy Ht HN. cbn [apply_transform sample_point fst snd].
  unfold mystery_lines. vectorised; reflexivity.
Qed.

Lemma linear_translation_ok (dist ang : R) : transform_ok (LinearTranslation dist ang).
Proof.
  intros x y theta N _ _ Hx Hy Ht HN. cbn [apply_transform sample_point fst snd].
  unfold linear_translation_transform. vectorised; reflexivity.
Qed.

Lemma paper_rotation_non_linear_ok (degrees : R) (f : rate_function) :
  transform_ok (PaperRotationNonLinear degrees f).
Proof.
  intros x y theta N Hv _ Hx Hy Ht HN. cbn [apply_transform sample_point].
  unfold paper_rotation_transform_non_linear. run.
  destruct f as [name | g]; cbn [valid_params] in Hv.
  - assert (E : (if String.eqb name "linear" then
                   Ok (muls (divs theta (last theta 0)) (deg2rad degrees))
                 else if String.eqb name "quadratic" then
                   Ok (muls (np_square (divs theta (last theta 0))) (deg2rad degrees))
                 else if String.eqb name "sinusoidal" then
                   Ok (muls (np_sin (divs (muls (divs theta (last theta 0)) PI) 2))
                         (deg2rad degrees))
                 else Raise ValueError)
                = Ok (map (fun ti => rate_sample (RateName name) (ti / last theta 0)
                                     * deg2rad degrees) theta)).
    { unfold_np. cbn [rate_sample].
      destruct Hv as [-> | [-> | ->]]; cbn [String.eqb Ascii.eqb Bool.eqb];
        rewrite !map_map; reflexivity. }
    rewrite E. cbn [bind].
    apply (rotate_by_aligned x y theta _ N
             (fun ti => rate_sample (RateName name) (ti / last theta 0)
                        * deg2rad degrees)); auto.
  - cbn [bind].
    apply (rotate_by_aligned x y theta _ N
             (fun ti => rate_sample (RateCallable g) (ti / last theta 0)
                        * deg2rad degrees)); auto.
    rewrite Hv. unfold_np. rewrite !map_map. reflexivity.
Qed.

Lemma spirograph_ok (R r d : R) (mode : string) : transform_ok (Spirograph R r d mode).
Proof.
  intros x y theta N [Hm Hr] _ Hx Hy Ht HN. cbn [apply_transform sample_point].
  unfold spirograph_transform.
  destruct Hm as [-> | ->]; cbn [String.eqb Ascii.eqb Bool.eqb fst snd];
    vectorised; unfold Rdiv; ring.
Qed.

Lemma elliptical_spirograph_ok (R r d a b : R) (mode : string) :
  transform_ok (EllipticalSpirograph R r d a b mode).
Proof.
  intros x y theta N [Hm Hr] _ Hx Hy Ht HN. cbn [apply_transform sample_point].
  unfold elliptical_spirograph_transform.
  destruct Hm as [-> | ->]; cbn [String.eqb Ascii.eqb Bool.eqb fst snd];
    vectorised; unfold Rdiv; ring.
Qed.

Lemma polygon_spirograph_ok (R n d : R) (mode : string) :
  transform_ok (PolygonSpirograph R n d mode).
Proof.
  intros x y theta N [Hm Hn] _ Hx Hy Ht HN. cbn [apply_transform sample_point].
  unfold polygon_spirograph_transform.
  destruct Hm as [-> | ->]; cbn [String.eqb Ascii.eqb Bool.eqb fst snd];
    run; vectorised; unfold Rdiv; ring.
Qed.

Lemma spiral_ok (rate a b : R) : transform_ok (Spiral rate a b).
Proof.
  intros x y theta N _ _ Hx Hy Ht HN. cbn [apply_transform sample_point fst snd].
  unfold spiral_transform. vectorised; ring.
Qed.

Lemma spiral_oscillator_ok (rate freq const a b : R) :
  transform_ok (SpiralOscillator rate freq const a b).
Proof.
  intros x y theta N _ _ Hx Hy Ht HN. cbn [apply_transform sample_point fst snd].
  unfold spiral_oscillator. vectorised; ring.
Qed.

Lemma radial_distance_ok (theta : ndarray) (s e tm : R) :
  radial_distance theta s (e - s) tm = Ok (map (radial_sample s e tm) theta).
Proof.
  unfold radial_distance. unfold_np. run. f_equal.
  induction theta as [|t theta IH]; [reflexivity|].
  cbn [map zip_with]. rewrite IH. reflexivity.
Qed.

Lemma variable_spiral_ok (s e a b : R) : transform_ok (VariableSpiral s e a b).
Proof.
  intros x y theta N _ _ Hx Hy Ht HN. cbn [apply_transform sample_point fst snd].
  unfold variable_spiral_transform. run. rewrite radial_distance_ok. cbn [bind].
  vectorised; ring.
Qed.

(** ** svg_path_transform *)

Lemma maximum_accumulate_from_length (m : R) (a : ndarray) :
  length (maximum_accumulate_from m a) = length a.
Proof.
  revert m; induction a as [|v a IH]; intros m; simpl; [reflexivity|].
  f_equal; apply IH.
Qed.

Lemma maximum_accumulate_length (a : ndarray) :
  length (maximum_accumulate a) = length a.
Proof.
  destruct a as [|v a]; simpl; [reflexivity|].
  f_equal; apply maximum_accumulate_from_length.
Qed.

Lemma set_last_item_ok (a : ndarray) (v : R) :
  (1 <= length a)%nat -> set_last_item a v = Ok (set_last a v).
Proof. destruct a; simpl; [lia | reflexivity]. Qed.

Lemma np_interp_ok (x xp fp : ndarray) :
  (1 <= length xp)%nat -> length xp = length fp ->
  np_interp x xp fp = Ok (map (fun v => interp_at v xp fp) x).
Proof.
  intros H1 H2. unfold np_interp. destruct xp as [|x0 xp]; [simpl in H1; lia|].
  rewrite H2, Nat.eqb_refl. reflexivity.
Qed.

Lemma num_samples_pos : (1 <= num_samples)%nat.
Proof. apply Nat.leb_le. vm_compute. reflexivity. Qed.

Lemma svg_table_length (path : svg_path) : length (svg_table path) = num_samples.
Proof.
  unfold svg_table. pose proof num_samples_pos as P.
  assert (L : length (maximum_accumulate
                        (map (path_length_to path) (linspace 0 1 num_samples)))
              = num_samples).
  { rewrite maximum_accumulate_length, length_map, linspace_length. reflexivity. }
  rewrite set_last_length; [exact L|].
  intros E. rewrite E in L. simpl in L. lia.
Qed.

Lemma svg_path_transform_eq (x y theta : ndarray) (path : svg_path)
    (scale ox oy : R) :
  (1 <= length theta)%nat ->
  svg_path_transform x y theta path scale ox oy =
  Ok (map (fun ti => fst (svg_sample path scale ox oy (last theta 0) ti)) theta,
      map (fun ti => snd (svg_sample path scale ox oy (last theta 0) ti)) theta).
Proof.
  intros HN. unfold svg_path_transform, svg_sample, svg_table.
  pose proof num_samples_pos as P.
  pose proof (linspace_length 0 1 num_samples) as L.
  remember (linspace 0 1 num_samples) as t_vals eqn:Et. clear Et.
  remember (maximum_accumulate (map (path_length_to path) t_vals)) as cum eqn:Ec.
  assert (Lc : length cum = num_samples)
    by (subst cum; rewrite maximum_accumulate_length, length_map; exact L).
  clear Ec. run.
  rewrite set_last_item_ok by lia. cbn [bind].
  assert (Ls : length (set_last cum (path_length path)) = num_samples).
  { rewrite set_last_length; [exact Lc|]. intros E. rewrite E in Lc.
    cbn [length] in Lc. lia. }
  rewrite np_interp_ok by lia.
  cbn [bind]. unfold_np. rewrite !map_map. reflexivity.
Qed.

Lemma svg_path_ok (path : svg_path) (scale ox oy : R) :
  transform_ok (SvgPath path scale ox oy).
Proof.
  intros x y theta N _ _ Hx Hy Ht HN. cbn [apply_transform sample_point].
  rewrite svg_path_transform_eq by lia.
  do 2 eexists; split; [reflexivity|].
  split; (split; [len | intros i Hi; nth_simpl; reflexivity]).
Qed.

(** ** Loops with item assignment *)

Lemma Forall_any_angle (theta : ndarray) : Forall (fun _ : R => True) theta.
Proof. apply Forall_forall. intros a _. exact I. Qed.


Lemma update_length (a : ndarray) (i : nat) (v : R) : length (update a i v) = length a.
Proof.
  revert i; induction a as [|u a IH]; intros [|i]; simpl; auto.
Qed.

Lemma update_nth_same (a : ndarray) (i : nat) (v : R) :
  (i < length a)%nat -> (update a i v).[i] = v.
Proof.
  revert i; induction a as [|u a IH]; intros [|i] H; simpl in *; try lia; auto.
  apply IH; lia.
Qed.

Lemma update_nth_other (a : ndarray) (i j : nat) (v : R) :
  i <> j -> (update a i v).[j] = a.[j].
Proof.
  revert i j; induction a as [|u a IH]; intros [|i] [|j] H; simpl; auto; try congruence.
Qed.

Lemma update_update (a : ndarray) (i : nat) (v w : R) :
  update (update a i v) i w = update a i w.
Proof.
  revert i; induction a as [|u a IH]; intros [|i]; simpl; auto.
  f_equal; apply IH.
Qed.

Lemma getitem_ok (a : ndarray) (i : nat) :
  (i < length a)%nat -> getitem a i = Ok a.[i].
Proof.
  intros H. unfold getitem. destruct (Nat.ltb_spec i (length a)); [reflexivity | lia].
Qed.

Lemma setitem_ok (a : ndarray) (i : nat) (v : R) :
  (i < length a)%nat -> setitem a i v = Ok (update a i v).
Proof.
  intros H. unfold setitem. destruct (Nat.ltb_spec i (length a)); [reflexivity | lia].
Qed.

(** Steps of a loop body at an index inside the arrays. *)
Ltac item_run :=
  repeat (first [ rewrite setitem_ok by (rewrite ?update_length; lia)
                | rewrite getitem_ok by (rewrite ?update_length; lia)
                | rewrite update_nth_same by (rewrite ?update_length; lia)
                | rewrite update_update ];
          cbn [bind]).

Section UpdateLoop.

Variable body : nat * R -> ndarray * ndarray -> result (ndarray * ndarray).
Variables gx gy : nat -> R -> R -> R.
Variable M : nat.
Variable angle_ok : R -> Prop.

Hypothesis body_updates :
  forall (i : nat) (a : R) (xt yt : ndarray),
    angle_ok a ->
    (i < M)%nat -> (i < length xt)%nat -> (i < length yt)%nat ->
    body (i, a) (xt, yt)
    = Ok (update xt i (gx i a xt.[i]), update yt i (gy i a yt.[i])).

Lemma for_each_update (theta : ndarray) :
  Forall angle_ok theta ->
  forall (k : nat) (xt yt : ndarray),
    (k + length theta <= M)%nat ->
    (k + length theta <= length xt)%nat ->
    (k + length theta <= length yt)%nat ->
    exists xt' yt' : ndarray,
      for_each (enumerate_from k theta) body (xt, yt) = Ok (xt', yt') /\
      length xt' = length xt /\ length yt' = length yt /\
      (forall j : nat,
          xt'.[j] = if touched k (length theta) j
                    then gx j theta.[j - k] xt.[j] else xt.[j]) /\
      (forall j : nat,
          yt'.[j] = if touched k (length theta) j
                    then gy j theta.[j - k] yt.[j] else yt.[j]).
Proof.
  intros Hangles.
  induction Hangles as [|a rest Ha _ IH]; intros k xt yt HM Hx Hy.
  - exists xt, yt. cbn [enumerate_from for_each].
    repeat split; auto; intros j; unfold touched; simpl length;
      destruct (Nat.leb_spec k j), (Nat.ltb_spec j (k + 0)); simpl; auto; lia.
  - simpl length in *. cbn [enumerate_from for_each].
    rewrite body_updates by (assumption || lia). cbn [bind].
    destruct (IH (S k) (update xt k (gx k a xt.[k])) (update yt k (gy k a yt.[k])))
      as (xt' & yt' & E & Lx & Ly & Px & Py);
      rewrite ?update_length; try lia.
    exists xt', yt'. rewrite E, Lx, Ly, !update_length.
    repeat split; auto; intros j; [rewrite Px | rewrite Py]; unfold touched;
      destruct (Nat.leb_spec (S k) j), (Nat.ltb_spec j (S k + length rest)),
               (Nat.leb_spec k j), (Nat.ltb_spec j (k + S (length rest)));
      simpl; try lia.
    all: try (rewrite update_nth_other by lia;
              replace (j - k)%nat with (S (j - S k)) by lia; reflexivity).
    all: try (assert (j = k) by lia; subst j;
              rewrite update_nth_same by lia; rewrite Nat.sub_diag; reflexivity).
    all: rewrite update_nth_other by lia; reflexivity.
Qed.

(** The loop over [enumerate(theta)] on arrays of theta's length. *)
Lemma for_each_enumerate (x y theta : ndarray) (N : nat) :
  Forall angle_ok theta ->
  length x = N -> length y = N -> length theta = N -> (N <= M)%nat ->
  exists x' y' : ndarray,
    for_each (enumerate theta) body (x, y) = Ok (x', y') /\
    length x' = N /\ length y' = N /\
    (forall i : nat, (i < N)%nat -> x'.[i] = gx i theta.[i] x.[i]) /\
    (forall i : nat, (i < N)%nat -> y'.[i] = gy i theta.[i] y.[i]).
Proof.
  intros Hangles Hx Hy Ht HM.
  destruct (for_each_update theta Hangles 0 x y) as (x' & y' & E & Lx & Ly & Px & Py);
    try lia.
  exists x', y'. unfold enumerate. rewrite E.
  repeat split; try congruence; intros i Hi; [rewrite Px | rewrite Py];
    unfold touched; rewrite Ht, Nat.sub_0_r;
    destruct (Nat.leb_spec 0 i), (Nat.ltb_spec i (0 + N)); simpl; auto; lia.
Qed.

End UpdateLoop.

(** ** spirograph_rectangle_transform and variable_spiral_triangle_transform *)

Lemma spirograph_rectangle_body_updates (w h g tp : R) :
  forall (i : nat) (a : R) (xt yt : ndarray),
    (i < length xt)%nat -> (i < length yt)%nat ->
    spirograph_rectangle_body w h g tp (2 * (w + h)) (i, a) (xt, yt)
    = Ok (update xt i (fst (rectangle_sample w h g tp xt.[i] 0 a)),
          update yt i (snd (rectangle_sample w h g tp 0 yt.[i] a))).
Proof.
  intros i a xt yt Hx Hy.
  unfold spirograph_rectangle_body, rectangle_sample.
  destruct (Rlt_dec (np_mod (g * a) (2 * (w + h))) w);
    [| destruct (Rlt_dec (np_mod (g * a) (2 * (w + h))) (w + h));
       [| destruct (Rlt_dec (np_mod (g * a) (2 * (w + h))) (2 * w + h)) ] ];
    item_run; reflexivity.
Qed.

Lemma spirograph_rectangle_ok (w h g tp : R) :
  transform_ok (SpirographRectangle w h g tp).
Proof.
  intros x y theta N _ _ Hx Hy Ht HN. cbn [apply_transform sample_point].
  unfold spirograph_rectangle_transform.
  destruct (for_each_enumerate
              (spirograph_rectangle_body w h g tp (2 * (w + h)))
              (fun _ a old => fst (rectangle_sample w h g tp old 0 a))
              (fun _ a old => snd (rectangle_sample w h g tp 0 old a))
              N (fun _ => True)
              (fun i a xt yt _ _ => spirograph_rectangle_body_updates w h g tp i a xt yt)
              x y theta N (Forall_any_angle theta) Hx Hy Ht (Nat.le_refl N))
    as (x' & y' & E & Lx & Ly & Px & Py).
  exists x', y'. split; [exact E|].
  split; (split; [assumption | intros i Hi]); [rewrite Px | rewrite Py]; auto.
Qed.

Lemma variable_spiral_triangle_body_updates (side1 side3 : R) (r : ndarray) :
  forall (i : nat) (a : R) (xt yt : ndarray),
    (i < length r)%nat -> (i < length xt)%nat -> (i < length yt)%nat ->
    variable_spiral_triangle_body
      (0, 1) (- side1 * sqrt 3 / 2, - 0.5 * side1) (side3 * sqrt 3 / 2, - 0.5 * side3)
      r (i, a) (xt, yt)
    = Ok (update xt i (fst (triangle_sample side1 side3 r.[i] a)),
          update yt i (snd (triangle_sample side1 side3 r.[i] a))).
Proof.
  intros i a xt yt Hr Hx Hy.
  unfold variable_spiral_triangle_body, triangle_sample, edge_point.
  destruct (Rlt_dec (np_mod a (2 * PI)) (2 * PI / 3));
    [| destruct (Rlt_dec (np_mod a (2 * PI)) (4 * PI / 3)) ];
    item_run; reflexivity.
Qed.

Lemma variable_spiral_triangle_ok (s e side1 side2 side3 : R) :
  transform_ok (VariableSpiralTriangle s e side1 side2 side3).
Proof.
  intros x y theta N _ _ Hx Hy Ht HN. cbn [apply_transform sample_point].
  unfold variable_spiral_triangle_transform. run.
  rewrite radial_distance_ok. cbn [bind].
  set (r := map (radial_sample s e (last theta 0)) theta).
  assert (Lr : length r = N) by (unfold r; len).
  destruct (for_each_enumerate
              (variable_spiral_triangle_body
                 (0, 1) (- side1 * sqrt 3 / 2, - 0.5 * side1)
                 (side3 * sqrt 3 / 2, - 0.5 * side3) r)
              (fun i a _ => fst (triangle_sample side1 side3 r.[i] a))
              (fun i a _ => snd (triangle_sample side1 side3 r.[i] a))
              (length r) (fun _ => True)
              (fun i a xt yt _ => variable_spiral_triangle_body_updates side1 side3 r i a xt yt)
              (zeros_like x) (zeros_like y) theta N (Forall_any_angle theta))
    as (x' & y' & E & Lx & Ly & Px & Py);
    try (unfold zeros_like; len).
  exists x', y'. split; [exact E|].
  split; (split; [assumption | intros i Hi]); [rewrite Px | rewrite Py]; auto;
    unfold r; rewrite map_nth_lt by lia; reflexivity.
Qed.

(** ** The n-gon spirals *)

Lemma getitem_int_ok {A : Type} (l : list A) (i : Z) (d : A) :
  (0 <= i < Z.of_nat (length l))%Z ->
  getitem_int l i = Ok (nth (Z.to_nat i) l d).
Proof.
  intros [H0 H1]. unfold getitem_int.
  destruct (Z.ltb_spec i 0) as [?|_]; [lia|].
  destruct (Z.leb_spec 0 i) as [_|?]; [|lia].
  destruct (Z.ltb_spec i (Z.of_nat (length l))) as [_|?]; [|lia].
  cbn [andb].
  destruct (nth_error l (Z.to_nat i)) as [a|] eqn:E.
  - f_equal. symmetry. apply nth_error_nth. exact E.
  - apply nth_error_None in E. lia.
Qed.

Lemma exact_mod_bounds (a b : R) :
  0 < b -> 0 <= a - b * IZR (floor_div a b) < b.
Proof.
  intros Hb. unfold floor_div.
  destruct (base_Int_part (a / b)) as [H1 H2].
  assert (E : a = b * (a / b)) by (field; lra).
  split.
  - assert (b * IZR (Int_part (a / b)) <= b * (a / b))
      by (apply Rmult_le_compat_l; lra).
    lra.
  - assert (b * (a / b - 1) < b * IZR (Int_part (a / b)))
      by (apply Rmult_lt_compat_l; lra).
    lra.
Qed.

Lemma np_mod_exact (a b : R) :
  0 <= a -> np_mod a b = a - b * IZR (floor_div a b).
Proof.
  intros Ha. unfold np_mod. destruct (Rlt_dec a 0); [lra | reflexivity].
Qed.

(** The remainder of a non-negative dividend is below the divisor. *)
Lemma np_mod_bounds (a b : R) : 0 <= a -> 0 < b -> 0 <= np_mod a b < b.
Proof.
  intros Ha Hb. rewrite np_mod_exact by exact Ha. apply exact_mod_bounds. exact Hb.
Qed.

(** The remainder of any dividend is at most the divisor. *)
Lemma np_mod_range (a b : R) : 0 < b -> 0 <= np_mod a b <= b.
Proof.
  intros Hb. pose proof (exact_mod_bounds a b Hb) as [H0 H1]. unfold np_mod.
  destruct (Rlt_dec a 0); [|lra].
  destruct (Rlt_dec 0 b); [|lra].
  destruct (Rle_dec (b - (a - b * IZR (floor_div a b))) (half_ulp b)); lra.
Qed.

Lemma floor_div_bounds (a b : R) (n : nat) :
  0 < b -> 0 <= a < b * INR n ->
  (0 <= floor_div a b < Z.of_nat n)%Z.
Proof.
  intros Hb [H0 H1]. unfold floor_div.
  destruct (base_Int_part (a / b)) as [L U].
  assert (Q0 : 0 <= a / b).
  { apply Rmult_le_pos; [lra|]. left. apply Rinv_0_lt_compat. exact Hb. }
  assert (Q1 : a / b < INR n).
  { apply Rmult_lt_reg_r with b; [exact Hb|].
    replace (a / b * b) with a by (field; lra). lra. }
  split.
  - assert (-1 < IZR (Int_part (a / b))) by lra.
    apply lt_IZR in H. lia.
  - apply lt_IZR. rewrite <- INR_IZR_INZ. lra.
Qed.

Lemma Forall_nth_nonzero (sides : list R) (i : nat) :
  Forall (fun s => s <> 0) sides -> (i < length sides)%nat -> nth i sides 0 <> 0.
Proof.
  intros H Hi. rewrite Forall_forall in H. apply H. apply nth_In. exact Hi.
Qed.

Lemma ngon_vertex_loop (sides : list R) :
  Forall (fun s => s <> 0) sides ->
  forall (idx : list nat) (cv : R * R) (ca : R) (vs : list (R * R)),
    Forall (fun i => (1 <= i < length sides)%nat) idx ->
    exists (cv' : R * R) (ca' : R) (vs' : list (R * R)),
      for_each idx (ngon_vertex_body sides (length sides)) (cv, ca, vs)
      = Ok (cv', ca', vs') /\
      length vs' = (length vs + length idx)%nat.
Proof.
  intros Hnz. induction idx as [|i idx IH]; intros cv ca vs Hidx.
  - exists cv, ca, vs. split; [reflexivity | simpl; lia].
  - inversion Hidx as [|? ? Hi Hrest]; subst.
    cbn [for_each]. unfold ngon_vertex_body at 1.
    rewrite (getitem_int_ok sides (Z.of_nat i - 1) 0) by lia. cbn [bind].
    rewrite (getitem_int_ok sides (Z.of_nat i) 0) by lia. cbn [bind].
    assert (Hm : (0 <= (Z.of_nat i + 1) mod Z.of_nat (length sides)
                  < Z.of_nat (length sides))%Z)
      by (apply Z.mod_pos_bound; lia).
    rewrite (getitem_int_ok sides _ 0) by exact Hm. cbn [bind].
    rewrite py_div_ok.
    2:{ assert (nth (Z.to_nat (Z.of_nat i - 1)) sides 0 <> 0)
          by (apply Forall_nth_nonzero; [assumption | lia]).
        assert (nth (Z.to_nat (Z.of_nat i)) sides 0 <> 0)
          by (apply Forall_nth_nonzero; [assumption | lia]).
        apply Rmult_integral_contrapositive_currified; [|assumption].
        apply Rmult_integral_contrapositive_currified; [lra | assumption]. }
    cbn [bind].
    match goal with
    | |- context [for_each idx _ (?c, ?a, ?v)] =>
        destruct (IH c a v Hrest) as (cv' & ca' & vs' & E & L)
    end.
    exists cv', ca', vs'. split; [exact E|].
    rewrite L, length_app. simpl. lia.
Qed.

Lemma ngon_vertices_ok (sides : list R) :
  sides <> [] -> Forall (fun s => s <> 0) sides ->
  exists vs : list (R * R),
    ngon_vertices sides = Ok vs /\ length vs = length sides.
Proof.
  intros Hne Hnz. unfold ngon_vertices.
  assert (Hn : (1 <= length sides)%nat) by (destruct sides; simpl; [congruence | lia]).
  destruct (ngon_vertex_loop sides Hnz (seq 1 (length sides - 1)) (0, 1) (PI / 2) [(0, 1)])
    as (cv' & ca' & vs' & E & L).
  { apply Forall_forall. intros i Hi. apply in_seq in Hi. lia. }
  rewrite E. cbn [bind]. exists vs'. split; [reflexivity|].
  rewrite L, length_seq. simpl. lia.
Qed.

Lemma ngon_sample_body_updates (sides : list R) (vs : list (R * R)) (r : ndarray) :
  sides <> [] -> ngon_vertices sides = Ok vs -> length vs = length sides ->
  forall (i : nat) (a : R) (xt yt : ndarray),
    0 <= a ->
    (i < length r)%nat -> (i < length xt)%nat -> (i < length yt)%nat ->
    ngon_sample_body (length sides) vs r (i, a) (xt, yt)
    = Ok (update xt i (fst (ngon_sample sides r.[i] a)),
          update yt i (snd (ngon_sample sides r.[i] a))).
Proof.
  intros Hne Hvs Lvs i a xt yt Ha Hr Hx Hy.
  assert (Hn : (1 <= length sides)%nat) by (destruct sides; simpl; [congruence | lia]).
  assert (Hn0 : INR (length sides) <> 0) by (apply not_0_INR; lia).
  assert (Hnpos : 0 < INR (length sides)) by (apply lt_0_INR; lia).
  assert (Hseg : 0 < 2 * PI / INR (length sides)).
  { apply Rmult_lt_0_compat; [pose proof PI_RGT_0; lra|].
    apply Rinv_0_lt_compat. exact Hnpos. }
  assert (Hidx : (0 <= floor_div (np_mod a (2 * PI)) (2 * PI / INR (length sides))
                  < Z.of_nat (length vs))%Z).
  { rewrite Lvs. apply floor_div_bounds; [exact Hseg|].
    replace (2 * PI / INR (length sides) * INR (length sides)) with (2 * PI)
      by (field; exact Hn0).
    apply np_mod_bounds; [exact Ha | pose proof PI_RGT_0; lra]. }
  unfold ngon_sample_body, ngon_sample, edge_point. rewrite Hvs.
  rewrite py_div_ok by exact Hn0. cbn [bind].
  rewrite (getitem_int_ok vs _ (0, 0)) by exact Hidx. cbn [bind].
  rewrite (getitem_int_ok vs _ (0, 0))
    by (rewrite Lvs; apply Z.mod_pos_bound; lia).
  cbn [bind]. item_run. reflexivity.
Qed.

Lemma ngon_transform_eq (x y theta : ndarray) (s e : R) (sides : list R) :
  variable_spiral_ngon_transform x y theta s e sides
  = variable_spiral_regular_ngon_transform x y theta s e sides.
Proof. reflexivity. Qed.

Lemma variable_spiral_regular_ngon_ok (s e : R) (sides : list R) :
  transform_ok (VariableSpiralRegularNgon s e sides).
Proof.
  intros x y theta N [Hne Hnz] Hth Hx Hy Ht HN. cbn [apply_transform sample_point].
  cbn [valid_theta] in Hth.
  unfold variable_spiral_regular_ngon_transform. run.
  rewrite radial_distance_ok. cbn [bind].
  destruct (ngon_vertices_ok sides Hne Hnz) as (vs & Hvs & Lvs).
  rewrite Hvs. cbn [bind].
  set (r := map (radial_sample s e (last theta 0)) theta).
  assert (Lr : length r = N) by (unfold r; len).
  destruct (for_each_enumerate
              (ngon_sample_body (length sides) vs r)
              (fun i a _ => fst (ngon_sample sides r.[i] a))
              (fun i a _ => snd (ngon_sample sides r.[i] a))
              (length r) (fun a => 0 <= a)
              (ngon_sample_body_updates sides vs r Hne Hvs Lvs)
              (zeros_like x) (zeros_like y) theta N Hth)
    as (x' & y' & E & Lx & Ly & Px & Py);
    try (unfold zeros_like; len).
  exists x', y'. split; [exact E|].
  split; (split; [assumption | intros i Hi]); [rewrite Px | rewrite Py]; auto;
    unfold r; rewrite map_nth_lt by lia; reflexivity.
Qed.

Lemma variable_spiral_ngon_ok (s e : R) (sides : list R) :
  transform_ok (VariableSpiralNgon s e sides).
Proof.
  intros x y theta N Hv Hth Hx Hy Ht HN.
  exact (variable_spiral_regular_ngon_ok s e sides x y theta N Hv Hth Hx Hy Ht HN).
Qed.

(** Every transform of the library goes through on valid parameters. *)
Lemma apply_transform_ok (t : transform) : transform_ok t.
Proof.
  destruct t.
  - apply circular_motion_ok.
  - apply translate_scale_rotate_ok.
  - apply paper_rotation_ok.
  - apply mystery_lines_ok.
  - apply linear_translation_ok.
  - apply paper_rotation_non_linear_ok.
  - apply svg_path_ok.
  - apply spirograph_ok.
  - apply elliptical_spirograph_ok.
  - apply polygon_spirograph_ok.
  - apply spirograph_rectangle_ok.
  - apply spiral_ok.
  - apply spiral_oscillator_ok.
  - apply variable_spiral_ok.
  - apply variable_spiral_triangle_ok.
  - apply variable_spiral_regular_ngon_ok.
  - apply variable_spiral_ngon_ok.
Qed.

(** ** The angle sequence and the pattern assembly *)

Lemma resolution_gt_1 : (1 < resolution)%nat.
Proof. apply Nat.ltb_lt. vm_compute. reflexivity. Qed.

Lemma resolution_div : INR (resolution - 1) = 49999.
Proof.
  rewrite INR_IZR_INZ. apply f_equal. vm_compute. reflexivity.
Qed.

Lemma theta_sequence_length (rotations : R) :
  length (theta_sequence rotations) = resolution.
Proof. apply linspace_length. Qed.

Lemma theta_sequence_nth (rotations : R) (i : nat) :
  (i < resolution)%nat ->
  (theta_sequence rotations).[i] = INR i * (2 * PI * rotations / 49999).
Proof.
  intros Hi. unfold theta_sequence.
  rewrite linspace_nth by (auto using resolution_gt_1).
  rewrite resolution_div. unfold Rdiv. ring.
Qed.

Lemma theta_sequence_last (rotations : R) :
  last (theta_sequence rotations) 0 = 2 * PI * rotations.
Proof.
  pose proof resolution_gt_1 as G.
  rewrite last_nth, theta_sequence_length, theta_sequence_nth by lia.
  rewrite resolution_div. field.
Qed.

Lemma theta_sequence_nonneg (rotations : R) :
  0 <= rotations -> Forall (fun a => 0 <= a) (theta_sequence rotations).
Proof.
  intros Hr. apply Forall_nth. intros i d Hi.
  rewrite theta_sequence_length in Hi.
  rewrite (nth_indep _ d 0) by (rewrite theta_sequence_length; exact Hi).
  rewrite theta_sequence_nth by exact Hi.
  apply Rmult_le_pos; [apply pos_INR|].
  pose proof PI_RGT_0. apply Rmult_le_pos; [|lra].
  apply Rmult_le_pos; lra.
Qed.

Lemma valid_theta_nonneg (t : transform) (theta : ndarray) :
  Forall (fun a => 0 <= a) theta -> valid_theta t theta.
Proof. intros H. destruct t; cbn [valid_theta]; auto. Qed.

(** The chain of [draw_pattern] keeps the common length of its arrays. *)
Lemma chain_ok (theta : ndarray) (N : nat) (chain : list transform) :
  length theta = N -> (1 <= N)%nat ->
  Forall (fun t => valid_params t /\ valid_theta t theta) chain ->
  forall x y : ndarray,
    length x = N -> length y = N ->
    exists x' y' : ndarray,
      for_each chain
        (fun transform_func '(x, y) => apply_transform transform_func x y theta)
        (x, y) = Ok (x', y') /\
      length x' = N /\ length y' = N.
Proof.
  intros Ht HN Hchain. induction Hchain as [|t chain [Hv Hth] _ IH]; intros x y Hx Hy.
  - exists x, y. repeat split; auto.
  - cbn [for_each].
    destruct (apply_transform_ok t x y theta N Hv Hth Hx Hy Ht HN)
      as (x1 & y1 & E & [Lx _] & [Ly _]).
    rewrite E. cbn [bind]. apply IH; assumption.
Qed.

Lemma pattern_polyline_ok_on (m : meta) :
  Forall (fun t => valid_params t /\
                   valid_theta t (theta_sequence (rotations (meta_pattern m))))
    (transforms (meta_pattern m)) ->
  exists x y : ndarray,
    pattern_polyline m = Ok (x, y) /\
    length x = resolution /\ length y = resolution.
Proof.
  intros Hchain. unfold pattern_polyline.
  set (theta := theta_sequence (rotations (meta_pattern m))) in *.
  assert (Lt : length theta = resolution) by apply theta_sequence_length.
  pose proof resolution_gt_1 as G.
  destruct (chain_ok theta resolution (transforms (meta_pattern m)) Lt
              ltac:(lia) Hchain (zeros_like theta) (zeros_like theta))
    as (x1 & y1 & E & Lx & Ly); try (unfold zeros_like; len).
  rewrite E. cbn [bind].
  match goal with
  | |- context [translate_scale_rotate_transform x1 y1 theta ?a ?b ?c ?d ?e] =>
      destruct (translate_scale_rotate_ok a b c d e x1 y1 theta resolution
                  I I Lx Ly Lt ltac:(lia))
        as (x2 & y2 & E2 & [Lx2 _] & [Ly2 _])
  end.
  cbn [apply_transform] in E2. exists x2, y2. auto.
Qed.

(** With a non-negative rotation count every angle is non-negative. *)
Lemma pattern_polyline_ok (m : meta) :
  Forall valid_params (transforms (meta_pattern m)) ->
  0 <= rotations (meta_pattern m) ->
  exists x y : ndarray,
    pattern_polyline m = Ok (x, y) /\
    length x = resolution /\ length y = resolution.
Proof.
  intros Hchain Hr. apply pattern_polyline_ok_on.
  apply Forall_impl with (P := valid_params); [|exact Hchain].
  intros t Hv. split; [exact Hv|].
  apply valid_theta_nonneg, theta_sequence_nonneg. exact Hr.
Qed.

(** * The claims of the specification *)

(** C3, as the code has it.  Every transform of the library, called with
    bound parameters with which it goes through (a recognised mode or
    rate-function name, an element-wise rate callable, no Python division by
    zero) on equal-length inputs [x], [y], [theta] of length [N >= 1] (with
    a nonzero last theta element where the transform divides by it, and
    non-negative angles for the n-gon spirals), returns two outputs of length
    [N], and the outputs at index [i] are the transform's sample formula at
    [x[i]], [y[i]], [theta[i]]. *)
Theorem transforms_preserve_length_and_alignment :
  forall (t : transform) (x y theta : ndarray) (N : nat),
    valid_params t -> valid_theta t theta ->
    length x = N -> length y = N -> length theta = N -> (1 <= N)%nat ->
    (divides_by_theta_max t = true -> last theta 0 <> 0) ->
    exists x' y' : ndarray,
      apply_transform t x y theta = Ok (x', y') /\
      length x' = N /\ length y' = N /\
      forall i : nat, (i < N)%nat ->
        (x'.[i], y'.[i]) = sample_point t (last theta 0) x.[i] y.[i] theta.[i].
Proof.
  intros t x y theta N Hv Hth Hx Hy Ht HN _.
  destruct (apply_transform_ok t x y theta N Hv Hth Hx Hy Ht HN)
    as (x' & y' & E & [Lx Px] & [Ly Py]).
  exists x', y'. repeat split; auto.
  intros i Hi. rewrite (Px i Hi), (Py i Hi).
  destruct (sample_point t (last theta 0) x.[i] y.[i] theta.[i]); reflexivity.
Qed.

Lemma transforms_preserve_length_and_alignment_witness :
  exists x' y' : ndarray,
    apply_transform (VariableSpiralNgon 0.9 0.01 [1; 3; 3; 3; 3]) [1; 2] [3; 4] [0; PI]
    = Ok (x', y') /\
    length x' = 2%nat /\ length y' = 2%nat /\
    forall i : nat, (i < 2)%nat ->
      (x'.[i], y'.[i])
      = sample_point (VariableSpiralNgon 0.9 0.01 [1; 3; 3; 3; 3])
          (last [0; PI] 0) [1; 2].[i] [3; 4].[i] [0; PI].[i].
Proof.
  apply (transforms_preserve_length_and_alignment
           (VariableSpiralNgon 0.9 0.01 [1; 3; 3; 3; 3]) [1; 2] [3; 4] [0; PI] 2%nat).
  - split; [discriminate | repeat constructor; lra].
  - cbn [valid_theta]. pose proof PI_RGT_0. repeat constructor; lra.
  - reflexivity.
  - reflexivity.
  - reflexivity.
  - lia.
  - intros _. simpl. apply PI_neq0.
Defined.

Lemma powerRZ_mono (a : R) (m n : Z) :
  1 <= a -> (m <= n)%Z -> powerRZ a m <= powerRZ a n.
Proof.
  intros Ha Hmn.
  replace n with (m + Z.of_nat (Z.to_nat (n - m)))%Z by lia.
  rewrite powerRZ_add by lra. rewrite <- pow_powerRZ.
  pose proof (pow_R1_Rle a (Z.to_nat (n - m)) Ha) as H1.
  assert (H0 : 0 < powerRZ a m) by (apply powerRZ_lt; lra).
  nra.
Qed.

Lemma tiny_positive : 0 < powerRZ 2 (-70) <= 1.
Proof.
  split; [apply powerRZ_lt; lra|].
  change 1 with (powerRZ 2 0). apply powerRZ_mono; [lra | lia].
Qed.

Lemma half_ulp_two_pi : powerRZ 2 (-70) <= half_ulp (2 * PI).
Proof.
  assert (Hln2 : 0 < ln 2) by (pose proof ln_lt_2; lra).
  pose proof PI2_3_2 as Hpi.
  assert (Hln : 2 * ln 2 <= ln (2 * PI)).
  { replace (2 * ln 2) with (ln (2 * 2)) by (rewrite ln_mult by lra; ring).
    apply Rlt_le, ln_increasing; lra. }
  assert (Hq : 2 <= ln (2 * PI) / ln 2).
  { apply Rmult_le_reg_r with (ln 2); [exact Hln2|].
    replace (ln (2 * PI) / ln 2 * ln 2) with (ln (2 * PI)) by (field; lra). lra. }
  destruct (base_Int_part (ln (2 * PI) / ln 2)) as [_ Hi].
  assert (Hz : 1 < IZR (Int_part (ln (2 * PI) / ln 2))) by lra.
  apply lt_IZR in Hz.
  unfold half_ulp. cbv zeta.
  destruct (Req_dec_T (2 * PI) (powerRZ 2 (Int_part (ln (2 * PI) / ln 2))));
    apply powerRZ_mono; try lra; lia.
Qed.

(** The remainder of the tiny negative angle [-2^-70] modulo [2 pi] is
    [2 pi] itself. *)
Lemma np_mod_tiny_negative : np_mod (- powerRZ 2 (-70)) (2 * PI) = 2 * PI.
Proof.
  pose proof tiny_positive as [E0 E1]. pose proof PI_RGT_0 as Hpi.
  pose proof PI2_3_2 as Hpi3.
  assert (Hf : floor_div (- powerRZ 2 (-70)) (2 * PI) = (-1)%Z).
  { unfold floor_div. symmetry. apply Int_part_spec.
    assert (Q : 0 < powerRZ 2 (-70) / (2 * PI) < 1).
    { split.
      - apply Rmult_lt_0_compat; [lra | apply Rinv_0_lt_compat; lra].
      - apply Rmult_lt_reg_r with (2 * PI); [lra|].
        replace (powerRZ 2 (-70) / (2 * PI) * (2 * PI)) with (powerRZ 2 (-70))
          by (field; lra).
        lra. }
    replace (- powerRZ 2 (-70) / (2 * PI)) with (- (powerRZ 2 (-70) / (2 * PI)))
      by (field; lra).
    lra. }
  unfold np_mod. rewrite Hf.
  destruct (Rlt_dec (- powerRZ 2 (-70)) 0); [|lra].
  destruct (Rlt_dec 0 (2 * PI)); [|lra].
  destruct (Rle_dec (2 * PI - (- powerRZ 2 (-70) - 2 * PI * -1)) (half_ulp (2 * PI)))
    as [_|Hn]; [reflexivity|].
  exfalso. apply Hn. pose proof half_ulp_two_pi. lra.
Qed.

(** C3, as stated, fails: equal lengths [N >= 1] and a nonzero last theta
    element do not yet give two outputs of length [N].  With the rolling
    radius 0 [spirograph_transform] raises ZeroDivisionError, with an
    unknown mode it raises ValueError, and the n-gon spiral raises IndexError
    at the angle [-2^-70], whose remainder modulo [2 pi] is [2 pi] and whose
    side index is [n]. *)
Lemma transforms_without_output :
  apply_transform (Spirograph 5 0 2 "hypotrochoid") [0] [0] [1]
  = Raise ZeroDivisionError /\
  apply_transform (Spirograph 5 1 2 "bogus") [0] [0] [1] = Raise ValueError /\
  apply_transform (VariableSpiralRegularNgon 1 1 [1; 3; 3])
    [0; 0] [0; 0] [- powerRZ 2 (-70); 1]
  = Raise IndexError.
Proof.
  split; [|split].
  - cbn [apply_transform]. unfold spirograph_transform.
    cbn [String.eqb Ascii.eqb Bool.eqb]. unfold_np.
    rewrite broadcast_same by reflexivity. cbn [bind].
    rewrite py_div_zero. reflexivity.
  - reflexivity.
  - cbn [apply_transform]. unfold variable_spiral_regular_ngon_transform.
    rewrite last_item_ok by (simpl; lia). cbn [bind].
    rewrite radial_distance_ok. cbn [bind].
    destruct (ngon_vertices_ok [1; 3; 3]) as (vs & Hvs & Lvs);
      [discriminate | repeat constructor; lra |].
    rewrite Hvs. cbn [bind enumerate enumerate_from for_each].
    unfold ngon_sample_body at 1.
    rewrite py_div_ok by (cbn [length INR]; lra). cbn [bind].
    rewrite np_mod_tiny_negative.
    assert (Hf : floor_div (2 * PI) (2 * PI / INR (length [1; 3; 3])) = 3%Z).
    { unfold floor_div.
      replace (2 * PI / (2 * PI / INR (length [1; 3; 3]))) with (INR 3)
        by (cbn [length INR]; field; pose proof PI_RGT_0; lra).
      apply Int_part_INR. }
    rewrite Hf. unfold getitem_int at 1. rewrite Lvs. reflexivity.
Qed.

(** C5.  [translate_scale_rotate_transform] with the default placement
    (offsets 0, scales 1, rotation angle 0) returns [x] and [y] unchanged,
    for every equal-length [x], [y] and every [theta]. *)
Theorem placement_identity :
  forall x y theta : ndarray,
    length x = length y ->
    translate_scale_rotate_transform x y theta 0 0 1 1 0 = Ok (x, y).
Proof.
  intros x y theta H. unfold translate_scale_rotate_transform.
  assert (D : deg2rad 0 = 0) by (unfold deg2rad; ring).
  rewrite D, cos_0, sin_0. unfold_np. run. f_equal. f_equal.
  - apply nth_ext with (d := 0) (d' := 0); [len|].
    intros i Hi. assert (i < length x)%nat by (revert Hi; len).
    nth_simpl. ring.
  - apply nth_ext with (d := 0) (d' := 0); [len|].
    intros i Hi. assert (i < length y)%nat by (revert Hi; len).
    nth_simpl. ring.
Qed.

Lemma placement_identity_witness :
  translate_scale_rotate_transform [3; -2] [5; 7] [0; 1] 0 0 1 1 0 = Ok ([3; -2], [5; 7]).
Proof. apply (placement_identity [3; -2] [5; 7] [0; 1]). reflexivity. Defined.

(** C8.  The output of [svg_path_transform] does not depend on the incoming
    coordinates: two calls with the same theta, path, scale and offsets
    return the same result whatever [x] and [y] are. *)
Theorem svg_path_transform_ignores_xy :
  forall (x1 y1 x2 y2 theta : ndarray) (path : svg_path) (scale offset_x offset_y : R),
    svg_path_transform x1 y1 theta path scale offset_x offset_y
    = svg_path_transform x2 y2 theta path scale offset_x offset_y.
Proof. intros. reflexivity. Qed.

(** C9.  [mystery_lines] computes [r = spiral_rate + spiral_rate * sin(frequency * theta)]
    and adds the same increment [r * sin(theta)] to both coordinates, so at
    every index the increment of [x] equals the increment of [y]. *)
Theorem mystery_lines_same_increment :
  forall (x y theta : ndarray) (spiral_rate frequency : R) (N : nat),
    length x = N -> length y = N -> length theta = N ->
    exists x' y' : ndarray,
      mystery_lines x y theta spiral_rate frequency = Ok (x', y') /\
      length x' = N /\ length y' = N /\
      forall i : nat, (i < N)%nat ->
        let r := spiral_rate + spiral_rate * sin (frequency * theta.[i]) in
        x'.[i] = x.[i] + r * sin theta.[i] /\
        y'.[i] = y.[i] + r * sin theta.[i] /\
        x'.[i] - x.[i] = y'.[i] - y.[i].
Proof.
  intros x y theta rate freq N Hx Hy Ht. unfold mystery_lines.
  unfold_np. run. do 2 eexists. split; [reflexivity|].
  split; [len|]. split; [len|].
  intros i Hi. cbv zeta. nth_simpl. repeat split; ring.
Qed.

Lemma mystery_lines_same_increment_witness :
  exists x' y' : ndarray,
    mystery_lines [1; 2] [3; 4] [0; PI] 390 2 = Ok (x', y') /\
    length x' = 2%nat /\ length y' = 2%nat /\
    forall i : nat, (i < 2)%nat ->
      let r := 390 + 390 * sin (2 * [0; PI].[i]) in
      x'.[i] = [1; 2].[i] + r * sin [0; PI].[i] /\
      y'.[i] = [3; 4].[i] + r * sin [0; PI].[i] /\
      x'.[i] - [1; 2].[i] = y'.[i] - [3; 4].[i].
Proof.
  apply (mystery_lines_same_increment [1; 2] [3; 4] [0; PI] 390 2 2%nat); reflexivity.
Defined.

Lemma rotate_sample_norm (phi xi yi : R) :
  (fst (rotate_sample phi xi yi)) ^ 2 + (snd (rotate_sample phi xi yi)) ^ 2
  = xi ^ 2 + yi ^ 2.
Proof.
  unfold rotate_sample. cbn [fst snd].
  pose proof (sin2_cos2 phi) as H. unfold Rsqr in H.
  replace ((xi * cos phi - yi * sin phi) ^ 2 + (xi * sin phi + yi * cos phi) ^ 2)
    with ((xi ^ 2 + yi ^ 2) * (sin phi * sin phi + cos phi * cos phi)) by ring.
  rewrite H. ring.
Qed.

(** C10.  [paper_rotation], and [paper_rotation_transform_non_linear] with
    each of the three rate-function names, keep every sample at its distance
    from the origin: [x'[i]^2 + y'[i]^2 = x[i]^2 + y[i]^2] at every index,
    for equal-length inputs whose last theta element is not zero. *)
Theorem paper_rotations_preserve_radius :
  forall (x y theta : ndarray) (degrees : R) (N : nat),
    length x = N -> length y = N -> length theta = N -> (1 <= N)%nat ->
    last theta 0 <> 0 ->
    (exists x' y' : ndarray,
        paper_rotation x y theta degrees = Ok (x', y') /\
        forall i : nat, (i < N)%nat ->
          x'.[i] ^ 2 + y'.[i] ^ 2 = x.[i] ^ 2 + y.[i] ^ 2) /\
    (forall name : string,
        name = "linear"%string \/ name = "quadratic"%string \/ name = "sinusoidal"%string ->
        exists x' y' : ndarray,
          paper_rotation_transform_non_linear x y theta degrees (RateName name)
          = Ok (x', y') /\
          forall i : nat, (i < N)%nat ->
            x'.[i] ^ 2 + y'.[i] ^ 2 = x.[i] ^ 2 + y.[i] ^ 2).
Proof.
  intros x y theta degrees N Hx Hy Ht HN _. split.
  - destruct (paper_rotation_ok degrees x y theta N I I Hx Hy Ht HN)
      as (x' & y' & E & [Lx Px] & [Ly Py]).
    exists x', y'. split; [exact E|].
    intros i Hi. rewrite (Px i Hi), (Py i Hi). cbn [sample_point].
    apply rotate_sample_norm.
  - intros name Hname.
    destruct (paper_rotation_non_linear_ok degrees (RateName name) x y theta N
                Hname I Hx Hy Ht HN)
      as (x' & y' & E & [Lx Px] & [Ly Py]).
    exists x', y'. split; [exact E|].
    intros i Hi. rewrite (Px i Hi), (Py i Hi). cbn [sample_point].
    apply rotate_sample_norm.
Qed.

Lemma paper_rotations_preserve_radius_witness :
  (exists x' y' : ndarray,
      paper_rotation [1; 2] [3; 4] [0; PI] 70 = Ok (x', y') /\
      forall i : nat, (i < 2)%nat ->
        x'.[i] ^ 2 + y'.[i] ^ 2 = [1; 2].[i] ^ 2 + [3; 4].[i] ^ 2) /\
  (forall name : string,
      name = "linear"%string \/ name = "quadratic"%string \/ name = "sinusoidal"%string ->
      exists x' y' : ndarray,
        paper_rotation_transform_non_linear [1; 2] [3; 4] [0; PI] 70 (RateName name)
        = Ok (x', y') /\
        forall i : nat, (i < 2)%nat ->
          x'.[i] ^ 2 + y'.[i] ^ 2 = [1; 2].[i] ^ 2 + [3; 4].[i] ^ 2).
Proof.
  apply (paper_rotations_preserve_radius [1; 2] [3; 4] [0; PI] 70 2%nat);
    try reflexivity; try lia.
  simpl. apply PI_neq0.
Defined.

(** C6.  For every [rotations > 0] the theta sequence of a pattern has
    exactly 50000 elements, is strictly increasing and evenly spaced, starts
    at 0 and ends at [2 * pi * rotations]. *)
Theorem theta_sequence_shape :
  forall rotations : R,
    0 < rotations ->
    length (theta_sequence rotations) = 50000%nat /\
    strictly_increasing (theta_sequence rotations) /\
    evenly_spaced (theta_sequence rotations) (2 * PI * rotations / 49999) /\
    (theta_sequence rotations).[0] = 0 /\
    last (theta_sequence rotations) 0 = 2 * PI * rotations.
Proof.
  intros rotations Hpos. pose proof resolution_gt_1 as G.
  assert (Hstep : 0 < 2 * PI * rotations / 49999).
  { pose proof PI_RGT_0. apply Rmult_lt_0_compat; [|lra].
    apply Rmult_lt_0_compat; lra. }
  split; [apply theta_sequence_length|].
  split; [|split; [|split]].
  - intros i j Hij Hj. rewrite theta_sequence_length in Hj.
    rewrite !theta_sequence_nth by lia.
    apply Rmult_lt_compat_r; [exact Hstep|]. apply lt_INR. exact Hij.
  - intros i Hi. rewrite theta_sequence_length in Hi.
    rewrite !theta_sequence_nth by lia. rewrite S_INR. ring.
  - rewrite theta_sequence_nth by lia. simpl. ring.
  - apply theta_sequence_last.
Qed.

Lemma theta_sequence_shape_witness :
  length (theta_sequence 235) = 50000%nat /\
  strictly_increasing (theta_sequence 235) /\
  evenly_spaced (theta_sequence 235) (2 * PI * 235 / 49999) /\
  (theta_sequence 235).[0] = 0 /\
  last (theta_sequence 235) 0 = 2 * PI * 235.
Proof. apply (theta_sequence_shape 235). lra. Defined.

Lemma draw_pattern_from (metas : list meta) :
  Forall (fun m => exists xy : ndarray * ndarray, pattern_polyline m = Ok xy) metas ->
  forall plotted : list (ndarray * ndarray),
    exists polylines : list (ndarray * ndarray),
      for_each metas
        (fun m plotted => xy <- pattern_polyline m;; Ok (plotted ++ [xy]))
        plotted = Ok polylines /\
      length polylines = (length plotted + length metas)%nat.
Proof.
  intros H. induction H as [|m metas [xy E] _ IH]; intros plotted.
  - exists plotted. split; [reflexivity | simpl; lia].
  - cbn [for_each]. rewrite E. cbn [bind].
    destruct (IH (plotted ++ [xy])) as (polylines & E' & L).
    exists polylines. split; [exact E'|].
    rewrite L, length_app. simpl. lia.
Qed.

(** C1, as the code has it.  The rotation count is not validated: for every
    rotation count, positive, zero or negative, the theta sequence is
    generated, with 50000 evenly spaced elements from 0 to
    [2 * pi * rotations], and nothing is raised for it.  For rotation counts
    above zero and transforms with valid parameters the pattern assembly has
    no failure mode: [draw_pattern] plots one polyline of 50000 points per
    pattern. *)
Theorem rotation_count_not_validated :
  forall patterns_meta : list meta,
    Forall (fun m => Forall valid_params (transforms (meta_pattern m))) patterns_meta ->
    (forall m : meta, In m patterns_meta ->
       let theta := theta_sequence (rotations (meta_pattern m)) in
       length theta = 50000%nat /\ theta.[0] = 0 /\
       last theta 0 = 2 * PI * rotations (meta_pattern m) /\
       evenly_spaced theta (2 * PI * rotations (meta_pattern m) / 49999)) /\
    (forall m : meta, In m patterns_meta -> 0 < rotations (meta_pattern m) ->
       exists x y : ndarray,
         pattern_polyline m = Ok (x, y) /\
         length x = 50000%nat /\ length y = 50000%nat) /\
    (Forall (fun m => 0 < rotations (meta_pattern m)) patterns_meta ->
     exists polylines : list (ndarray * ndarray),
       draw_pattern patterns_meta = Ok polylines /\
       length polylines = length patterns_meta).
Proof.
  intros metas H. pose proof resolution_gt_1 as G. split; [|split].
  - intros m _ theta. subst theta.
    split; [apply theta_sequence_length|].
    split; [rewrite theta_sequence_nth by lia; simpl; ring|].
    split; [apply theta_sequence_last|].
    intros i Hi. rewrite theta_sequence_length in Hi.
    rewrite !theta_sequence_nth by lia. rewrite S_INR. ring.
  - intros m Hin Hpos. rewrite Forall_forall in H.
    apply pattern_polyline_ok; [apply H; exact Hin | lra].
  - intros Hpos.
    destruct (draw_pattern_from metas) with (plotted := @nil (ndarray * ndarray))
      as (polylines & E & L).
    + rewrite Forall_forall in *. intros m Hin.
      destruct (pattern_polyline_ok m (H m Hin)) as (x & y & E & _);
        [specialize (Hpos m Hin); lra|].
      exists (x, y). exact E.
    + exists polylines. split; [exact E | exact L].
Qed.

Lemma rotation_count_not_validated_witness :
  exists polylines : list (ndarray * ndarray),
    draw_pattern
      [ {| meta_pattern :=
             {| transforms := [VariableSpiralNgon 0.9 0.01 [1; 3; 3; 3; 3];
                               CircularMotion 100 1];
                rotations := 2 |};
           meta_translations := None |} ] = Ok polylines /\
    length polylines = 1%nat.
Proof.
  apply (rotation_count_not_validated
           [ {| meta_pattern :=
                  {| transforms := [VariableSpiralNgon 0.9 0.01 [1; 3; 3; 3; 3];
                                    CircularMotion 100 1];
                     rotations := 2 |};
                meta_translations := None |} ]).
  - repeat constructor; try discriminate; lra.
  - repeat constructor. cbn [rotations meta_pattern]. lra.
Defined.

(** C1, as stated, fails: with the rotation count -1 the assembly of a
    pattern does not raise; it returns a polyline of 50000 points. *)
Lemma negative_rotations_not_rejected :
  -1 <= 0 /\
  exists x y : ndarray,
    pattern_polyline
      {| meta_pattern := {| transforms := [CircularMotion 100 1]; rotations := -1 |};
         meta_translations := None |} = Ok (x, y) /\
    length x = 50000%nat /\ length y = 50000%nat.
Proof.
  split; [lra|]. apply pattern_polyline_ok_on.
  repeat constructor.
Qed.

(** C2, as the code has it.  [paper_rotation] with [degrees = 360] on
    equal-length inputs with a nonzero last theta element returns the input
    point at the last index (where the angle reaches [2 * pi]) and at every
    index whose theta is 0; the samples in between are rotated by their own
    fraction of the full turn. *)
Theorem paper_rotation_360_endpoints :
  forall (x y theta : ndarray) (N : nat),
    length x = N -> length y = N -> length theta = N -> (1 <= N)%nat ->
    last theta 0 <> 0 ->
    exists x' y' : ndarray,
      paper_rotation x y theta 360 = Ok (x', y') /\
      length x' = N /\ length y' = N /\
      last x' 0 = last x 0 /\ last y' 0 = last y 0 /\
      (forall i : nat, (i < N)%nat -> theta.[i] = 0 ->
         x'.[i] = x.[i] /\ y'.[i] = y.[i]) /\
      (forall i : nat, (i < N)%nat ->
         (x'.[i], y'.[i])
         = rotate_sample (theta.[i] / last theta 0 * (2 * PI)) x.[i] y.[i]).
Proof.
  intros x y theta N Hx Hy Ht HN Hmax.
  destruct (paper_rotation_ok 360 x y theta N I I Hx Hy Ht HN)
    as (x' & y' & E & [Lx Px] & [Ly Py]).
  cbn [apply_transform sample_point] in E, Px, Py.
  assert (D : deg2rad 360 = 2 * PI) by (unfold deg2rad; field).
  rewrite D in Px, Py.
  exists x', y'. split; [exact E|]. split; [exact Lx|]. split; [exact Ly|].
  assert (Hlast : theta.[N - 1] / last theta 0 * (2 * PI) = 2 * PI).
  { rewrite (last_nth theta), Ht. rewrite last_nth, Ht in Hmax. field. exact Hmax. }
  split; [|split; [|split]].
  - rewrite (last_nth x'), (last_nth x), Lx, Hx, Px by lia.
    rewrite Hlast. unfold rotate_sample. cbn [fst]. rewrite cos_2PI, sin_2PI. ring.
  - rewrite (last_nth y'), (last_nth y), Ly, Hy, Py by lia.
    rewrite Hlast. unfold rotate_sample. cbn [snd]. rewrite cos_2PI, sin_2PI. ring.
  - intros i Hi Hz. rewrite (Px i Hi), (Py i Hi), Hz.
    replace (0 / last theta 0 * (2 * PI)) with 0 by (unfold Rdiv; ring).
    unfold rotate_sample. cbn [fst snd]. rewrite cos_0, sin_0. split; ring.
  - intros i Hi. rewrite (Px i Hi), (Py i Hi).
    destruct (rotate_sample (theta.[i] / last theta 0 * (2 * PI)) x.[i] y.[i]).
    reflexivity.
Qed.

Lemma paper_rotation_360_endpoints_witness :
  exists x' y' : ndarray,
    paper_rotation [1; 1; 1] [0; 0; 0] [0; PI; 2 * PI] 360 = Ok (x', y') /\
    length x' = 3%nat /\ length y' = 3%nat /\
    last x' 0 = last [1; 1; 1] 0 /\ last y' 0 = last [0; 0; 0] 0 /\
    (forall i : nat, (i < 3)%nat -> [0; PI; 2 * PI].[i] = 0 ->
       x'.[i] = [1; 1; 1].[i] /\ y'.[i] = [0; 0; 0].[i]) /\
    (forall i : nat, (i < 3)%nat ->
       (x'.[i], y'.[i])
       = rotate_sample ([0; PI; 2 * PI].[i] / last [0; PI; 2 * PI] 0 * (2 * PI))
           [1; 1; 1].[i] [0; 0; 0].[i]).
Proof.
  apply (paper_rotation_360_endpoints [1; 1; 1] [0; 0; 0] [0; PI; 2 * PI] 3%nat);
    try reflexivity; try lia.
  simpl. pose proof PI_RGT_0. lra.
Defined.

(** C2, as stated, fails: on the full sweep [0, pi, 2 * pi] with
    [degrees = 360] the middle sample (1, 0) comes out as (-1, 0), at
    distance 2 from the input. *)
Lemma paper_rotation_360_moves_midpoint :
  exists x' y' : ndarray,
    paper_rotation [1; 1; 1] [0; 0; 0] [0; PI; 2 * PI] 360 = Ok (x', y') /\
    x'.[1] = -1 /\ [1; 1; 1].[1] = 1 /\ Rabs (x'.[1] - [1; 1; 1].[1]) = 2 /\
    (x', y') <> ([1; 1; 1], [0; 0; 0]).
Proof.
  destruct (paper_rotation_ok 360 [1; 1; 1] [0; 0; 0] [0; PI; 2 * PI] 3%nat I I
              eq_refl eq_refl eq_refl ltac:(lia))
    as (x' & y' & E & [Lx Px] & _).
  cbn [apply_transform sample_point] in E, Px.
  assert (X1 : x'.[1] = -1).
  { rewrite Px by lia. unfold rotate_sample, deg2rad. cbn [fst nth last].
    replace (PI / (2 * PI) * (360 * (PI / 180))) with PI
      by (field; apply PI_neq0).
    rewrite cos_PI, sin_PI. ring. }
  exists x', y'. split; [exact E|]. split; [exact X1|]. split; [reflexivity|].
  split.
  - rewrite X1. cbn [nth]. replace (-1 - 1) with (- (2)) by ring.
    rewrite Rabs_Ropp. apply Rabs_right. lra.
  - intros H. inversion H as [[Hx' Hy']]. rewrite Hx' in X1. cbn [nth] in X1. lra.
Qed.

Lemma cos_even_multiple_PI (k : nat) : cos (2 * INR k * PI) = 1.
Proof.
  replace (2 * INR k * PI) with (0 + 2 * INR k * PI) by ring.
  rewrite cos_period. apply cos_0.
Qed.

Lemma sin_even_multiple_PI (k : nat) : sin (2 * INR k * PI) = 0.
Proof.
  replace (2 * INR k * PI) with (0 + 2 * INR k * PI) by ring.
  rewrite sin_period. apply sin_0.
Qed.

(** C7.  The hypotrochoid with [R = 5], [r = 1], [d = 2] closes: when theta
    starts at 0 and ends at [2 * pi * R / gcd(R, r) = 10 * pi], and the input
    coordinates agree at the first and last index, [spirograph_transform]
    returns a curve of [N] points, the trochoid
    [x + 4 cos(theta) + 2 cos(4 theta)], [y + 4 sin(theta) - 2 sin(4 theta)],
    whose first point is [(x[0] + 6, y[0])] and whose last point is equal to
    the first. *)
Theorem hypotrochoid_5_1_2_closes :
  forall (x y theta : ndarray) (N : nat),
    length x = N -> length y = N -> length theta = N -> (1 <= N)%nat ->
    theta.[0] = 0 -> last theta 0 = 10 * PI ->
    x.[0] = last x 0 -> y.[0] = last y 0 ->
    exists x' y' : ndarray,
      spirograph_transform x y theta 5 1 2 "hypotrochoid" = Ok (x', y') /\
      length x' = N /\ length y' = N /\
      (forall i : nat, (i < N)%nat ->
         x'.[i] = x.[i] + 4 * cos theta.[i] + 2 * cos (4 * theta.[i]) /\
         y'.[i] = y.[i] + 4 * sin theta.[i] - 2 * sin (4 * theta.[i])) /\
      x'.[0] = x.[0] + 6 /\ y'.[0] = y.[0] /\
      x'.[0] = last x' 0 /\ y'.[0] = last y' 0.
Proof.
  intros x y theta N Hx Hy Ht HN H0 Hlast Hxx Hyy.
  assert (Hv : valid_params (Spirograph 5 1 2 "hypotrochoid")).
  { split; [left; reflexivity | lra]. }
  destruct (spirograph_ok 5 1 2 "hypotrochoid" x y theta N Hv I Hx Hy Ht HN)
    as (x' & y' & E & [Lx Px] & [Ly Py]).
  cbn [apply_transform sample_point String.eqb Ascii.eqb Bool.eqb fst snd] in E, Px, Py.
  assert (P : forall i : nat, (i < N)%nat ->
                x'.[i] = x.[i] + 4 * cos theta.[i] + 2 * cos (4 * theta.[i]) /\
                y'.[i] = y.[i] + 4 * sin theta.[i] - 2 * sin (4 * theta.[i])).
  { intros i Hi. rewrite (Px i Hi), (Py i Hi).
    replace ((5 - 1) / 1 * theta.[i]) with (4 * theta.[i]) by field.
    split; ring. }
  exists x', y'. split; [exact E|]. split; [exact Lx|]. split; [exact Ly|].
  split; [exact P|].
  rewrite (last_nth x'), (last_nth y'), Lx, Ly.
  rewrite (last_nth x), Hx in Hxx. rewrite (last_nth y), Hy in Hyy.
  rewrite (last_nth theta), Ht in Hlast.
  destruct (P 0%nat ltac:(lia)) as [X0 Y0].
  destruct (P (N - 1)%nat ltac:(lia)) as [X1 Y1].
  rewrite X1, Y1, X0, Y0, H0, Hlast, <- Hxx, <- Hyy.
  replace (4 * 0) with 0 by ring.
  replace (4 * (10 * PI)) with (2 * INR 20 * PI) by (simpl; ring).
  replace (10 * PI) with (2 * INR 5 * PI) by (simpl; ring).
  rewrite !cos_even_multiple_PI, !sin_even_multiple_PI, cos_0, sin_0.
  repeat split; ring.
Qed.

Lemma hypotrochoid_5_1_2_closes_witness :
  exists x' y' : ndarray,
    spirograph_transform [0; 0; 0] [0; 0; 0] [0; 5 * PI; 10 * PI] 5 1 2 "hypotrochoid"
    = Ok (x', y') /\
    length x' = 3%nat /\ length y' = 3%nat /\
    (forall i : nat, (i < 3)%nat ->
       x'.[i] = [0; 0; 0].[i] + 4 * cos [0; 5 * PI; 10 * PI].[i]
                + 2 * cos (4 * [0; 5 * PI; 10 * PI].[i]) /\
       y'.[i] = [0; 0; 0].[i] + 4 * sin [0; 5 * PI; 10 * PI].[i]
                - 2 * sin (4 * [0; 5 * PI; 10 * PI].[i])) /\
    x'.[0] = [0; 0; 0].[0] + 6 /\ y'.[0] = [0; 0; 0].[0] /\
    x'.[0] = last x' 0 /\ y'.[0] = last y' 0.
Proof.
  apply (hypotrochoid_5_1_2_closes [0; 0; 0] [0; 0; 0] [0; 5 * PI; 10 * PI] 3%nat);
    try reflexivity; lia.
Defined.

Lemma eqb_other (mode s : string) : mode <> s -> String.eqb mode s = false.
Proof. intros H. apply String.eqb_neq. exact H. Qed.

(** C4, as the code has it.  A mode string that is not one of the two
    recognised values never yields an output and no default mode is
    substituted: [spirograph_transform] and [elliptical_spirograph_transform]
    raise ValueError whatever the other arguments are, and
    [polygon_spirograph_transform] raises ValueError whenever [n] is not
    zero; it raises in every case. *)
Theorem unrecognised_mode_raises :
  forall (mode : string) (x y theta : ndarray) (R r d a b n : R),
    (mode <> "hypotrochoid"%string -> mode <> "epitrochoid"%string ->
       spirograph_transform x y theta R r d mode = Raise ValueError /\
       elliptical_spirograph_transform x y theta R r d a b mode = Raise ValueError) /\
    (mode <> "hypocyclogon"%string -> mode <> "epicyclogon"%string ->
       (n <> 0 -> polygon_spirograph_transform x y theta R n d mode = Raise ValueError) /\
       is_ok (polygon_spirograph_transform x y theta R n d mode) = false).
Proof.
  intros mode x y theta R r d a b n. split.
  - intros H1 H2. unfold spirograph_transform, elliptical_spirograph_transform.
    rewrite (eqb_other _ _ H1), (eqb_other _ _ H2). split; reflexivity.
  - intros H1 H2. unfold polygon_spirograph_transform.
    rewrite (eqb_other _ _ H1), (eqb_other _ _ H2).
    split.
    + intros Hn. rewrite !py_div_ok by exact Hn. reflexivity.
    + destruct (Req_dec_T n 0) as [-> | Hn].
      * rewrite py_div_zero. reflexivity.
      * rewrite !py_div_ok by exact Hn. reflexivity.
Qed.

Lemma unrecognised_mode_raises_witness :
  (spirograph_transform [0] [0] [0] 5 1 2 "bogus" = Raise ValueError /\
   elliptical_spirograph_transform [0] [0] [0] 5 1 2 3 4 "bogus" = Raise ValueError) /\
  polygon_spirograph_transform [0] [0] [0] 5 4 2 "bogus" = Raise ValueError.
Proof.
  destruct (unrecognised_mode_raises "bogus" [0] [0] [0] 5 1 2 3 4 4) as [A B].
  split.
  - apply A; discriminate.
  - apply B; try discriminate. lra.
Defined.

(** C4, as stated, fails: with [n = 0] and an unrecognised mode,
    [polygon_spirograph_transform] raises ZeroDivisionError from [np.pi / n],
    not ValueError; the mode is looked at only afterwards. *)
Lemma polygon_mode_bogus_n_zero :
  polygon_spirograph_transform [0] [0] [0] 5 0 2 "bogus" = Raise ZeroDivisionError /\
  polygon_spirograph_transform [0] [0] [0] 5 0 2 "bogus" <> Raise ValueError.
Proof.
  assert (E : polygon_spirograph_transform [0] [0] [0] 5 0 2 "bogus"
              = Raise ZeroDivisionError).
  { unfold polygon_spirograph_transform. cbn [String.eqb Ascii.eqb Bool.eqb].
    rewrite py_div_zero. reflexivity. }
  split; [exact E|]. rewrite E. discriminate.
Qed.

(** * Further properties of the transforms *)

Lemma cos_sin_norm (a r : R) : (r * cos a) ^ 2 + (r * sin a) ^ 2 = r ^ 2.
Proof.
  pose proof (sin2_cos2 a) as H. unfold Rsqr in H.
  replace ((r * cos a) ^ 2 + (r * sin a) ^ 2)
    with (r ^ 2 * (sin a * sin a + cos a * cos a)) by ring.
  rewrite H. ring.
Qed.

Lemma zeros_like_nth (a : ndarray) (i : nat) : (zeros_like a).[i] = 0.
Proof.
  unfold zeros_like. revert i. induction a as [|u a IH]; intros [|i]; simpl; auto.
Qed.

Lemma zeros_like_length_eq (a b : ndarray) :
  length a = length b -> zeros_like a = zeros_like b.
Proof.
  unfold zeros_like. revert b. induction a as [|u a IH]; intros [|v b] H;
    simpl in *; try congruence. f_equal. apply IH. congruence.
Qed.

Lemma broadcast_mismatch (f : R -> R -> R) (a b : ndarray) :
  length a <> length b -> length a <> 1%nat -> length b <> 1%nat ->
  broadcast f a b = Raise ValueError.
Proof.
  intros Hab Ha Hb. unfold broadcast.
  destruct (Nat.eqb_spec (length a) (length b)) as [E|_]; [contradiction|].
  destruct a as [|u [|u' a]]; simpl in Ha; try congruence;
    destruct b as [|v [|v' b]]; simpl in Hb; try congruence; reflexivity.
Qed.

Lemma additive_sample (t : transform) (tm xi yi ti : R) :
  additive t = true ->
  sample_point t tm xi yi ti
  = (xi + fst (sample_point t tm 0 0 ti), yi + snd (sample_point t tm 0 0 ti)).
Proof.
  destruct t; cbn [additive]; try discriminate; intros _;
    cbn [sample_point]; unfold rectangle_sample; cbv zeta;
    repeat match goal with
           | |- context [if ?c then _ else _] => destruct c
           end;
    cbn [fst snd]; apply f_equal2; ring.
Qed.

Lemma additive_valid_theta (t : transform) (theta : ndarray) :
  additive t = true -> valid_theta t theta.
Proof. destruct t; cbn [additive valid_theta]; intros H; try discriminate; exact I. Qed.

(** X1.  [circular_motion] moves every sample onto the circle of the given
    radius around its incoming position. *)
Theorem circular_motion_on_circle :
  forall (x y theta : ndarray) (radius speed : R) (N : nat),
    length x = N -> length y = N -> length theta = N ->
    exists x' y' : ndarray,
      circular_motion x y theta radius speed = Ok (x', y') /\
      forall i : nat, (i < N)%nat ->
        (x'.[i] - x.[i]) ^ 2 + (y'.[i] - y.[i]) ^ 2 = radius ^ 2.
Proof.
  intros x y theta radius speed N Hx Hy Ht. unfold circular_motion.
  unfold_np. run. do 2 eexists. split; [reflexivity|].
  intros i Hi. nth_simpl.
  rewrite <- (cos_sin_norm (speed * theta.[i]) radius). ring.
Qed.

Lemma circular_motion_on_circle_witness :
  exists x' y' : ndarray,
    circular_motion [0; 0; 0] [0; 0; 0] [0; PI / 2; PI] 10 1 = Ok (x', y') /\
    forall i : nat, (i < 3)%nat ->
      (x'.[i] - [0; 0; 0].[i]) ^ 2 + (y'.[i] - [0; 0; 0].[i]) ^ 2 = 10 ^ 2.
Proof.
  apply (circular_motion_on_circle [0; 0; 0] [0; 0; 0] [0; PI / 2; PI] 10 1 3%nat);
    reflexivity.
Defined.

(** X2.  An additive transform displaces every sample by an amount that
    does not depend on the incoming coordinates: its output on [(x, y)] is
    [(x, y)] plus its output on all-zero coordinates. *)
Theorem additive_transform_displacement :
  forall (t : transform) (x y theta : ndarray) (N : nat),
    additive t = true -> valid_params t ->
    length x = N -> length y = N -> length theta = N -> (1 <= N)%nat ->
    exists x' y' dx dy : ndarray,
      apply_transform t x y theta = Ok (x', y') /\
      apply_transform t (zeros_like theta) (zeros_like theta) theta = Ok (dx, dy) /\
      forall i : nat, (i < N)%nat ->
        x'.[i] = x.[i] + dx.[i] /\ y'.[i] = y.[i] + dy.[i].
Proof.
  intros t x y theta N Ha Hv Hx Hy Ht HN.
  pose proof (additive_valid_theta t theta Ha) as Hth.
  destruct (apply_transform_ok t x y theta N Hv Hth Hx Hy Ht HN)
    as (x' & y' & E & [Lx Px] & [Ly Py]).
  assert (Lz : length (zeros_like theta) = N) by (unfold zeros_like; len).
  destruct (apply_transform_ok t (zeros_like theta) (zeros_like theta) theta N
              Hv Hth Lz Lz Ht HN)
    as (dx & dy & E0 & [Ldx Pdx] & [Ldy Pdy]).
  exists x', y', dx, dy. split; [exact E|]. split; [exact E0|].
  intros i Hi.
  rewrite (Px i Hi), (Py i Hi), (Pdx i Hi), (Pdy i Hi), !zeros_like_nth.
  rewrite (additive_sample t _ x.[i] y.[i]) by exact Ha. split; reflexivity.
Qed.

Lemma additive_transform_displacement_witness :
  exists x' y' dx dy : ndarray,
    apply_transform (Spiral 2 1 1) [1; 2] [3; 4] [0; PI] = Ok (x', y') /\
    apply_transform (Spiral 2 1 1) (zeros_like [0; PI]) (zeros_like [0; PI]) [0; PI]
    = Ok (dx, dy) /\
    forall i : nat, (i < 2)%nat ->
      x'.[i] = [1; 2].[i] + dx.[i] /\ y'.[i] = [3; 4].[i] + dy.[i].
Proof.
  apply (additive_transform_displacement (Spiral 2 1 1) [1; 2] [3; 4] [0; PI] 2%nat);
    try reflexivity; try exact I; lia.
Defined.

(** X3.  The triangle and n-gon spirals overwrite the coordinates: the
    result depends on the lengths of [x] and [y] only, not on their values. *)
Theorem polygon_spirals_ignore_xy :
  forall (x1 y1 x2 y2 theta : ndarray) (s e : R),
    length x1 = length x2 -> length y1 = length y2 ->
    (forall side1 side2 side3 : R,
        variable_spiral_triangle_transform x1 y1 theta s e side1 side2 side3
        = variable_spiral_triangle_transform x2 y2 theta s e side1 side2 side3) /\
    (forall side_lengths : list R,
        variable_spiral_regular_ngon_transform x1 y1 theta s e side_lengths
        = variable_spiral_regular_ngon_transform x2 y2 theta s e side_lengths) /\
    (forall side_lengths : list R,
        variable_spiral_ngon_transform x1 y1 theta s e side_lengths
        = variable_spiral_ngon_transform x2 y2 theta s e side_lengths).
Proof.
  intros x1 y1 x2 y2 theta s e Hx Hy.
  unfold variable_spiral_triangle_transform, variable_spiral_regular_ngon_transform,
    variable_spiral_ngon_transform.
  rewrite (zeros_like_length_eq x1 x2 Hx), (zeros_like_length_eq y1 y2 Hy).
  repeat split; reflexivity.
Qed.

Lemma polygon_spirals_ignore_xy_witness :
  variable_spiral_triangle_transform [1; 2] [3; 4] [0; PI] 1 2 1 3 3
  = variable_spiral_triangle_transform [5; 6] [7; 8] [0; PI] 1 2 1 3 3.
Proof.
  apply (polygon_spirals_ignore_xy [1; 2] [3; 4] [5; 6] [7; 8] [0; PI] 1 2);
    reflexivity.
Defined.

(** X4.  Every transform that normalises by [theta[-1]] raises IndexError on
    an empty theta, whatever its other arguments are. *)
Theorem empty_theta_raises_index_error :
  forall (t : transform) (x y : ndarray),
    divides_by_theta_max t = true ->
    apply_transform t x y [] = Raise IndexError.
Proof.
  intros t x y H. destruct t; cbn [divides_by_theta_max] in H; try discriminate;
    reflexivity.
Qed.

Lemma empty_theta_raises_index_error_witness :
  apply_transform (PaperRotation 70) [] [] [] = Raise IndexError.
Proof. apply (empty_theta_raises_index_error (PaperRotation 70) [] []). reflexivity. Defined.

(** X5.  The vectorised transforms do not truncate or pad: when [x] and
    theta have different lengths, neither of them 1, [circular_motion],
    [mystery_lines] and [spiral_transform] raise ValueError. *)
Theorem length_mismatch_raises_value_error :
  forall (x y theta : ndarray),
    length x <> length theta -> length x <> 1%nat -> length theta <> 1%nat ->
    (forall radius speed : R,
        circular_motion x y theta radius speed = Raise ValueError) /\
    (forall spiral_rate frequency : R,
        mystery_lines x y theta spiral_rate frequency = Raise ValueError) /\
    (forall spiral_rate a b : R,
        spiral_transform x y theta spiral_rate a b = Raise ValueError).
Proof.
  intros x y theta Hne Hx Ht.
  unfold circular_motion, mystery_lines, spiral_transform.
  repeat split; intros; unfold_np.
  - rewrite broadcast_mismatch; [reflexivity | | |]; rewrite ?length_map; assumption.
  - rewrite broadcast_same by len. cbn [bind].
    rewrite broadcast_mismatch; [reflexivity | | |];
      rewrite ?zip_with_length_min, ?length_map, ?Nat.min_id; assumption.
  - rewrite broadcast_same by len. cbn [bind].
    rewrite broadcast_mismatch; [reflexivity | | |];
      rewrite ?zip_with_length_min, ?length_map, ?Nat.min_id; assumption.
Qed.

Lemma length_mismatch_raises_value_error_witness :
  circular_motion [0; 0] [0; 0] [0; 1; 2] 10 1 = Raise ValueError.
Proof.
  apply (length_mismatch_raises_value_error [0; 0] [0; 0] [0; 1; 2]); simpl; lia.
Defined.

(** X6.  [paper_rotation_transform_non_linear] with a rate-function name
    other than 'linear', 'quadratic' and 'sinusoidal' raises ValueError on a
    non-empty theta; no default rate is used. *)
Theorem unknown_rate_name_raises :
  forall (x y theta : ndarray) (degrees : R) (name : string),
    theta <> [] ->
    name <> "linear"%string -> name <> "quadratic"%string ->
    name <> "sinusoidal"%string ->
    paper_rotation_transform_non_linear x y theta degrees (RateName name)
    = Raise ValueError.
Proof.
  intros x y theta degrees name Hne H1 H2 H3.
  unfold paper_rotation_transform_non_linear.
  rewrite last_item_ok by (destruct theta; simpl; [congruence | lia]).
  cbn [bind].
  rewrite (proj2 (String.eqb_neq _ _) H1), (proj2 (String.eqb_neq _ _) H2),
    (proj2 (String.eqb_neq _ _) H3).
  reflexivity.
Qed.

Lemma unknown_rate_name_raises_witness :
  paper_rotation_transform_non_linear [1] [2] [3] 70 (RateName "cubic")
  = Raise ValueError.
Proof.
  apply (unknown_rate_name_raises [1] [2] [3] 70 "cubic"); discriminate.
Defined.

(** X7.  With the rate function 'linear',
    [paper_rotation_transform_non_linear] is [paper_rotation]. *)
Theorem non_linear_linear_is_paper_rotation :
  forall (x y theta : ndarray) (degrees : R),
    paper_rotation_transform_non_linear x y theta degrees (RateName "linear")
    = paper_rotation x y theta degrees.
Proof.
  intros x y theta degrees.
  unfold paper_rotation_transform_non_linear, paper_rotation.
  destruct (last_item theta) as [tm|e]; reflexivity.
Qed.

Lemma aligned_eq (N : nat) (x y theta a b : ndarray) (g h : R -> R -> R -> R) :
  aligned N x y theta a g -> aligned N x y theta b h ->
  (forall i : nat, (i < N)%nat ->
     g x.[i] y.[i] theta.[i] = h x.[i] y.[i] theta.[i]) ->
  a = b.
Proof.
  intros [La Pa] [Lb Pb] H.
  apply nth_ext with (d := 0) (d' := 0); [congruence|].
  intros i Hi. rewrite La in Hi. rewrite (Pa i Hi), (Pb i Hi). apply H. exact Hi.
Qed.

Lemma rotate_sample_compose (a b xi yi : R) :
  rotate_sample b (fst (rotate_sample a xi yi)) (snd (rotate_sample a xi yi))
  = rotate_sample (a + b) xi yi.
Proof.
  unfold rotate_sample. cbn [fst snd]. rewrite cos_plus, sin_plus.
  apply f_equal2; ring.
Qed.

Lemma last_theta_ratio (theta : ndarray) (N : nat) :
  length theta = N -> last theta 0 <> 0 ->
  theta.[N - 1] / last theta 0 = 1.
Proof.
  intros Ht Hmax. rewrite (last_nth theta), Ht. rewrite last_nth, Ht in Hmax.
  field. exact Hmax.
Qed.

Lemma scaled_cos_le_abs (u c : R) : -1 <= c <= 1 -> u * c <= Rabs u.
Proof.
  intros [H1 H2]. unfold Rabs. destruct (Rcase_abs u); nra.
Qed.

Lemma abs_sum_sqr (a d : R) :
  (Rabs a + Rabs d) ^ 2 = a ^ 2 + d ^ 2 + Rabs (2 * a * d).
Proof.
  replace ((Rabs a + Rabs d) ^ 2)
    with ((Rabs a) ^ 2 + (Rabs d) ^ 2 + 2 * (Rabs a * Rabs d)) by ring.
  rewrite !pow2_abs, !Rabs_mult, (Rabs_right 2) by lra.
  ring.
Qed.

(** X8.  Each of the three named rate functions starts without rotation and
    ends at the full rotation: with a nonzero last theta element, a sample
    whose theta is 0 is returned unchanged, and the last sample is rotated by
    the whole of [degrees]. *)
Theorem rate_functions_endpoints :
  forall (x y theta : ndarray) (degrees : R) (name : string) (N : nat),
    name = "linear"%string \/ name = "quadratic"%string \/ name = "sinusoidal"%string ->
    length x = N -> length y = N -> length theta = N -> (1 <= N)%nat ->
    last theta 0 <> 0 ->
    exists x' y' : ndarray,
      paper_rotation_transform_non_linear x y theta degrees (RateName name)
      = Ok (x', y') /\
      (last x' 0, last y' 0) = rotate_sample (deg2rad degrees) (last x 0) (last y 0) /\
      forall i : nat, (i < N)%nat -> theta.[i] = 0 ->
        x'.[i] = x.[i] /\ y'.[i] = y.[i].
Proof.
  intros x y theta degrees name N Hname Hx Hy Ht HN Hmax.
  destruct (paper_rotation_non_linear_ok degrees (RateName name) x y theta N
              Hname I Hx Hy Ht HN)
    as (x' & y' & E & [Lx Px] & [Ly Py]).
  cbn [apply_transform sample_point] in E, Px, Py.
  exists x', y'. split; [exact E|]. split.
  - rewrite (last_nth x'), (last_nth y'), (last_nth x), (last_nth y), Lx, Ly, Hx, Hy.
    rewrite Px, Py by lia. rewrite (last_theta_ratio theta N Ht Hmax).
    assert (R1 : rate_sample (RateName name) 1 = 1).
    { destruct Hname as [-> | [-> | ->]]; cbn [rate_sample String.eqb Ascii.eqb Bool.eqb].
      - reflexivity.
      - ring.
      - replace (1 * PI / 2) with (PI / 2) by field. apply sin_PI2. }
    rewrite R1, Rmult_1_l.
    destruct (rotate_sample (deg2rad degrees) x.[N - 1] y.[N - 1]); reflexivity.
  - intros i Hi Hz. rewrite (Px i Hi), (Py i Hi), Hz.
    assert (R0 : rate_sample (RateName name) (0 / last theta 0) = 0).
    { replace (0 / last theta 0) with 0 by (unfold Rdiv; ring).
      destruct Hname as [-> | [-> | ->]]; cbn [rate_sample String.eqb Ascii.eqb Bool.eqb].
      - reflexivity.
      - ring.
      - replace (0 * PI / 2) with 0 by field. apply sin_0. }
    rewrite R0, Rmult_0_l. unfold rotate_sample. cbn [fst snd].
    rewrite cos_0, sin_0. split; ring.
Qed.

Lemma rate_functions_endpoints_witness :
  exists x' y' : ndarray,
    paper_rotation_transform_non_linear [1; 2] [3; 4] [0; PI] 70 (RateName "quadratic")
    = Ok (x', y') /\
    (last x' 0, last y' 0)
    = rotate_sample (deg2rad 70) (last [1; 2] 0) (last [3; 4] 0) /\
    forall i : nat, (i < 2)%nat -> [0; PI].[i] = 0 ->
      x'.[i] = [1; 2].[i] /\ y'.[i] = [3; 4].[i].
Proof.
  apply (rate_functions_endpoints [1; 2] [3; 4] [0; PI] 70 "quadratic" 2%nat);
    try reflexivity; try lia.
  - right. left. reflexivity.
  - simpl. apply PI_neq0.
Defined.

(** X9.  Paper rotations compose by adding their angles: rotating by
    [d1] degrees and then by [d2] degrees over the same theta gives the
    result of one rotation by [d1 + d2] degrees. *)
Theorem paper_rotation_composes :
  forall (x y theta : ndarray) (d1 d2 : R) (N : nat),
    length x = N -> length y = N -> length theta = N -> (1 <= N)%nat ->
    exists (x1 y1 : ndarray) (xy : ndarray * ndarray),
      paper_rotation x y theta d1 = Ok (x1, y1) /\
      paper_rotation x1 y1 theta d2 = Ok xy /\
      paper_rotation x y theta (d1 + d2) = Ok xy.
Proof.
  intros x y theta d1 d2 N Hx Hy Ht HN.
  destruct (paper_rotation_ok d1 x y theta N I I Hx Hy Ht HN)
    as (x1 & y1 & E1 & [Lx1 Px1] & [Ly1 Py1]).
  destruct (paper_rotation_ok d2 x1 y1 theta N I I Lx1 Ly1 Ht HN)
    as (x2 & y2 & E2 & [Lx2 Px2] & [Ly2 Py2]).
  destruct (paper_rotation_ok (d1 + d2) x y theta N I I Hx Hy Ht HN)
    as (x3 & y3 & E3 & [Lx3 Px3] & [Ly3 Py3]).
  cbn [apply_transform sample_point] in *.
  assert (K : forall i : nat, (i < N)%nat ->
                x2.[i] = x3.[i] /\ y2.[i] = y3.[i]).
  { intros i Hi.
    rewrite (Px2 i Hi), (Py2 i Hi), (Px3 i Hi), (Py3 i Hi), (Px1 i Hi), (Py1 i Hi).
    rewrite rotate_sample_compose.
    replace (theta.[i] / last theta 0 * deg2rad d1
             + theta.[i] / last theta 0 * deg2rad d2)
      with (theta.[i] / last theta 0 * deg2rad (d1 + d2))
      by (unfold deg2rad; ring).
    split; reflexivity. }
  assert (X : x2 = x3).
  { apply nth_ext with (d := 0) (d' := 0); [congruence|].
    intros i Hi. apply K. lia. }
  assert (Y : y2 = y3).
  { apply nth_ext with (d := 0) (d' := 0); [congruence|].
    intros i Hi. apply K. lia. }
  exists x1, y1, (x2, y2). split; [exact E1|]. split; [exact E2|].
  rewrite X, Y. exact E3.
Qed.

Lemma paper_rotation_composes_witness :
  exists (x1 y1 : ndarray) (xy : ndarray * ndarray),
    paper_rotation [1; 2] [3; 4] [0; PI] 30 = Ok (x1, y1) /\
    paper_rotation x1 y1 [0; PI] 40 = Ok xy /\
    paper_rotation [1; 2] [3; 4] [0; PI] (30 + 40) = Ok xy.
Proof.
  apply (paper_rotation_composes [1; 2] [3; 4] [0; PI] 30 40 2%nat);
    try reflexivity; lia.
Defined.

(** X10.  Additive transforms commute: a chain of two additive transforms
    gives the same coordinates in either order. *)
Theorem additive_transforms_commute :
  forall (t1 t2 : transform) (x y theta : ndarray) (N : nat),
    additive t1 = true -> additive t2 = true ->
    valid_params t1 -> valid_params t2 ->
    length x = N -> length y = N -> length theta = N -> (1 <= N)%nat ->
    exists xy : ndarray * ndarray,
      run_chain [t1; t2] theta x y = Ok xy /\
      run_chain [t2; t1] theta x y = Ok xy.
Proof.
  intros t1 t2 x y theta N A1 A2 V1 V2 Hx Hy Ht HN.
  pose proof (additive_valid_theta t1 theta A1) as T1.
  pose proof (additive_valid_theta t2 theta A2) as T2.
  destruct (apply_transform_ok t1 x y theta N V1 T1 Hx Hy Ht HN)
    as (xa & ya & Ea & [Lxa Pxa] & [Lya Pya]).
  destruct (apply_transform_ok t2 xa ya theta N V2 T2 Lxa Lya Ht HN)
    as (xab & yab & Eab & [Lxab Pxab] & [Lyab Pyab]).
  destruct (apply_transform_ok t2 x y theta N V2 T2 Hx Hy Ht HN)
    as (xb & yb & Eb & [Lxb Pxb] & [Lyb Pyb]).
  destruct (apply_transform_ok t1 xb yb theta N V1 T1 Lxb Lyb Ht HN)
    as (xba & yba & Eba & [Lxba Pxba] & [Lyba Pyba]).
  assert (K : forall i : nat, (i < N)%nat ->
                xab.[i] = xba.[i] /\ yab.[i] = yba.[i]).
  { intros i Hi.
    rewrite (Pxab i Hi), (Pyab i Hi), (Pxba i Hi), (Pyba i Hi).
    rewrite (additive_sample t2 _ xa.[i] ya.[i]) by exact A2.
    rewrite (additive_sample t1 _ xb.[i] yb.[i]) by exact A1.
    rewrite (Pxa i Hi), (Pya i Hi), (Pxb i Hi), (Pyb i Hi).
    rewrite (additive_sample t1 _ x.[i] y.[i]) by exact A1.
    rewrite (additive_sample t2 _ x.[i] y.[i]) by exact A2.
    cbn [fst snd]. split; ring. }
  assert (X : xab = xba).
  { apply nth_ext with (d := 0) (d' := 0); [congruence|].
    intros i Hi. apply K. lia. }
  assert (Y : yab = yba).
  { apply nth_ext with (d := 0) (d' := 0); [congruence|].
    intros i Hi. apply K. lia. }
  exists (xab, yab). unfold run_chain. cbn [for_each].
  rewrite Ea. cbn [bind]. rewrite Eab. cbn [bind].
  rewrite Eb. cbn [bind]. rewrite Eba. cbn [bind].
  rewrite X, Y. split; reflexivity.
Qed.

Lemma additive_transforms_commute_witness :
  exists xy : ndarray * ndarray,
    run_chain [CircularMotion 100 1; Spiral 2 1 1] [0; PI] [1; 2] [3; 4] = Ok xy /\
    run_chain [Spiral 2 1 1; CircularMotion 100 1] [0; PI] [1; 2] [3; 4] = Ok xy.
Proof.
  apply (additive_transforms_commute (CircularMotion 100 1) (Spiral 2 1 1)
           [1; 2] [3; 4] [0; PI] 2%nat);
    try reflexivity; try exact I; lia.
Defined.

(** X11.  [linear_translation_transform] leaves a sample whose theta is 0
    where it is and moves the last sample by [total_distance] along the
    movement angle (the last theta element being nonzero). *)
Theorem linear_translation_endpoints :
  forall (x y theta : ndarray) (total_distance movement_angle_degrees : R) (N : nat),
    length x = N -> length y = N -> length theta = N -> (1 <= N)%nat ->
    last theta 0 <> 0 ->
    exists x' y' : ndarray,
      linear_translation_transform x y theta total_distance movement_angle_degrees
      = Ok (x', y') /\
      last x' 0 = last x 0 + total_distance * cos (deg2rad movement_angle_degrees) /\
      last y' 0 = last y 0 + total_distance * sin (deg2rad movement_angle_degrees) /\
      forall i : nat, (i < N)%nat -> theta.[i] = 0 ->
        x'.[i] = x.[i] /\ y'.[i] = y.[i].
Proof.
  intros x y theta dist ang N Hx Hy Ht HN Hmax.
  destruct (linear_translation_ok dist ang x y theta N I I Hx Hy Ht HN)
    as (x' & y' & E & [Lx Px] & [Ly Py]).
  cbn [apply_transform sample_point fst snd] in E, Px, Py.
  exists x', y'. split; [exact E|].
  rewrite (last_nth x'), (last_nth y'), (last_nth x), (last_nth y), Lx, Ly, Hx, Hy.
  rewrite Px, Py by lia. rewrite (last_theta_ratio theta N Ht Hmax).
  split; [ring|]. split; [ring|].
  intros i Hi Hz. rewrite (Px i Hi), (Py i Hi), Hz. unfold Rdiv. split; ring.
Qed.

Lemma linear_translation_endpoints_witness :
  exists x' y' : ndarray,
    linear_translation_transform [1; 2] [3; 4] [0; PI] 400 45 = Ok (x', y') /\
    last x' 0 = last [1; 2] 0 + 400 * cos (deg2rad 45) /\
    last y' 0 = last [3; 4] 0 + 400 * sin (deg2rad 45) /\
    forall i : nat, (i < 2)%nat -> [0; PI].[i] = 0 ->
      x'.[i] = [1; 2].[i] /\ y'.[i] = [3; 4].[i].
Proof.
  apply (linear_translation_endpoints [1; 2] [3; 4] [0; PI] 400 45 2%nat);
    try reflexivity; try lia.
  simpl. apply PI_neq0.
Defined.

(** X12.  A trochoid stays within reach: every sample of
    [spirograph_transform] is displaced by at most [|R - r| + |d|]
    (hypotrochoid) or [|R + r| + |d|] (epitrochoid) from its incoming
    position. *)
Theorem spirograph_displacement_bounded :
  forall (x y theta : ndarray) (R r d : R) (mode : string) (N : nat),
    mode = "hypotrochoid"%string \/ mode = "epitrochoid"%string -> r <> 0 ->
    length x = N -> length y = N -> length theta = N -> (1 <= N)%nat ->
    exists x' y' : ndarray,
      spirograph_transform x y theta R r d mode = Ok (x', y') /\
      forall i : nat, (i < N)%nat ->
        (x'.[i] - x.[i]) ^ 2 + (y'.[i] - y.[i]) ^ 2
        <= (Rabs (if String.eqb mode "hypotrochoid" then R - r else R + r) + Rabs d) ^ 2.
Proof.
  intros x y theta R r d mode N Hm Hr Hx Hy Ht HN.
  destruct (spirograph_ok R r d mode x y theta N (conj Hm Hr) I Hx Hy Ht HN)
    as (x' & y' & E & [Lx Px] & [Ly Py]).
  cbn [apply_transform sample_point] in E, Px, Py.
  exists x', y'. split; [exact E|].
  intros i Hi. rewrite (Px i Hi), (Py i Hi). rewrite abs_sum_sqr.
  destruct Hm as [-> | ->]; cbn [String.eqb Ascii.eqb Bool.eqb fst snd].
  - set (t := theta.[i]). set (k := (R - r) / r * t).
    replace ((x.[i] + (R - r) * cos t + d * cos k - x.[i]) ^ 2
             + (y.[i] + (R - r) * sin t - d * sin k - y.[i]) ^ 2)
      with ((R - r) ^ 2 * (sin t * sin t + cos t * cos t)
            + d ^ 2 * (sin k * sin k + cos k * cos k)
            + 2 * (R - r) * d * (cos t * cos k - sin t * sin k)) by ring.
    pose proof (sin2_cos2 t) as H1. pose proof (sin2_cos2 k) as H2.
    unfold Rsqr in H1, H2. rewrite H1, H2, <- cos_plus.
    pose proof (scaled_cos_le_abs (2 * (R - r) * d) (cos (t + k)) (COS_bound _)).
    lra.
  - set (t := theta.[i]). set (k := (R + r) / r * t).
    replace ((x.[i] + (R + r) * cos t - d * cos k - x.[i]) ^ 2
             + (y.[i] + (R + r) * sin t - d * sin k - y.[i]) ^ 2)
      with ((R + r) ^ 2 * (sin t * sin t + cos t * cos t)
            + d ^ 2 * (sin k * sin k + cos k * cos k)
            + 2 * (R + r) * d * (- (cos t * cos k + sin t * sin k))) by ring.
    pose proof (sin2_cos2 t) as H1. pose proof (sin2_cos2 k) as H2.
    unfold Rsqr in H1, H2. rewrite H1, H2, <- cos_minus.
    assert (B : -1 <= - cos (t - k) <= 1)
      by (pose proof (COS_bound (t - k)); lra).
    pose proof (scaled_cos_le_abs (2 * (R + r) * d) (- cos (t - k)) B).
    lra.
Qed.

Lemma spirograph_displacement_bounded_witness :
  exists x' y' : ndarray,
    spirograph_transform [1; 2] [3; 4] [0; PI] 500 200 500 "hypotrochoid" = Ok (x', y') /\
    forall i : nat, (i < 2)%nat ->
      (x'.[i] - [1; 2].[i]) ^ 2 + (y'.[i] - [3; 4].[i]) ^ 2
      <= (Rabs (if String.eqb "hypotrochoid" "hypotrochoid"
                then 500 - 200 else 500 + 200) + Rabs 500) ^ 2.
Proof.
  apply (spirograph_displacement_bounded [1; 2] [3; 4] [0; PI] 500 200 500
           "hypotrochoid" 2%nat);
    try reflexivity; try lia; [left; reflexivity | lra].
Defined.

Lemma for_each_app {A S : Type} (l1 l2 : list A) (body : A -> S -> result S) (s : S) :
  for_each (l1 ++ l2) body s
  = (s' <- for_each l1 body s;; for_each l2 body s').
Proof.
  revert s. induction l1 as [|a l1 IH]; intros s; cbn [for_each app bind].
  - reflexivity.
  - destruct (body a s) as [s1|e]; cbn [bind]; [apply IH | reflexivity].
Qed.

Lemma enumerate_from_app {A : Type} (k : nat) (l1 l2 : list A) :
  enumerate_from k (l1 ++ l2)
  = enumerate_from k l1 ++ enumerate_from (k + length l1) l2.
Proof.
  revert k. induction l1 as [|a l1 IH]; intros k; cbn [enumerate_from app length].
  - rewrite Nat.add_0_r. reflexivity.
  - rewrite IH. replace (S k + length l1)%nat with (k + S (length l1))%nat by lia.
    reflexivity.
Qed.

Lemma getitem_out (a : ndarray) (i : nat) :
  (length a <= i)%nat -> getitem a i = Raise IndexError.
Proof.
  intros H. unfold getitem. destruct (Nat.ltb_spec i (length a)); [lia | reflexivity].
Qed.

Lemma setitem_out (a : ndarray) (i : nat) (v : R) :
  (length a <= i)%nat -> setitem a i v = Raise IndexError.
Proof.
  intros H. unfold setitem. destruct (Nat.ltb_spec i (length a)); [lia | reflexivity].
Qed.

Lemma spirograph_rectangle_body_out (w h g tp p : R) (i : nat) (a : R)
    (xt yt : ndarray) :
  (length xt <= i)%nat \/ (length yt <= i)%nat ->
  spirograph_rectangle_body w h g tp p (i, a) (xt, yt) = Raise IndexError.
Proof.
  intros H. unfold spirograph_rectangle_body.
  destruct (Rlt_dec (np_mod (g * a) p) w);
    [| destruct (Rlt_dec (np_mod (g * a) p) (w + h));
       [| destruct (Rlt_dec (np_mod (g * a) p) (2 * w + h)) ] ];
    (destruct (Nat.le_gt_cases (length xt) i) as [Hx|Hx];
     [ rewrite getitem_out by exact Hx; reflexivity
     | assert (Hy : (length yt <= i)%nat) by lia;
       item_run; rewrite getitem_out by exact Hy; reflexivity ]).
Qed.

Lemma variable_spiral_triangle_body_out (v1 v2 v3 : R * R) (r : ndarray)
    (i : nat) (a : R) (xt yt : ndarray) :
  (length xt <= i)%nat \/ (length yt <= i)%nat ->
  variable_spiral_triangle_body v1 v2 v3 r (i, a) (xt, yt) = Raise IndexError.
Proof.
  intros H. unfold variable_spiral_triangle_body.
  destruct (Rlt_dec (np_mod a (2 * PI)) (2 * PI / 3));
    [| destruct (Rlt_dec (np_mod a (2 * PI)) (4 * PI / 3)) ];
    (destruct (Nat.le_gt_cases (length xt) i) as [Hx|Hx];
     [ rewrite setitem_out by exact Hx; reflexivity
     | assert (Hy : (length yt <= i)%nat) by lia;
       item_run; rewrite setitem_out by exact Hy; reflexivity ]).
Qed.

(** A loop whose body writes index [i] of both arrays stops with IndexError
    at the first index outside one of them. *)
Lemma for_each_enumerate_out
    (body : nat * R -> ndarray * ndarray -> result (ndarray * ndarray))
    (gx gy : nat -> R -> R -> R) (x y theta : ndarray) :
  (forall (i : nat) (a : R) (xt yt : ndarray),
      (i < Nat.min (length x) (length y))%nat ->
      (i < length xt)%nat -> (i < length yt)%nat ->
      body (i, a) (xt, yt)
      = Ok (update xt i (gx i a xt.[i]), update yt i (gy i a yt.[i]))) ->
  (forall (i : nat) (a : R) (xt yt : ndarray),
      (length xt <= i)%nat \/ (length yt <= i)%nat ->
      body (i, a) (xt, yt) = Raise IndexError) ->
  (Nat.min (length x) (length y) < length theta)%nat ->
  for_each (enumerate theta) body (x, y) = Raise IndexError.
Proof.
  intros Hin Hout Hlen. set (m := Nat.min (length x) (length y)) in *.
  rewrite <- (firstn_skipn m theta). unfold enumerate.
  rewrite enumerate_from_app, for_each_app.
  assert (Lf : length (firstn m theta) = m) by (rewrite length_firstn; lia).
  destruct (for_each_update body gx gy m (fun _ => True)
              (fun i a xt yt _ => Hin i a xt yt)
              (firstn m theta) (Forall_any_angle _) 0 x y)
    as (xt & yt & E & Lx & Ly & _); try (rewrite Lf; unfold m; lia).
  rewrite E. cbn [bind]. rewrite Lf.
  destruct (skipn m theta) as [|a rest] eqn:Es.
  - pose proof (length_skipn m theta) as Ls. rewrite Es in Ls. simpl in Ls. lia.
  - cbn [enumerate_from for_each]. rewrite Hout; [reflexivity|].
    rewrite Lx, Ly. unfold m. simpl. lia.
Qed.

(** X13.  When theta is longer than [x] or [y], the loops of
    [spirograph_rectangle_transform] and
    [variable_spiral_triangle_transform] raise IndexError at the first index
    outside the shorter array; nothing is returned. *)
Theorem theta_longer_than_coordinates_raises :
  forall (x y theta : ndarray),
    (Nat.min (length x) (length y) < length theta)%nat ->
    (forall rect_width rect_height gear_radius tracing_point_dist : R,
        spirograph_rectangle_transform x y theta
          rect_width rect_height gear_radius tracing_point_dist
        = Raise IndexError) /\
    (forall start_rate end_rate side1 side2 side3 : R,
        variable_spiral_triangle_transform x y theta
          start_rate end_rate side1 side2 side3
        = Raise IndexError).
Proof.
  intros x y theta Hlen. split.
  - intros w h g tp. unfold spirograph_rectangle_transform.
    apply (for_each_enumerate_out _
             (fun _ a old => fst (rectangle_sample w h g tp old 0 a))
             (fun _ a old => snd (rectangle_sample w h g tp 0 old a))).
    + intros i a xt yt _. apply spirograph_rectangle_body_updates.
    + intros i a xt yt. apply spirograph_rectangle_body_out.
    + exact Hlen.
  - intros s e side1 side2 side3. unfold variable_spiral_triangle_transform.
    rewrite last_item_ok by lia. cbn [bind].
    rewrite radial_distance_ok. cbn [bind].
    set (r := map (radial_sample s e (last theta 0)) theta).
    assert (Lr : length r = length theta) by (unfold r; len).
    apply (for_each_enumerate_out _
             (fun i a _ => fst (triangle_sample side1 side3 r.[i] a))
             (fun i a _ => snd (triangle_sample side1 side3 r.[i] a))).
    + intros i a xt yt Hi. apply variable_spiral_triangle_body_updates.
      revert Hi. unfold zeros_like. rewrite !length_map. lia.
    + intros i a xt yt. apply variable_spiral_triangle_body_out.
    + revert Hlen. unfold zeros_like. rewrite !length_map. lia.
Qed.

Lemma theta_longer_than_coordinates_raises_witness :
  spirograph_rectangle_transform [0; 0] [0; 0] [0; 1; 2] 30 30 15 10
  = Raise IndexError.
Proof.
  apply (theta_longer_than_coordinates_raises [0; 0] [0; 0] [0; 1; 2]). simpl. lia.
Defined.

Lemma rectangle_center_on_boundary (w h d : R) :
  0 < w -> 0 < h -> 0 <= d <= 2 * (w + h) ->
  let c :=
    if Rlt_dec d w then (- w / 2 + d, h / 2)
    else if Rlt_dec d (w + h) then (w / 2, h / 2 - (d - w))
    else if Rlt_dec d (2 * w + h) then (w / 2 - (d - (w + h)), - h / 2)
    else (- w / 2, - h / 2 + (d - (2 * w + h))) in
  on_rectangle w h (fst c) (snd c).
Proof.
  intros Hw Hh [H0 H1]. cbv zeta. unfold on_rectangle.
  destruct (Rlt_dec d w);
    [| destruct (Rlt_dec d (w + h)); [| destruct (Rlt_dec d (2 * w + h)) ] ];
    cbn [fst snd].
  - right. split; [apply Rabs_right; lra | apply Rabs_le; lra].
  - left. split; [apply Rabs_right; lra | apply Rabs_le; lra].
  - right. split.
    + replace (- h / 2) with (- (h / 2)) by field.
      rewrite Rabs_Ropp. apply Rabs_right; lra.
    + apply Rabs_le; lra.
  - left. split.
    + replace (- w / 2) with (- (w / 2)) by field.
      rewrite Rabs_Ropp. apply Rabs_right; lra.
    + apply Rabs_le; lra.
Qed.

(** X14.  In [spirograph_rectangle_transform] with positive width and
    height, every output sample is its incoming position plus a gear centre
    on the boundary of the rectangle plus the tracing point at distance
    [tracing_point_dist] from that centre, turned by
    [theta * (width + height) / gear_radius]. *)
Theorem rectangle_gear_center_on_boundary :
  forall (x y theta : ndarray)
         (rect_width rect_height gear_radius tracing_point_dist : R) (N : nat),
    0 < rect_width -> 0 < rect_height ->
    length x = N -> length y = N -> length theta = N -> (1 <= N)%nat ->
    exists x' y' : ndarray,
      spirograph_rectangle_transform x y theta
        rect_width rect_height gear_radius tracing_point_dist = Ok (x', y') /\
      forall i : nat, (i < N)%nat ->
        exists cx cy : R,
          on_rectangle rect_width rect_height cx cy /\
          let gear_rotation := theta.[i] * (rect_width + rect_height) / gear_radius in
          x'.[i] = x.[i] + (cx + tracing_point_dist * cos gear_rotation) /\
          y'.[i] = y.[i] + (cy + tracing_point_dist * sin gear_rotation).
Proof.
  intros x y theta w h g tp N Hw Hh Hx Hy Ht HN.
  destruct (spirograph_rectangle_ok w h g tp x y theta N I I Hx Hy Ht HN)
    as (x' & y' & E & [Lx Px] & [Ly Py]).
  cbn [apply_transform sample_point] in E, Px, Py.
  exists x', y'. split; [exact E|].
  intros i Hi. rewrite (Px i Hi), (Py i Hi). unfold rectangle_sample. cbn [fst snd].
  assert (B : 0 <= np_mod (g * theta.[i]) (2 * (w + h)) <= 2 * (w + h))
    by (apply np_mod_range; lra).
  pose proof (rectangle_center_on_boundary w h _ Hw Hh B) as C. cbv zeta in C.
  eexists. eexists. split; [exact C|]. cbv zeta. split; reflexivity.
Qed.

Lemma rectangle_gear_center_on_boundary_witness :
  exists x' y' : ndarray,
    spirograph_rectangle_transform [1; 2] [3; 4] [0; PI] 30 30 15 10 = Ok (x', y') /\
    forall i : nat, (i < 2)%nat ->
      exists cx cy : R,
        on_rectangle 30 30 cx cy /\
        let gear_rotation := [0; PI].[i] * (30 + 30) / 15 in
        x'.[i] = [1; 2].[i] + (cx + 10 * cos gear_rotation) /\
        y'.[i] = [3; 4].[i] + (cy + 10 * sin gear_rotation).
Proof.
  apply (rectangle_gear_center_on_boundary [1; 2] [3; 4] [0; PI] 30 30 15 10 2%nat);
    try reflexivity; try lra; lia.
Defined.

(** X15.  In [variable_spiral_triangle_transform] every output sample is the
    radial distance [r(theta[i])] times a point of one of the three edges
    vertex1-vertex2, vertex2-vertex3, vertex3-vertex1, at an edge fraction in
    [[0, 1)]; the vertices depend on [side1] and [side3] only. *)
Theorem triangle_samples_on_edges :
  forall (x y theta : ndarray) (start_rate end_rate side1 side2 side3 : R) (N : nat),
    length x = N -> length y = N -> length theta = N -> (1 <= N)%nat ->
    exists x' y' : ndarray,
      variable_spiral_triangle_transform x y theta start_rate end_rate side1 side2 side3
      = Ok (x', y') /\
      forall i : nat, (i < N)%nat ->
        exists (p q : R * R) (t : R),
          ((p = triangle_vertex1 /\ q = triangle_vertex2 side1) \/
           (p = triangle_vertex2 side1 /\ q = triangle_vertex3 side3) \/
           (p = triangle_vertex3 side3 /\ q = triangle_vertex1)) /\
          0 <= t < 1 /\
          let r := radial_sample start_rate end_rate (last theta 0) theta.[i] in
          x'.[i] = r * fst (edge_point p q t) /\
          y'.[i] = r * snd (edge_point p q t).
Proof.
  intros x y theta s e side1 side2 side3 N Hx Hy Ht HN.
  destruct (variable_spiral_triangle_ok s e side1 side2 side3 x y theta N I I Hx Hy Ht HN)
    as (x' & y' & E & [Lx Px] & [Ly Py]).
  cbn [apply_transform sample_point] in E, Px, Py.
  exists x', y'. split; [exact E|].
  intros i Hi. rewrite (Px i Hi), (Py i Hi). unfold triangle_sample.
  pose proof PI_RGT_0 as Hpi.
  assert (B : 0 <= np_mod theta.[i] (2 * PI) <= 2 * PI)
    by (apply np_mod_range; lra).
  set (na := np_mod theta.[i] (2 * PI)) in *.
  assert (Hseg : 0 < 2 * PI / 3) by lra.
  destruct (Rlt_dec na (2 * PI / 3));
    [| destruct (Rlt_dec na (4 * PI / 3)) ].
  - exists triangle_vertex1, (triangle_vertex2 side1), (na / (2 * PI / 3)).
    split; [left; split; reflexivity|]. split; [|cbv zeta; split; reflexivity].
    split.
    + apply Rmult_le_pos; [lra | left; apply Rinv_0_lt_compat; exact Hseg].
    + apply Rmult_lt_reg_r with (2 * PI / 3); [exact Hseg|].
      replace (na / (2 * PI / 3) * (2 * PI / 3)) with na by (field; lra). lra.
  - exists (triangle_vertex2 side1), (triangle_vertex3 side3),
      ((na - 2 * PI / 3) / (2 * PI / 3)).
    split; [right; left; split; reflexivity|]. split; [|cbv zeta; split; reflexivity].
    split.
    + apply Rmult_le_pos; [lra | left; apply Rinv_0_lt_compat; exact Hseg].
    + apply Rmult_lt_reg_r with (2 * PI / 3); [exact Hseg|].
      replace ((na - 2 * PI / 3) / (2 * PI / 3) * (2 * PI / 3))
        with (na - 2 * PI / 3) by (field; lra).
      lra.
  - destruct (Req_dec_T na (2 * PI)) as [Efull | Hnot].
    + (* the remainder is the divisor: the end of the third edge is vertex1,
         the start of the first *)
      exists triangle_vertex1, (triangle_vertex2 side1), 0.
      split; [left; split; reflexivity|]. split; [lra|]. cbv zeta.
      replace ((na - 4 * PI / 3) / (2 * PI / 3)) with 1 by (rewrite Efull; field; lra).
      unfold edge_point, triangle_vertex1, triangle_vertex2. cbn [fst snd].
      split; ring.
    + exists (triangle_vertex3 side3), triangle_vertex1,
        ((na - 4 * PI / 3) / (2 * PI / 3)).
      split; [right; right; split; reflexivity|].
      split; [|cbv zeta; split; reflexivity].
      split.
      * apply Rmult_le_pos; [lra | left; apply Rinv_0_lt_compat; exact Hseg].
      * apply Rmult_lt_reg_r with (2 * PI / 3); [exact Hseg|].
        replace ((na - 4 * PI / 3) / (2 * PI / 3) * (2 * PI / 3))
          with (na - 4 * PI / 3) by (field; lra).
        lra.
Qed.

Lemma triangle_samples_on_edges_witness :
  exists x' y' : ndarray,
    variable_spiral_triangle_transform [1; 2] [3; 4] [0; PI] 0.9 0.01 1 3 3 = Ok (x', y') /\
    forall i : nat, (i < 2)%nat ->
      exists (p q : R * R) (t : R),
        ((p = triangle_vertex1 /\ q = triangle_vertex2 1) \/
         (p = triangle_vertex2 1 /\ q = triangle_vertex3 3) \/
         (p = triangle_vertex3 3 /\ q = triangle_vertex1)) /\
        0 <= t < 1 /\
        let r := radial_sample 0.9 0.01 (last [0; PI] 0) [0; PI].[i] in
        x'.[i] = r * fst (edge_point p q t) /\
        y'.[i] = r * snd (edge_point p q t).
Proof.
  apply (triangle_samples_on_edges [1; 2] [3; 4] [0; PI] 0.9 0.01 1 3 3 2%nat);
    try reflexivity; lia.
Defined.

Lemma ngon_vertex_body_ok (sides : list R) (i : nat) (cv : R * R) (ca : R)
    (vs : list (R * R)) :
  Forall (fun s => s <> 0) sides -> (1 <= i < length sides)%nat ->
  exists ang : R,
    ngon_vertex_body sides (length sides) i (cv, ca, vs)
    = Ok ((fst cv + nth i sides 0 * cos ang, snd cv + nth i sides 0 * sin ang),
          ang,
          vs ++ [(fst cv + nth i sides 0 * cos ang, snd cv + nth i sides 0 * sin ang)]).
Proof.
  intros Hnz Hi. unfold ngon_vertex_body.
  rewrite (getitem_int_ok sides (Z.of_nat i - 1) 0) by lia. cbn [bind].
  rewrite (getitem_int_ok sides (Z.of_nat i) 0) by lia. cbn [bind].
  rewrite (getitem_int_ok sides _ 0) by (apply Z.mod_pos_bound; lia). cbn [bind].
  rewrite Nat2Z.id.
  rewrite py_div_ok.
  2:{ assert (nth (Z.to_nat (Z.of_nat i - 1)) sides 0 <> 0)
        by (apply Forall_nth_nonzero; [assumption | lia]).
      assert (nth i sides 0 <> 0) by (apply Forall_nth_nonzero; [assumption | lia]).
      apply Rmult_integral_contrapositive_currified; [|assumption].
      apply Rmult_integral_contrapositive_currified; [lra | assumption]. }
  cbn [bind fst snd]. eexists. reflexivity.
Qed.

Lemma ngon_vertex_loop_edges (sides : list R) :
  Forall (fun s => s <> 0) sides ->
  forall (m k : nat) (cv : R * R) (ca : R) (vs : list (R * R)),
    length vs = k -> (1 <= k)%nat -> nth (k - 1) vs (0, 0) = cv ->
    (k + m <= length sides)%nat ->
    exists (cv' : R * R) (ca' : R) (vs' : list (R * R)),
      for_each (seq k m) (ngon_vertex_body sides (length sides)) (cv, ca, vs)
      = Ok (cv', ca', vs') /\
      length vs' = (k + m)%nat /\
      (forall j : nat, (j < k)%nat -> nth j vs' (0, 0) = nth j vs (0, 0)) /\
      (forall j : nat, (k <= j < k + m)%nat ->
         dist2 (nth (j - 1) vs' (0, 0)) (nth j vs' (0, 0)) = (nth j sides 0) ^ 2).
Proof.
  intros Hnz. induction m as [|m IH]; intros k cv ca vs Lvs Hk Hcv Hbound.
  - exists cv, ca, vs. cbn [seq for_each]. repeat split; auto; try lia.
  - cbn [seq for_each].
    destruct (ngon_vertex_body_ok sides k cv ca vs Hnz ltac:(lia)) as (ang & Eb).
    rewrite Eb. cbn [bind].
    set (next := (fst cv + nth k sides 0 * cos ang, snd cv + nth k sides 0 * sin ang)) in *.
    destruct (IH (S k) next ang (vs ++ [next])) as (cv' & ca' & vs' & E & L & Pold & Pnew).
    + rewrite length_app. simpl. lia.
    + lia.
    + replace (S k - 1)%nat with k by lia.
      rewrite app_nth2 by lia. rewrite Lvs, Nat.sub_diag. reflexivity.
    + lia.
    + exists cv', ca', vs'. split; [exact E|]. split; [rewrite L; lia|]. split.
      * intros j Hj. rewrite Pold by lia. apply app_nth1. lia.
      * intros j Hj. destruct (Nat.eq_dec j k) as [-> | Hne].
        -- rewrite !Pold by lia.
           rewrite app_nth1 by lia. rewrite Hcv.
           rewrite app_nth2 by lia. rewrite Lvs, Nat.sub_diag. cbn [nth].
           unfold dist2, next. cbn [fst snd].
           rewrite <- (cos_sin_norm ang (nth k sides 0)). ring.
        -- apply Pnew. lia.
Qed.

(** X16.  For a non-empty list of nonzero side lengths [ngon_vertices]
    returns as many vertices as there are sides, starting at (0, 1), and the
    edge from vertex [i - 1] to vertex [i] has the length of side [i]. *)
Theorem ngon_vertices_edges :
  forall side_lengths : list R,
    side_lengths <> [] -> Forall (fun s => s <> 0) side_lengths ->
    exists vertices : list (R * R),
      ngon_vertices side_lengths = Ok vertices /\
      length vertices = length side_lengths /\
      nth 0 vertices (0, 0) = (0, 1) /\
      forall i : nat, (1 <= i < length side_lengths)%nat ->
        dist2 (nth (i - 1) vertices (0, 0)) (nth i vertices (0, 0))
        = (nth i side_lengths 0) ^ 2.
Proof.
  intros sides Hne Hnz. unfold ngon_vertices.
  assert (Hn : (1 <= length sides)%nat) by (destruct sides; simpl; [congruence | lia]).
  destruct (ngon_vertex_loop_edges sides Hnz (length sides - 1) 1 (0, 1) (PI / 2) [(0, 1)])
    as (cv' & ca' & vs' & E & L & Pold & Pnew); try reflexivity; try lia.
  rewrite E. cbn [bind]. exists vs'. split; [reflexivity|].
  split; [rewrite L; lia|]. split.
  - rewrite Pold by lia. reflexivity.
  - intros i Hi. apply Pnew. lia.
Qed.

Lemma ngon_vertices_edges_witness :
  exists vertices : list (R * R),
    ngon_vertices [1; 3; 3; 3; 3] = Ok vertices /\
    length vertices = length [1; 3; 3; 3; 3] /\
    nth 0 vertices (0, 0) = (0, 1) /\
    forall i : nat, (1 <= i < length [1; 3; 3; 3; 3])%nat ->
      dist2 (nth (i - 1) vertices (0, 0)) (nth i vertices (0, 0))
      = (nth i [1; 3; 3; 3; 3] 0) ^ 2.
Proof.
  apply (ngon_vertices_edges [1; 3; 3; 3; 3]); [discriminate|].
  repeat constructor; lra.
Defined.

(** X17.  The n-gon spirals raise ZeroDivisionError on a non-empty theta
    when the list of side lengths is empty (from [2 * np.pi / n]) and when
    the product of the first two side lengths is zero (from the law of
    cosines). *)
Theorem ngon_degenerate_sides_raise :
  forall (x y theta : ndarray) (start_rate end_rate : R),
    theta <> [] ->
    variable_spiral_regular_ngon_transform x y theta start_rate end_rate []
    = Raise ZeroDivisionError /\
    variable_spiral_ngon_transform x y theta start_rate end_rate []
    = Raise ZeroDivisionError /\
    forall (s0 s1 : R) (rest : list R),
      s0 * s1 = 0 ->
      variable_spiral_regular_ngon_transform x y theta start_rate end_rate
        (s0 :: s1 :: rest) = Raise ZeroDivisionError /\
      variable_spiral_ngon_transform x y theta start_rate end_rate
        (s0 :: s1 :: rest) = Raise ZeroDivisionError.
Proof.
  intros x y theta s e Hne.
  assert (Hl : (1 <= length theta)%nat) by (destruct theta; simpl; [congruence | lia]).
  assert (E0 : variable_spiral_regular_ngon_transform x y theta s e []
               = Raise ZeroDivisionError).
  { unfold variable_spiral_regular_ngon_transform.
    rewrite last_item_ok by exact Hl. cbn [bind].
    rewrite radial_distance_ok. cbn [bind ngon_vertices length Nat.sub seq for_each].
    destruct theta as [|a theta]; [congruence|].
    cbn [enumerate enumerate_from for_each]. unfold ngon_sample_body.
    cbn [INR]. rewrite py_div_zero. reflexivity. }
  split; [exact E0|]. split; [exact E0|].
  intros s0 s1 rest Hz.
  assert (E1 : variable_spiral_regular_ngon_transform x y theta s e (s0 :: s1 :: rest)
               = Raise ZeroDivisionError).
  { unfold variable_spiral_regular_ngon_transform.
    rewrite last_item_ok by exact Hl. cbn [bind].
    rewrite radial_distance_ok. cbn [bind]. unfold ngon_vertices.
    cbn [length Nat.sub seq for_each]. unfold ngon_vertex_body at 1.
    rewrite (getitem_int_ok (s0 :: s1 :: rest) (Z.of_nat 1 - 1) 0)
      by (cbn [length]; lia).
    cbn [bind].
    rewrite (getitem_int_ok (s0 :: s1 :: rest) (Z.of_nat 1) 0)
      by (cbn [length]; lia).
    cbn [bind].
    rewrite (getitem_int_ok (s0 :: s1 :: rest) _ 0)
      by (apply Z.mod_pos_bound; cbn [length]; lia).
    cbn [bind].
    replace (Z.to_nat (Z.of_nat 1 - 1)) with 0%nat by reflexivity.
    replace (Z.to_nat (Z.of_nat 1)) with 1%nat by reflexivity.
    cbn [nth].
    replace (2 * s0 * s1) with 0 by (rewrite Rmult_assoc, Hz; ring).
    rewrite py_div_zero. reflexivity. }
  split; exact E1.
Qed.

Lemma ngon_degenerate_sides_raise_witness :
  variable_spiral_regular_ngon_transform [0] [0] [1] 0.9 0.01 []
  = Raise ZeroDivisionError.
Proof.
  apply (ngon_degenerate_sides_raise [0] [0] [1] 0.9 0.01). discriminate.
Defined.

(** X18.  With a recognised mode and a rolling radius [r = 0],
    [spirograph_transform] and [elliptical_spirograph_transform] raise
    ZeroDivisionError (from the Python divisions by [r]) on inputs of one
    length. *)
Theorem zero_rolling_radius_raises :
  forall (x y theta : ndarray) (R d a b : R) (mode : string),
    mode = "hypotrochoid"%string \/ mode = "epitrochoid"%string ->
    length x = length theta ->
    spirograph_transform x y theta R 0 d mode = Raise ZeroDivisionError /\
    elliptical_spirograph_transform x y theta R 0 d a b mode = Raise ZeroDivisionError.
Proof.
  intros x y theta R d a b mode Hm Hx.
  unfold spirograph_transform, elliptical_spirograph_transform.
  destruct Hm as [-> | ->]; cbn [String.eqb Ascii.eqb Bool.eqb]; unfold_np;
    rewrite !broadcast_same by len; cbn [bind]; rewrite !py_div_zero;
    split; reflexivity.
Qed.

Lemma zero_rolling_radius_raises_witness :
  spirograph_transform [1; 2] [3; 4] [0; PI] 5 0 2 "hypotrochoid"
  = Raise ZeroDivisionError /\
  elliptical_spirograph_transform [1; 2] [3; 4] [0; PI] 5 0 2 3 4 "hypotrochoid"
  = Raise ZeroDivisionError.
Proof.
  apply (zero_rolling_radius_raises [1; 2] [3; 4] [0; PI] 5 2 3 4 "hypotrochoid");
    [left; reflexivity | reflexivity].
Defined.

Lemma default_placement (x y theta : ndarray) :
  length x = length y ->
  translate_scale_rotate_transform x y theta 0 0 1 1 0 = Ok (x, y).
Proof.
  intros H. unfold translate_scale_rotate_transform.
  assert (D : deg2rad 0 = 0) by (unfold deg2rad; ring).
  rewrite D, cos_0, sin_0. unfold_np. run.
  assert (X : map (fun v => v + 0)
                (zip_with Rminus (map (fun v => v * 1) (map (fun v => v * 1) x))
                   (map (fun v => v * 0) (map (fun v => v * 1) y))) = x).
  { apply nth_ext with (d := 0) (d' := 0); [len|].
    intros i Hi. assert (i < length x)%nat by (revert Hi; len).
    nth_simpl. ring. }
  assert (Y : map (fun v => v + 0)
                (zip_with Rplus (map (fun v => v * 0) (map (fun v => v * 1) x))
                   (map (fun v => v * 1) (map (fun v => v * 1) y))) = y).
  { apply nth_ext with (d := 0) (d' := 0); [len|].
    intros i Hi. assert (i < length y)%nat by (revert Hi; len).
    nth_simpl. ring. }
  rewrite X, Y. reflexivity.
Qed.

Lemma setitem_length (a a' : ndarray) (i : nat) (v : R) :
  setitem a i v = Ok a' -> length a' = length a.
Proof.
  unfold setitem. destruct (i <? length a)%nat; intros H; inversion H.
  apply update_length.
Qed.

Lemma ngon_sample_body_lengths (n : nat) (vs : list (R * R)) (r : ndarray)
    (item : nat * R) (xt yt xt' yt' : ndarray) :
  ngon_sample_body n vs r item (xt, yt) = Ok (xt', yt') ->
  length xt' = length xt /\ length yt' = length yt.
Proof.
  destruct item as [i a]. unfold ngon_sample_body.
  destruct (py_div (2 * PI) (INR n)) as [seg|]; cbn [bind]; [|discriminate].
  destruct (getitem_int vs _) as [v0|]; cbn [bind]; [|discriminate].
  destruct (getitem_int vs _) as [v1|]; cbn [bind]; [|discriminate].
  destruct (setitem xt i _) as [x1|] eqn:E1; cbn [bind]; [|discriminate].
  destruct (setitem yt i _) as [y1|] eqn:E2; cbn [bind]; [|discriminate].
  destruct (getitem x1 i) as [xi|]; cbn [bind]; [|discriminate].
  destruct (getitem r i) as [ri|]; cbn [bind]; [|discriminate].
  destruct (setitem x1 i _) as [x2|] eqn:E3; cbn [bind]; [|discriminate].
  destruct (getitem y1 i) as [yi|]; cbn [bind]; [|discriminate].
  destruct (setitem y1 i _) as [y2|] eqn:E4; cbn [bind]; [|discriminate].
  intros H. inversion H; subst.
  apply setitem_length in E1, E2, E3, E4. split; congruence.
Qed.

Lemma for_each_lengths {A : Type}
    (body : A -> ndarray * ndarray -> result (ndarray * ndarray)) :
  (forall (item : A) (xt yt xt' yt' : ndarray),
      body item (xt, yt) = Ok (xt', yt') ->
      length xt' = length xt /\ length yt' = length yt) ->
  forall (items : list A) (xt yt xt' yt' : ndarray),
    for_each items body (xt, yt) = Ok (xt', yt') ->
    length xt' = length xt /\ length yt' = length yt.
Proof.
  intros Hbody. induction items as [|item items IH]; intros xt yt xt' yt' H.
  - cbn [for_each] in H. inversion H. split; reflexivity.
  - cbn [for_each] in H. destruct (body item (xt, yt)) as [[x1 y1]|] eqn:E;
      cbn [bind] in H; [|discriminate].
    apply Hbody in E. apply IH in H. destruct E, H. split; congruence.
Qed.

Lemma ngon_transform_lengths (x y theta : ndarray) (s e : R) (sides : list R)
    (x' y' : ndarray) :
  variable_spiral_regular_ngon_transform x y theta s e sides = Ok (x', y') ->
  length x' = length x /\ length y' = length y.
Proof.
  unfold variable_spiral_regular_ngon_transform.
  destruct (last_item theta) as [tm|]; cbn [bind]; [|discriminate].
  rewrite radial_distance_ok. cbn [bind].
  destruct (ngon_vertices sides) as [vs|]; cbn [bind]; [|discriminate].
  intros H. apply for_each_lengths in H.
  - unfold zeros_like in H. rewrite !length_map in H. exact H.
  - intros item xt yt xt' yt'. apply ngon_sample_body_lengths.
Qed.

(** A transform with valid parameters that returns, on inputs of one length,
    returns outputs of that length. *)
Lemma apply_transform_lengths (t : transform) (x y theta x' y' : ndarray) (N : nat) :
  valid_params t ->
  length x = N -> length y = N -> length theta = N -> (1 <= N)%nat ->
  apply_transform t x y theta = Ok (x', y') ->
  length x' = N /\ length y' = N.
Proof.
  intros Hv Hx Hy Ht HN H.
  assert (G : valid_theta t theta -> length x' = N /\ length y' = N).
  { intros Hth.
    destruct (apply_transform_ok t x y theta N Hv Hth Hx Hy Ht HN)
      as (x0 & y0 & E & [Lx _] & [Ly _]).
    rewrite E in H. inversion H; subst. split; assumption. }
  destruct t; try (apply G; exact I);
    cbn [apply_transform] in H; apply ngon_transform_lengths in H;
    destruct H; split; congruence.
Qed.

Lemma run_chain_lengths (chain : list transform) (theta : ndarray) (N : nat) :
  Forall valid_params chain -> length theta = N -> (1 <= N)%nat ->
  forall x y x' y' : ndarray,
    length x = N -> length y = N ->
    run_chain chain theta x y = Ok (x', y') ->
    length x' = N /\ length y' = N.
Proof.
  intros Hchain Ht HN. unfold run_chain.
  induction Hchain as [|t chain Hv _ IH]; intros x y x' y' Hx Hy H.
  - cbn [for_each] in H. inversion H; subst. split; assumption.
  - cbn [for_each] in H.
    destruct (apply_transform t x y theta) as [[x1 y1]|] eqn:E;
      cbn [bind] in H; [|discriminate].
    destruct (apply_transform_lengths t x y theta x1 y1 N Hv Hx Hy Ht HN E) as [L1 L2].
    exact (IH x1 y1 x' y' L1 L2 H).
Qed.

(** X19.  An exception in one pattern ends [draw_pattern]: when the patterns
    before it go through and its own assembly raises [e], the whole call
    raises [e], whatever follows in the list. *)
Theorem draw_pattern_propagates_first_error :
  forall (before after : list meta) (m : meta) (e : exn),
    Forall (fun b => exists xy : ndarray * ndarray, pattern_polyline b = Ok xy) before ->
    pattern_polyline m = Raise e ->
    draw_pattern (before ++ m :: after) = Raise e.
Proof.
  intros before after m e Hb Hm. unfold draw_pattern.
  rewrite for_each_app.
  destruct (draw_pattern_from before Hb []) as (polylines & E & _).
  rewrite E. cbn [bind for_each]. rewrite Hm. reflexivity.
Qed.

Lemma draw_pattern_propagates_first_error_witness :
  draw_pattern
    ([ {| meta_pattern := {| transforms := [CircularMotion 100 1]; rotations := 2 |};
          meta_translations := None |} ]
     ++ {| meta_pattern := {| transforms := [Spirograph 5 1 2 "bogus"]; rotations := 2 |};
           meta_translations := None |}
     :: [])
  = Raise ValueError.
Proof.
  apply (draw_pattern_propagates_first_error
           [ {| meta_pattern := {| transforms := [CircularMotion 100 1]; rotations := 2 |};
                meta_translations := None |} ]
           []
           {| meta_pattern := {| transforms := [Spirograph 5 1 2 "bogus"]; rotations := 2 |};
              meta_translations := None |}
           ValueError).
  - apply Forall_cons; [|apply Forall_nil].
    destruct (pattern_polyline_ok_on
                {| meta_pattern := {| transforms := [CircularMotion 100 1];
                                      rotations := 2 |};
                   meta_translations := None |}) as (x & y & E & _).
    + repeat constructor.
    + exists (x, y). exact E.
  - reflexivity.
Defined.

(** X20.  A pattern without a 'translations' entry is drawn where its chain
    leaves it: the polyline is the output of the transform chain on all-zero
    coordinates, the default placement being the identity. *)
Theorem missing_translations_keep_chain_output :
  forall p : pattern,
    Forall valid_params (transforms p) ->
    pattern_polyline {| meta_pattern := p; meta_translations := None |}
    = run_chain (transforms p) (theta_sequence (rotations p))
        (zeros_like (theta_sequence (rotations p)))
        (zeros_like (theta_sequence (rotations p))).
Proof.
  intros p Hv. unfold pattern_polyline.
  cbn [meta_pattern meta_translations no_translations get
       x_offset y_offset scale_x scale_y rotation_angle].
  set (theta := theta_sequence (rotations p)).
  assert (Lt : length theta = resolution) by apply theta_sequence_length.
  pose proof resolution_gt_1 as G.
  fold (run_chain (transforms p) theta (zeros_like theta) (zeros_like theta)).
  destruct (run_chain (transforms p) theta (zeros_like theta) (zeros_like theta))
    as [[x1 y1]|e] eqn:E; cbn [bind]; [|reflexivity].
  destruct (run_chain_lengths (transforms p) theta resolution Hv Lt ltac:(lia)
              (zeros_like theta) (zeros_like theta) x1 y1) as [Lx Ly];
    try (unfold zeros_like; len); [exact E|].
  apply default_placement. congruence.
Qed.

Lemma missing_translations_keep_chain_output_witness :
  pattern_polyline
    {| meta_pattern := {| transforms := [CircularMotion 100 1]; rotations := 2 |};
       meta_translations := None |}
  = run_chain [CircularMotion 100 1] (theta_sequence 2)
      (zeros_like (theta_sequence 2)) (zeros_like (theta_sequence 2)).
Proof.
  apply (missing_translations_keep_chain_output
           {| transforms := [CircularMotion 100 1]; rotations := 2 |}).
  repeat constructor.
Defined.

(** X21.  In [spiral_oscillator] with a non-negative [spiral_rate] the
    oscillating radius stays between 0 and twice the rate: every sample is
    displaced by [a * (r + const) * cos(theta)], [b * (r + const) * sin(theta)]
    with [0 <= r <= 2 * spiral_rate]. *)
Theorem spiral_oscillator_radius_range :
  forall (x y theta : ndarray) (spiral_rate frequency const a b : R) (N : nat),
    0 <= spiral_rate ->
    length x = N -> length y = N -> length theta = N ->
    exists x' y' : ndarray,
      spiral_oscillator x y theta spiral_rate frequency const a b = Ok (x', y') /\
      forall i : nat, (i < N)%nat ->
        exists r : R,
          0 <= r <= 2 * spiral_rate /\
          x'.[i] = x.[i] + a * (r + const) * cos theta.[i] /\
          y'.[i] = y.[i] + b * (r + const) * sin theta.[i].
Proof.
  intros x y theta rate freq const a b N Hrate Hx Hy Ht. unfold spiral_oscillator.
  unfold_np. run. do 2 eexists. split; [reflexivity|].
  intros i Hi. exists (rate + rate * sin (freq * theta.[i])).
  pose proof (SIN_bound (freq * theta.[i])) as [S1 S2].
  split; [split; nra|]. nth_simpl. split; ring.
Qed.

Lemma spiral_oscillator_radius_range_witness :
  exists x' y' : ndarray,
    spiral_oscillator [1; 2] [3; 4] [0; PI] 390 2 (-300) 1 1 = Ok (x', y') /\
    forall i : nat, (i < 2)%nat ->
      exists r : R,
        0 <= r <= 2 * 390 /\
        x'.[i] = [1; 2].[i] + 1 * (r + -300) * cos [0; PI].[i] /\
        y'.[i] = [3; 4].[i] + 1 * (r + -300) * sin [0; PI].[i].
Proof.
  apply (spiral_oscillator_radius_range [1; 2] [3; 4] [0; PI] 390 2 (-300) 1 1 2%nat);
    try reflexivity. lra.
Defined.

(** X22.  [variable_spiral_transform] with both rates 0 leaves the
    coordinates unchanged (equal-length inputs, nonzero last theta
    element). *)
Theorem variable_spiral_zero_rates_identity :
  forall (x y theta : ndarray) (a b : R) (N : nat),
    length x = N -> length y = N -> length theta = N -> (1 <= N)%nat ->
    last theta 0 <> 0 ->
    variable_spiral_transform x y theta 0 0 a b = Ok (x, y).
Proof.
  intros x y theta a b N Hx Hy Ht HN Hmax.
  destruct (variable_spiral_ok 0 0 a b x y theta N I I Hx Hy Ht HN)
    as (x' & y' & E & [Lx Px] & [Ly Py]).
  cbn [apply_transform sample_point fst snd] in E, Px, Py.
  rewrite E. f_equal. f_equal.
  - apply nth_ext with (d := 0) (d' := 0); [congruence|].
    intros i Hi. rewrite Px by lia. unfold radial_sample, Rdiv. ring.
  - apply nth_ext with (d := 0) (d' := 0); [congruence|].
    intros i Hi. rewrite Py by lia. unfold radial_sample, Rdiv. ring.
Qed.

Lemma variable_spiral_zero_rates_identity_witness :
  variable_spiral_transform [1; 2] [3; 4] [0; PI] 0 0 1 1 = Ok ([1; 2], [3; 4]).
Proof.
  apply (variable_spiral_zero_rates_identity [1; 2] [3; 4] [0; PI] 1 1 2%nat);
    try reflexivity; try lia.
  simpl. apply PI_neq0.
Defined.

(** X23.  At the end of the sweep the radial distance of
    [variable_spiral_transform] is the mean of the two rates times the last
    theta element: the last sample is displaced by
    [a * r * cos(theta_max)], [b * r * sin(theta_max)] with
    [r = (start_rate + end_rate) / 2 * theta_max]. *)
Theorem variable_spiral_final_radius :
  forall (x y theta : ndarray) (start_rate end_rate a b : R) (N : nat),
    length x = N -> length y = N -> length theta = N -> (1 <= N)%nat ->
    last theta 0 <> 0 ->
    exists x' y' : ndarray,
      variable_spiral_transform x y theta start_rate end_rate a b = Ok (x', y') /\
      let theta_max := last theta 0 in
      let r := (start_rate + end_rate) / 2 * theta_max in
      last x' 0 = last x 0 + a * r * cos theta_max /\
      last y' 0 = last y 0 + b * r * sin theta_max.
Proof.
  intros x y theta s e a b N Hx Hy Ht HN Hmax.
  destruct (variable_spiral_ok s e a b x y theta N I I Hx Hy Ht HN)
    as (x' & y' & E & [Lx Px] & [Ly Py]).
  cbn [apply_transform sample_point fst snd] in E, Px, Py.
  exists x', y'. split; [exact E|]. cbv zeta.
  rewrite (last_nth x'), (last_nth y'), (last_nth x), (last_nth y), Lx, Ly, Hx, Hy.
  rewrite Px, Py by lia.
  assert (T : theta.[N - 1] = last theta 0) by (rewrite last_nth, Ht; reflexivity).
  rewrite T.
  assert (Q : radial_sample s e (last theta 0) (last theta 0)
              = (s + e) / 2 * last theta 0)
    by (unfold radial_sample; field; exact Hmax).
  rewrite Q. split; reflexivity.
Qed.

Lemma variable_spiral_final_radius_witness :
  exists x' y' : ndarray,
    variable_spiral_transform [1; 2] [3; 4] [0; PI] 0.01 1.1 1 1 = Ok (x', y') /\
    let theta_max := last [0; PI] 0 in
    let r := (0.01 + 1.1) / 2 * theta_max in
    last x' 0 = last [1; 2] 0 + 1 * r * cos theta_max /\
    last y' 0 = last [3; 4] 0 + 1 * r * sin theta_max.
Proof.
  apply (variable_spiral_final_radius [1; 2] [3; 4] [0; PI] 0.01 1.1 1 1 2%nat);
    try reflexivity; try lia.
  simpl. apply PI_neq0.
Defined.

(** X24.  The y output of [mystery_lines] is the y output of
    [spiral_oscillator] with [const = 0] and [b = 1]; the two differ in the x
    output only, where [mystery_lines] uses the sine. *)
Theorem mystery_lines_y_is_oscillator_y :
  forall (x y theta : ndarray) (spiral_rate frequency a : R) (N : nat),
    length x = N -> length y = N -> length theta = N ->
    exists x1 x2 y' : ndarray,
      mystery_lines x y theta spiral_rate frequency = Ok (x1, y') /\
      spiral_oscillator x y theta spiral_rate frequency 0 a 1 = Ok (x2, y').
Proof.
  intros x y theta rate freq a N Hx Hy Ht.
  unfold mystery_lines, spiral_oscillator. unfold_np. run.
  do 3 eexists. split; [reflexivity|]. f_equal. f_equal.
  apply nth_ext with (d := 0) (d' := 0); [len|].
  intros i Hi. assert (i < N)%nat by (revert Hi; len).
  nth_simpl. ring.
Qed.

Lemma mystery_lines_y_is_oscillator_y_witness :
  exists x1 x2 y' : ndarray,
    mystery_lines [1; 2] [3; 4] [0; PI] 390 2 = Ok (x1, y') /\
    spiral_oscillator [1; 2] [3; 4] [0; PI] 390 2 0 1 1 = Ok (x2, y').
Proof.
  apply (mystery_lines_y_is_oscillator_y [1; 2] [3; 4] [0; PI] 390 2 1 2%nat);
    reflexivity.
Defined.

(** X25.  The final placement with one scale [s] for both axes is a
    similarity: the squared distance between any two output samples is
    [s^2] times the squared distance between the two input samples, for any
    offsets and rotation angle. *)
Theorem placement_is_similarity :
  forall (x y theta : ndarray) (x_offset y_offset s rotation_angle : R) (N : nat),
    length x = N -> length y = N ->
    exists x' y' : ndarray,
      translate_scale_rotate_transform x y theta x_offset y_offset s s rotation_angle
      = Ok (x', y') /\
      forall i j : nat, (i < N)%nat -> (j < N)%nat ->
        (x'.[i] - x'.[j]) ^ 2 + (y'.[i] - y'.[j]) ^ 2
        = s ^ 2 * ((x.[i] - x.[j]) ^ 2 + (y.[i] - y.[j]) ^ 2).
Proof.
  intros x y theta xo yo s ra N Hx Hy. unfold translate_scale_rotate_transform.
  unfold_np. run. do 2 eexists. split; [reflexivity|].
  intros i j Hi Hj. nth_simpl.
  pose proof (sin2_cos2 (deg2rad ra)) as H. unfold Rsqr in H.
  set (c := cos (deg2rad ra)) in *. set (sn := sin (deg2rad ra)) in *.
  replace (s ^ 2 * ((x.[i] - x.[j]) ^ 2 + (y.[i] - y.[j]) ^ 2))
    with (s ^ 2 * ((x.[i] - x.[j]) ^ 2 + (y.[i] - y.[j]) ^ 2) * (sn * sn + c * c))
    by (rewrite H; ring).
  ring.
Qed.

Lemma placement_is_similarity_witness :
  exists x' y' : ndarray,
    translate_scale_rotate_transform [1; 2] [3; 4] [0; PI] 1000 0 1.2 1.2 15
    = Ok (x', y') /\
    forall i j : nat, (i < 2)%nat -> (j < 2)%nat ->
      (x'.[i] - x'.[j]) ^ 2 + (y'.[i] - y'.[j]) ^ 2
      = 1.2 ^ 2 * (([1; 2].[i] - [1; 2].[j]) ^ 2 + ([3; 4].[i] - [3; 4].[j]) ^ 2).
Proof.
  apply (placement_is_similarity [1; 2] [3; 4] [0; PI] 1000 0 1.2 15 2%nat);
    reflexivity.
Defined.

(** ** The preset registry *)

Lemma get_pattern_In (patterns : list (string * pattern)) (name : string) (p : pattern) :
  get_pattern patterns name = Some p -> In (name, p) patterns.
Proof.
  induction patterns as [|[key q] rest IH]; cbn [get_pattern]; [discriminate|].
  destruct (String.eqb_spec name key) as [-> | _].
  - intros H. inversion H. left. reflexivity.
  - intros H. right. apply IH. exact H.
Qed.

Lemma get_pattern_not_registered (patterns : list (string * pattern)) (name : string) :
  ~ In name (map fst patterns) -> get_pattern patterns name = None.
Proof.
  induction patterns as [|[key q] rest IH]; cbn [get_pattern map fst In];
    [reflexivity|].
  intros H. destruct (String.eqb_spec name key) as [-> | _].
  - exfalso. apply H. left. reflexivity.
  - apply IH. intros Hin. apply H. right. exact Hin.
Qed.

(** Valid parameters of a preset chain, decided on its literal entries. *)
Ltac valid_one :=
  cbn [valid_params];
  first [ exact I
        | split; [left; reflexivity | lra]
        | right; left; reflexivity
        | split; [discriminate | repeat (apply Forall_cons; [lra|]); apply Forall_nil] ].

Ltac valid_chain :=
  cbv [snd transforms rotations
       create_croissant_pattern create_tube_pattern
       create_simple_pent_transform_pattern meta_spiral
       create_triangle_test_pattern create_classic_spirograph_pattern
       create_rectangle_spirograph_pattern create_n_gon_test_pattern
       create_x_ray_shell_pattern create_banana_pattern
       create_simple_snail_pattern create_another_simple_snail_pattern
       create_sparse_shell_pattern];
  repeat (apply Forall_cons; [valid_one|]); apply Forall_nil.

Lemma presets_valid (path : svg_path) :
  Forall (fun entry : string * pattern =>
            Forall valid_params (transforms (snd entry)) /\ 0 < rotations (snd entry))
    [ ("croissant", create_croissant_pattern);
      ("tube", create_tube_pattern);
      ("simple_pent_transform", create_simple_pent_transform_pattern);
      ("meta_spiral", meta_spiral);
      ("transform_set_2",
       {| transforms := [ SvgPath path 1 0 0;
                          Spirograph 500 200 500 "hypotrochoid";
                          CircularMotion 100 0.001;
                          LinearTranslation 400 45;
                          PaperRotationNonLinear 70 (RateName "quadratic") ];
          rotations := 130 |});
      ("triangle_test", create_triangle_test_pattern);
      ("classic_spirograph", create_classic_spirograph_pattern);
      ("rectangle_spirograph", create_rectangle_spirograph_pattern);
      ("n_gon_test", create_n_gon_test_pattern);
      ("scramble",
       {| transforms := [ SvgPath path 1 0 0;
                          Spirograph 500 200 500 "hypotrochoid";
                          CircularMotion 100 0.001;
                          LinearTranslation 400 45;
                          PaperRotationNonLinear 70 (RateName "quadratic") ];
          rotations := 130 |});
      ("x_ray_shell", create_x_ray_shell_pattern);
      ("banana", create_banana_pattern);
      ("another_simple_shell", create_another_simple_snail_pattern);
      ("create_simple_snail_pattern", create_simple_snail_pattern);
      ("create_sparse_shell_pattern", create_sparse_shell_pattern) ]%string.
Proof.
  repeat (apply Forall_cons;
          [split; [valid_chain | cbv [snd rotations
             create_croissant_pattern create_tube_pattern
             create_simple_pent_transform_pattern meta_spiral
             create_triangle_test_pattern create_classic_spirograph_pattern
             create_rectangle_spirograph_pattern create_n_gon_test_pattern
             create_x_ray_shell_pattern create_banana_pattern
             create_simple_snail_pattern create_another_simple_snail_pattern
             create_sparse_shell_pattern]; lra] |]).
  apply Forall_nil.
Qed.

Lemma Patterns_ok (svg2paths : string -> list svg_path) (path : svg_path)
    (others : list svg_path) :
  svg2paths "single_vector.svg"%string = path :: others ->
  exists patterns : list (string * pattern),
    Patterns svg2paths = Ok patterns /\
    map fst patterns
    = [ "croissant"; "tube"; "simple_pent_transform"; "meta_spiral";
        "transform_set_2"; "triangle_test"; "classic_spirograph";
        "rectangle_spirograph"; "n_gon_test"; "scramble"; "x_ray_shell"; "banana";
        "another_simple_shell"; "create_simple_snail_pattern";
        "create_sparse_shell_pattern" ]%string /\
    get_pattern patterns "banana" = Some create_banana_pattern /\
    get_pattern patterns "triangle_test" = Some create_triangle_test_pattern /\
    get_pattern patterns "meta_spiral" = Some meta_spiral /\
    get_pattern patterns "x_ray_shell" = Some create_x_ray_shell_pattern /\
    Forall (fun entry : string * pattern =>
              Forall valid_params (transforms (snd entry)) /\ 0 < rotations (snd entry))
      patterns.
Proof.
  intros Hsvg.
  unfold Patterns, create_transform_set_2, create_scramble_pattern, load_svg_path.
  rewrite Hsvg. cbn [bind]. eexists. split; [reflexivity|].
  split; [reflexivity|]. repeat (split; [reflexivity|]).
  apply presets_valid.
Qed.

(** X26.  The registry stands or falls with the SVG file: when
    single_vector.svg holds no path, [Patterns()] raises ValueError and no
    preset is available; when it holds one, the registry has its 15 presets
    under distinct names, a lookup of any other name gives [None], and every
    preset has a positive rotation count and transforms with valid
    parameters. *)
Theorem registry_presets_well_formed :
  forall svg2paths : string -> list svg_path,
    (svg2paths "single_vector.svg"%string = [] ->
       Patterns svg2paths = Raise ValueError) /\
    (svg2paths "single_vector.svg"%string <> [] ->
       exists patterns : list (string * pattern),
         Patterns svg2paths = Ok patterns /\
         length patterns = 15%nat /\
         NoDup (map fst patterns) /\
         (forall name : string,
             ~ In name (map fst patterns) -> get_pattern patterns name = None) /\
         (forall (name : string) (p : pattern),
             get_pattern patterns name = Some p ->
             Forall valid_params (transforms p) /\ 0 < rotations p)).
Proof.
  intros svg2paths. split.
  - intros Hsvg.
    unfold Patterns, create_transform_set_2, load_svg_path. rewrite Hsvg. reflexivity.
  - intros Hsvg. destruct (svg2paths "single_vector.svg"%string) as [|path others] eqn:E;
      [congruence|].
    destruct (Patterns_ok svg2paths path others E)
      as (patterns & EP & Hnames & _ & _ & _ & _ & Hvalid).
    exists patterns. split; [exact EP|].
    split; [rewrite <- (length_map fst), Hnames; reflexivity|].
    split.
    + rewrite Hnames.
      repeat (apply NoDup_cons;
              [cbn [In]; intros H;
               repeat (destruct H as [H|H]; [discriminate H|]); exact H |]).
      apply NoDup_nil.
    + split; [intros name; apply get_pattern_not_registered|].
      intros name p Hget. apply get_pattern_In in Hget.
      rewrite Forall_forall in Hvalid. apply (Hvalid (name, p) Hget).
Qed.

Lemma registry_presets_well_formed_witness :
  Patterns (fun _ => []) = Raise ValueError /\
  exists patterns : list (string * pattern),
    Patterns (fun _ => [unit_segment]) = Ok patterns /\ length patterns = 15%nat.
Proof.
  split.
  - apply (registry_presets_well_formed (fun _ => [])). reflexivity.
  - destruct (proj2 (registry_presets_well_formed (fun _ => [unit_segment])))
      as (patterns & E & L & _); [discriminate|].
    exists patterns. split; [exact E | exact L].
Defined.

Lemma draw_entries_ok (entries : list (option pattern * option translations)) :
  Forall (fun entry => exists p : pattern,
              fst entry = Some p /\ Forall valid_params (transforms p) /\
              0 <= rotations p) entries ->
  forall plotted : list (ndarray * ndarray),
    Forall (fun xy => length (fst xy) = resolution /\ length (snd xy) = resolution)
      plotted ->
    exists polylines : list (ndarray * ndarray),
      draw_entries entries plotted = Plotted polylines /\
      length polylines = (length plotted + length entries)%nat /\
      Forall (fun xy => length (fst xy) = resolution /\ length (snd xy) = resolution)
        polylines.
Proof.
  intros H. induction H as [|[op tr] entries (p & Hp & Hv & Hr) _ IH]; intros plotted Hpl.
  - exists plotted. cbn [draw_entries length]. repeat split; auto.
  - cbn [fst] in Hp. subst op. cbn [draw_entries].
    destruct (pattern_polyline_ok {| meta_pattern := p; meta_translations := tr |} Hv Hr)
      as (x & y & E & Lx & Ly).
    rewrite E.
    destruct (IH (plotted ++ [(x, y)])) as (polylines & E' & L & F).
    { apply Forall_app. split; [exact Hpl|]. repeat constructor; assumption. }
    exists polylines. split; [exact E'|]. split; [|exact F].
    rewrite L, length_app. simpl. lia.
Qed.

(** X27.  [generate_pattern] goes through on the presets it names: when
    single_vector.svg holds a path it plots four polylines of 50000 points
    each (banana, triangle_test, meta_spiral, x_ray_shell), and when the file
    holds no path it ends in the ValueError of the registry. *)
Theorem generate_pattern_plots_four_polylines :
  forall svg2paths : string -> list svg_path,
    (svg2paths "single_vector.svg"%string = [] ->
       generate_pattern svg2paths = Failed ValueError) /\
    (svg2paths "single_vector.svg"%string <> [] ->
       exists polylines : list (ndarray * ndarray),
         generate_pattern svg2paths = Plotted polylines /\
         length polylines = 4%nat /\
         Forall (fun xy => length (fst xy) = 50000%nat /\ length (snd xy) = 50000%nat)
           polylines).
Proof.
  intros svg2paths. split.
  - intros Hsvg. unfold generate_pattern, Patterns, create_transform_set_2, load_svg_path.
    rewrite Hsvg. reflexivity.
  - intros Hsvg. destruct (svg2paths "single_vector.svg"%string) as [|path others] eqn:E;
      [congruence|].
    destruct (Patterns_ok svg2paths path others E)
      as (patterns & EP & _ & G1 & G2 & G3 & G4 & _).
    unfold generate_pattern. rewrite EP, G1, G2, G3, G4.
    match goal with
    | |- context [draw_entries ?es []] =>
        destruct (draw_entries_ok es) with (plotted := @nil (ndarray * ndarray))
          as (polylines & Ed & L & F)
    end.
    + repeat (apply Forall_cons;
              [eexists; split; [reflexivity
                               | split; [valid_chain
                                        | cbv [rotations create_banana_pattern
                                               create_triangle_test_pattern meta_spiral
                                               create_x_ray_shell_pattern]; lra]] |]).
      apply Forall_nil.
    + apply Forall_nil.
    + exists polylines. split; [exact Ed|]. split; [exact L | exact F].
Qed.

Lemma generate_pattern_plots_four_polylines_witness :
  generate_pattern (fun _ => []) = Failed ValueError /\
  exists polylines : list (ndarray * ndarray),
    generate_pattern (fun _ => [unit_segment]) = Plotted polylines /\
    length polylines = 4%nat.
Proof.
  split.
  - apply (generate_pattern_plots_four_polylines (fun _ => [])). reflexivity.
  - destruct (proj2 (generate_pattern_plots_four_polylines (fun _ => [unit_segment])))
      as (polylines & E & L & _); [discriminate|].
    exists polylines. split; [exact E | exact L].
Defined.

Lemma smul_last (k : R) (theta : ndarray) :
  last (smul k theta) 0 = k * last theta 0.
Proof.
  destruct theta as [|a theta]; [simpl; ring|].
  rewrite !last_nth. unfold smul. rewrite length_map.
  apply map_nth_lt. simpl. lia.
Qed.

Lemma progress_only_sample (t : transform) (k tm xi yi ti : R) :
  progress_only t = true -> k <> 0 -> tm <> 0 ->
  sample_point t (k * tm) xi yi (k * ti) = sample_point t tm xi yi ti.
Proof.
  intros Ht Hk Hm.
  assert (Q : k * ti / (k * tm) = ti / tm) by (field; split; assumption).
  destruct t; cbn [progress_only] in Ht; try discriminate;
    cbn [sample_point]; unfold svg_sample; rewrite Q; reflexivity.
Qed.

Lemma progress_only_valid_theta (t : transform) (theta : ndarray) :
  progress_only t = true -> valid_theta t theta.
Proof.
  destruct t; cbn [progress_only valid_theta]; intros H; try discriminate; exact I.
Qed.

(** X28.  The transforms that use theta only through the progress
    [theta / theta[-1]] (the two paper rotations, the linear translation and
    the SVG trace) give the same output when theta is multiplied by a
    nonzero factor: the number of rotations does not change what they do. *)
Theorem progress_transforms_ignore_theta_scale :
  forall (t : transform) (x y theta : ndarray) (k : R) (N : nat),
    progress_only t = true -> valid_params t ->
    length x = N -> length y = N -> length theta = N -> (1 <= N)%nat ->
    k <> 0 -> last theta 0 <> 0 ->
    apply_transform t x y (smul k theta) = apply_transform t x y theta.
Proof.
  intros t x y theta k N Hp Hv Hx Hy Ht HN Hk Hmax.
  assert (Ls : length (smul k theta) = N) by (unfold smul; len).
  destruct (apply_transform_ok t x y theta N Hv
              (progress_only_valid_theta t theta Hp) Hx Hy Ht HN)
    as (x1 & y1 & E1 & [Lx1 Px1] & [Ly1 Py1]).
  destruct (apply_transform_ok t x y (smul k theta) N Hv
              (progress_only_valid_theta t _ Hp) Hx Hy Ls HN)
    as (x2 & y2 & E2 & [Lx2 Px2] & [Ly2 Py2]).
  rewrite E1, E2.
  assert (K : forall i : nat, (i < N)%nat -> x2.[i] = x1.[i] /\ y2.[i] = y1.[i]).
  { intros i Hi. rewrite (Px1 i Hi), (Py1 i Hi), (Px2 i Hi), (Py2 i Hi).
    rewrite smul_last. unfold smul. rewrite !map_nth_lt by lia.
    rewrite progress_only_sample by assumption. split; reflexivity. }
  f_equal. f_equal.
  - apply nth_ext with (d := 0) (d' := 0); [congruence|].
    intros i Hi. apply K. lia.
  - apply nth_ext with (d := 0) (d' := 0); [congruence|].
    intros i Hi. apply K. lia.
Qed.

Lemma progress_transforms_ignore_theta_scale_witness :
  apply_transform (PaperRotation 70) [1; 2] [3; 4] (smul 5 [0; PI])
  = apply_transform (PaperRotation 70) [1; 2] [3; 4] [0; PI].
Proof.
  apply (progress_transforms_ignore_theta_scale (PaperRotation 70)
           [1; 2] [3; 4] [0; PI] 5 2%nat);
    try reflexivity; try exact I; try lia; try lra.
  simpl. apply PI_neq0.
Defined.

(** X29.  With both semi-axes equal to the rolling radius,
    [elliptical_spirograph_transform] is [spirograph_transform]. *)
Theorem elliptical_with_equal_axes_is_spirograph :
  forall (x y theta : ndarray) (R r d : R) (mode : string) (N : nat),
    mode = "hypotrochoid"%string \/ mode = "epitrochoid"%string -> r <> 0 ->
    length x = N -> length y = N -> length theta = N -> (1 <= N)%nat ->
    elliptical_spirograph_transform x y theta R r d r r mode
    = spirograph_transform x y theta R r d mode.
Proof.
  intros x y theta R r d mode N Hm Hr Hx Hy Ht HN.
  destruct (spirograph_ok R r d mode x y theta N (conj Hm Hr) I Hx Hy Ht HN)
    as (x1 & y1 & E1 & [Lx1 Px1] & [Ly1 Py1]).
  destruct (elliptical_spirograph_ok R r d r r mode x y theta N (conj Hm Hr) I Hx Hy Ht HN)
    as (x2 & y2 & E2 & [Lx2 Px2] & [Ly2 Py2]).
  cbn [apply_transform] in E1, E2. rewrite E1, E2.
  assert (K : forall i : nat, (i < N)%nat -> x2.[i] = x1.[i] /\ y2.[i] = y1.[i]).
  { intros i Hi. rewrite (Px1 i Hi), (Py1 i Hi), (Px2 i Hi), (Py2 i Hi).
    cbn [sample_point].
    destruct Hm as [-> | ->]; cbn [String.eqb Ascii.eqb Bool.eqb fst snd];
      split; field; exact Hr. }
  f_equal. f_equal.
  - apply nth_ext with (d := 0) (d' := 0); [congruence|].
    intros i Hi. apply K. lia.
  - apply nth_ext with (d := 0) (d' := 0); [congruence|].
    intros i Hi. apply K. lia.
Qed.

Lemma elliptical_with_equal_axes_is_spirograph_witness :
  elliptical_spirograph_transform [1; 2] [3; 4] [0; PI] 100 31 60 31 31 "epitrochoid"
  = spirograph_transform [1; 2] [3; 4] [0; PI] 100 31 60 "epitrochoid".
Proof.
  apply (elliptical_with_equal_axes_is_spirograph [1; 2] [3; 4] [0; PI] 100 31 60
           "epitrochoid" 2%nat);
    try reflexivity; try lia; [right; reflexivity | lra].
Defined.






